(** * txt2abs: octal text listing to PDP-11 absolute-loader format

    A shallow embedding of [txt2abs.cpp] and the properties its
    specification states about it.

    Conventions of the embedding.
    - [u4_t] ([unsigned int], 32 bits) values are [Z] with the wrap-around
      written out ([u4]); a store into a [u1_t] keeps the low byte ([u1]).
    - The globals and the loop-carried locals of [main] form one record
      [state], passed explicitly.
    - The bytes of [blk.data] below [sp] are the list [data]; a store at or
      beyond [blk.data + NBLK], a [%s] conversion longer than [def_s], a
      [#define] beyond [ifdefs[N_IFDEFS]] and a store at [buf[-1]] are
      undefined behaviour in C and are results [Fault _] here.
    - [fwp] is the sequence of [fwrite] calls made on the output stream, each
      one the bytes it was given; writes are taken to succeed.  [rm] records
      that [error] has run [rm fn_out]; what remains of the file after that
      is a matter of the file system and is not modelled.
    - [printf] output other than the [error] and [note] lines is not
      modelled, so the [--list] flag has no effect here.
    - The [int] counters [lnum] and [errs] are unbounded [Z].
    - [main] is taken after its arguments are parsed and its files opened:
      it receives the symbols of the [--def] arguments and the contents of
      the input file.  What comes before, the loop over [argv] and the two
      calls of [fopen], is [main_argv]; there the files are two functions,
      one that gives the characters the input stream delivers and one that
      tells whether the output file can be opened, and reading [argv]
      beyond its end, [fopen] of a null pointer and a store beyond [ifdefs]
      are endings of their own.
    - [sscanf] is modelled for the five formats [main] uses, with the
      conversions [%s] and [%o] of the C library ([%o] as glibc converts it
      on a 64-bit [unsigned long]). *)

From Stdlib Require Import ZArith List Ascii String Bool Lia.
From Stdlib Require Import Sorted.
Import ListNotations.
Open Scope string_scope.
Open Scope list_scope.
Open Scope Z_scope.

(** ** Machine integers *)

Definition u4 (z : Z) : Z := z mod 2 ^ 32.
Definition u1 (z : Z) : Z := z mod 2 ^ 8.

(** [~x] on a [u4_t]. *)
Definition not32 (x : Z) : Z := u4 (Z.lnot x).

(** ** Results: a value, or undefined behaviour of the C program *)

Inductive fault : Type :=
| BlkOverrun      (* store outside blk.data[NBLK] *)
| DefOverrun      (* %s longer than def_s[64] *)
| IfdefsOverrun   (* ifdefs[n_ifdefs] with n_ifdefs >= N_IFDEFS *)
| BufUnderrun     (* buf[strlen(buf)-1] with strlen(buf) = 0 *)
| Fuel.           (* the line loop of the model ran out of fuel *)

Inductive res (A : Type) : Type :=
| Ok (a : A)
| Fault (f : fault).
Arguments Ok {A} a.
Arguments Fault {A} f.

Definition bind {A B : Type} (r : res A) (k : A -> res B) : res B :=
  match r with
  | Ok a => k a
  | Fault f => Fault f
  end.

Notation "x <- r ;; k" := (bind r (fun x => k))
  (at level 61, r at next level, right associativity).

(** ** Constants of the source *)

Definition ABS_SIG : Z := 1.
Definition HDR_LEN : Z := 6.
Definition CKSUM_LEN : Z := 1.
Definition NBLK : Z := 64 * 1024.
Definition N_IFDEFS : Z := 32.
Definition NBUF : nat := 256.
Definition DEF_S_LEN : Z := 64.

Inductive abs_t : Type := ABS_BLK | ABS_HALT.

(** The calls of [error], by their format string. *)
Inductive err_t : Type :=
| E_else          (* "#else not inside #if ..." *)
| E_endif         (* "#endif without corresponding #if" *)
| E_user          (* #error line *)
| E_range_norg    (* "range norg=%06o" *)
| E_range_chk2    (* "'::' range chk=%06o" *)
| E_consist2      (* "consistency check, expecting pc=..." *)
| E_range_chk1    (* "':' range chk=%06o" *)
| E_consist1      (* "consistency check, expecting (pc-2)=..." *)
| E_range_b       (* "range b=%04o" *)
| E_syntax        (* "syntax error ..." *)
| E_range_w0      (* "range w0=%06o" *)
| E_range_w1      (* "range w1=%06o" *)
| E_range_w2      (* "range w2=%06o" *)
| E_odd_pc.       (* "odd pc=%06o" *)

Definition err_eqb (a b : err_t) : bool :=
  match a, b with
  | E_else, E_else | E_endif, E_endif | E_user, E_user
  | E_range_norg, E_range_norg | E_range_chk2, E_range_chk2
  | E_consist2, E_consist2 | E_range_chk1, E_range_chk1
  | E_consist1, E_consist1 | E_range_b, E_range_b | E_syntax, E_syntax
  | E_range_w0, E_range_w0 | E_range_w1, E_range_w1
  | E_range_w2, E_range_w2 | E_odd_pc, E_odd_pc => true
  | _, _ => false
  end.

(** The error classes of the specification. *)
Definition is_nesting (e : err_t) : bool :=
  match e with E_else | E_endif => true | _ => false end.
Definition is_consistency (e : err_t) : bool :=
  match e with E_consist2 | E_consist1 => true | _ => false end.
Definition is_range (e : err_t) : bool :=
  match e with
  | E_range_norg | E_range_chk2 | E_range_chk1 | E_range_b
  | E_range_w0 | E_range_w1 | E_range_w2 => true
  | _ => false
  end.
Definition is_parity (e : err_t) : bool :=
  match e with E_odd_pc => true | _ => false end.

(** ** Program state *)

Record state : Type := mkState {
  lnum : Z;                    (* int lnum *)
  errs : Z;                    (* int errs *)
  rm : bool;                   (* bool rm: fn_out has been removed *)
  elog : list (Z * err_t);     (* the "line %d ERROR: ..." lines, oldest first *)
  notes : list Z;              (* the "line %d NOTE: ..." lines, by line number *)
  have_blk : bool;             (* bool have_blk *)
  data : list Z;               (* blk.data[0 .. sp - blk.data) *)
  org : Z;                     (* u4_t org *)
  pc : Z;                      (* u4_t pc *)
  fwp : list (list Z);         (* the fwrite calls on fwp, oldest first *)
  ifdefs : list string;        (* ifdefs[0 .. n_ifdefs) *)
  lvl : Z;                     (* u4_t lvl *)
  inside_if : Z;               (* u4_t inside_if *)
  ignore_input : Z             (* u4_t ignore_input *)
}.

Definition set_lnum (v : Z) (s : state) : state :=
  mkState v (errs s) (rm s) (elog s) (notes s) (have_blk s) (data s) (org s)
          (pc s) (fwp s) (ifdefs s) (lvl s) (inside_if s) (ignore_input s).
Definition set_notes (v : list Z) (s : state) : state :=
  mkState (lnum s) (errs s) (rm s) (elog s) v (have_blk s) (data s) (org s)
          (pc s) (fwp s) (ifdefs s) (lvl s) (inside_if s) (ignore_input s).
Definition set_have_blk (v : bool) (s : state) : state :=
  mkState (lnum s) (errs s) (rm s) (elog s) (notes s) v (data s) (org s)
          (pc s) (fwp s) (ifdefs s) (lvl s) (inside_if s) (ignore_input s).
Definition set_data (v : list Z) (s : state) : state :=
  mkState (lnum s) (errs s) (rm s) (elog s) (notes s) (have_blk s) v (org s)
          (pc s) (fwp s) (ifdefs s) (lvl s) (inside_if s) (ignore_input s).
Definition set_org (v : Z) (s : state) : state :=
  mkState (lnum s) (errs s) (rm s) (elog s) (notes s) (have_blk s) (data s) v
          (pc s) (fwp s) (ifdefs s) (lvl s) (inside_if s) (ignore_input s).
Definition set_pc (v : Z) (s : state) : state :=
  mkState (lnum s) (errs s) (rm s) (elog s) (notes s) (have_blk s) (data s)
          (org s) v (fwp s) (ifdefs s) (lvl s) (inside_if s) (ignore_input s).
Definition set_fwp (v : list (list Z)) (s : state) : state :=
  mkState (lnum s) (errs s) (rm s) (elog s) (notes s) (have_blk s) (data s)
          (org s) (pc s) v (ifdefs s) (lvl s) (inside_if s) (ignore_input s).
Definition set_ifdefs (v : list string) (s : state) : state :=
  mkState (lnum s) (errs s) (rm s) (elog s) (notes s) (have_blk s) (data s)
          (org s) (pc s) (fwp s) v (lvl s) (inside_if s) (ignore_input s).
Definition set_lvl (v : Z) (s : state) : state :=
  mkState (lnum s) (errs s) (rm s) (elog s) (notes s) (have_blk s) (data s)
          (org s) (pc s) (fwp s) (ifdefs s) v (inside_if s) (ignore_input s).
Definition set_inside_if (v : Z) (s : state) : state :=
  mkState (lnum s) (errs s) (rm s) (elog s) (notes s) (have_blk s) (data s)
          (org s) (pc s) (fwp s) (ifdefs s) (lvl s) v (ignore_input s).
Definition set_ignore_input (v : Z) (s : state) : state :=
  mkState (lnum s) (errs s) (rm s) (elog s) (notes s) (have_blk s) (data s)
          (org s) (pc s) (fwp s) (ifdefs s) (lvl s) (inside_if s) v.

(** [error(fmt, ...)]: print the line-tagged message, count it, and on the
    first call remove the output file. *)
Definition error (e : err_t) (s : state) : state :=
  mkState (lnum s) (errs s + 1) true (elog s ++ [(lnum s, e)]) (notes s)
          (have_blk s) (data s) (org s) (pc s) (fwp s) (ifdefs s) (lvl s)
          (inside_if s) (ignore_input s).

(** [note(fmt, ...)]: print the line-tagged message. *)
Definition note (s : state) : state := set_notes (notes s ++ [lnum s]) s.

(** [if (c) error(e);] *)
Definition error_if (c : bool) (e : err_t) (s : state) : state :=
  if c then error e s else s.

(** ** The block emitter *)

(** [writeHL_le(sp, w)]: the two bytes stored in [sp ## L] and [sp ## H]. *)
Definition writeHL_le (w : Z) : list Z :=
  [Z.land w 255; Z.land (Z.shiftr w 8) 255].

(** [*sp++ = v] on the [u1_t] array [blk.data]. *)
Definition put (v : Z) (s : state) : res state :=
  if NBLK <=? Z.of_nat (List.length (data s)) then Fault BlkOverrun
  else Ok (set_data (data s ++ [u1 v]) s).

(** [write_le(sp, w)]. *)
Definition write_le (w : Z) (s : state) : res state :=
  s1 <- put (Z.land w 255) s ;;
  put (Z.land (Z.shiftr w 8) 255) s1.

(** [for (i = 0; i < len; i++) cksum += blk.data[i];] *)
Definition add_data (cksum : Z) (d : list Z) : Z :=
  fold_left (fun c b => u4 (c + b)) d cksum.

(** The header bytes [sigL sigH lenL lenH addrL addrH] of a block. *)
Definition header (len org0 : Z) : list Z :=
  writeHL_le ABS_SIG ++
  writeHL_le (len + HDR_LEN + CKSUM_LEN - CKSUM_LEN) ++
  writeHL_le org0.

(** The checksum computed by [write_abs] for a block. *)
Definition cksum_of (len org0 : Z) (d : list Z) : Z :=
  let lenb := writeHL_le (len + HDR_LEN + CKSUM_LEN - CKSUM_LEN) in
  let addrb := writeHL_le org0 in
  let c0 := u4 (ABS_SIG + nth 0 lenb 0 + nth 1 lenb 0
                + nth 0 addrb 0 + nth 1 addrb 0) in
  let c1 := add_data c0 d in
  Z.land (u4 (256 - Z.land c1 255)) 255.

Definition write_abs (type : abs_t) (s : state) : res state :=
  if match type with ABS_BLK => negb (have_blk s) | ABS_HALT => false end
  then Ok s
  else
    let s1 := match type with ABS_HALT => set_org 1 s | ABS_BLK => s end in
    let len := Z.of_nat (List.length (data s1)) in
    let tlen := len + HDR_LEN + CKSUM_LEN in
    let cksum := cksum_of len (org s1) (data s1) in
    (* *sp = cksum; *)
    if NBLK <=? len then Fault BlkOverrun
    else
      (* fwrite(&blk, 1, tlen, fwp) *)
      let image := header len (org s1) ++ data s1 ++ [u1 cksum] in
      let s2 := set_fwp (fwp s1 ++ [image]) s1 in
      Ok (set_org (pc s2) (set_data [] (set_have_blk false s2))).

(** ** Strings of the C library, as far as [main] uses them *)

Definition newline : ascii := ascii_of_nat 10.

(** [isspace] in the C locale: space, and the controls 9 to 13. *)
Definition isspace (c : ascii) : bool :=
  let n := nat_of_ascii c in
  Nat.eqb n 32 || (Nat.leb 9 n && Nat.leb n 13).

Fixpoint skip_space (s : string) : string :=
  match s with
  | String c r => if isspace c then skip_space r else s
  | EmptyString => s
  end.

(** One call [fgets(buf, n, frp)] on a stream that still has characters:
    at most [n - 1] characters, up to and including the first newline.
    The result is the buffer and the rest of the stream. *)
Fixpoint fgets (n : nat) (frp : string) : string * string :=
  match n with
  | S (S _ as n') =>
      match frp with
      | String c rest =>
          if Ascii.eqb c newline then (String c EmptyString, rest)
          else let (l, r) := fgets n' rest in (String c l, r)
      | EmptyString => (EmptyString, EmptyString)
      end
  | _ => (EmptyString, frp)
  end.

(** The C string held in a buffer: its characters before the first NUL. *)
Fixpoint cstr (b : string) : string :=
  match b with
  | String c r => if Ascii.eqb c Ascii.zero then EmptyString
                  else String c (cstr r)
  | EmptyString => EmptyString
  end.

(** [buf[strlen(buf)-1] = '\0'] on a non-empty C string. *)
Fixpoint chop (s : string) : string :=
  match s with
  | String c EmptyString => EmptyString
  | String c r => String c (chop r)
  | EmptyString => EmptyString
  end.

(** Matching the ordinary characters of a [sscanf] format. *)
Fixpoint lits (p s : string) : option string :=
  match p with
  | EmptyString => Some s
  | String a p' =>
      match s with
      | String b s' => if Ascii.eqb a b then lits p' s' else None
      | EmptyString => None
      end
  end.

(** The maximal run of non-space characters at the head of [s]. *)
Fixpoint word (s : string) : string * string :=
  match s with
  | String c r =>
      if isspace c then (EmptyString, s)
      else let (w, t) := word r in (String c w, t)
  | EmptyString => (EmptyString, s)
  end.

(** The conversion [%s]: skip white space, then a non-empty word. *)
Definition scan_s (s : string) : option (string * string) :=
  match skip_space s with
  | EmptyString => None
  | s1 => Some (word s1)
  end.

Definition octal_digit (c : ascii) : option Z :=
  let n := Z.of_nat (nat_of_ascii c) in
  if (48 <=? n) && (n <=? 55) then Some (n - 48) else None.

(** The maximal run of octal digits at the head of [s], as a number. *)
Fixpoint scan_digits (acc : Z) (s : string) : Z * string :=
  match s with
  | String c r =>
      match octal_digit c with
      | Some d => scan_digits (8 * acc + d) r
      | None => (acc, s)
      end
  | EmptyString => (acc, s)
  end.

(** [strtoul] in base 8 on a sign and a digit value, for a 64-bit
    [unsigned long]: saturating, negated in the unsigned type. *)
Definition strtoul8 (neg : bool) (v : Z) : Z :=
  if 2 ^ 64 <=? v then 2 ^ 64 - 1
  else if neg then (2 ^ 64 - v) mod 2 ^ 64 else v.

(** The conversion [%o] into a [u4_t]: skip white space, an optional sign,
    at least one octal digit; the [unsigned long] is cut to 32 bits. *)
Definition scan_o (s : string) : option (Z * string) :=
  let s1 := skip_space s in
  let '(neg, s2) :=
    match s1 with
    | String "-"%char r => (true, r)
    | String "+"%char r => (false, r)
    | _ => (false, s1)
    end in
  match s2 with
  | String c _ =>
      match octal_digit c with
      | Some _ => let (v, rest) := scan_digits 0 s2 in
                  Some (u4 (strtoul8 neg v), rest)
      | None => None
      end
  | EmptyString => None
  end.

(** [sscanf(bp, "<lit> %s", def_s) == 1], with the word stored. *)
Definition sscanf_s (lit bp : string) : option string :=
  match lits lit bp with
  | Some r => match scan_s (skip_space r) with
              | Some (w, _) => Some w
              | None => None
              end
  | None => None
  end.

(** [sscanf(bp, "<lit> %o", &v) == 1], with the value stored. *)
Definition sscanf_o (lit bp : string) : option Z :=
  match lits lit bp with
  | Some r => match scan_o (skip_space r) with
              | Some (v, _) => Some v
              | None => None
              end
  | None => None
  end.

(** [sscanf(bp, "%o %o %o", &w0, &w1, &w2)]: the values converted, in order;
    the call returns their number when one at least was converted. *)
Definition sscanf_ooo (bp : string) : list Z :=
  match scan_o bp with
  | None => []
  | Some (w0, r0) =>
      match scan_o (skip_space r0) with
      | None => [w0]
      | Some (w1, r1) =>
          match scan_o (skip_space r1) with
          | None => [w0; w1]
          | Some (w2, _) => [w0; w1; w2]
          end
      end
  end.

(** ** The blocks of the line loop of [main] *)

(** [int pcm2 = pc - 2]: a [u4_t] value converted to [int]. *)
Definition s4 (z : Z) : Z := if z <? 2 ^ 31 then z else z - 2 ^ 32.

(** [#else], source lines 181-188. *)
Definition do_else (s : state) : state :=
  if Z.land (inside_if s) (lvl s) =? 0 then error E_else s
  else set_ignore_input (Z.lxor (ignore_input s) (lvl s)) s.

(** [#endif], source lines 190-197. *)
Definition do_endif (s : state) : state :=
  let s1 := set_inside_if (Z.land (inside_if s) (not32 (lvl s))) s in
  let s2 := set_ignore_input (Z.land (ignore_input s1) (not32 (lvl s1))) s1 in
  let s3 := set_lvl (Z.shiftr (lvl s2) 1) s2 in
  error_if (lvl s3 =? 0) E_endif s3.

(** [#if 1] ([active = true]) and [#if 0], source lines 199-200. *)
Definition do_if (active : bool) (s : state) : state :=
  let s1 := set_lvl (u4 (Z.shiftl (lvl s) 1)) s in
  let s2 := set_inside_if (Z.lor (inside_if s1) (lvl s1)) s1 in
  if active
  then set_ignore_input (Z.land (ignore_input s2) (not32 (lvl s2))) s2
  else set_ignore_input (Z.lor (ignore_input s2) (lvl s2)) s2.

(** The search [for (i = 0; i < n_ifdefs; i++) if (strcmp(...) == 0) break;]
    ends with [i == n_ifdefs] exactly when this is [false]. *)
Definition defined (def_s : string) (s : state) : bool :=
  existsb (String.eqb def_s) (ifdefs s).

(** [#ifdef], source lines 202-213. *)
Definition do_ifdef (def_s : string) (s : state) : state :=
  let found := defined def_s s in
  let s1 := set_lvl (u4 (Z.shiftl (lvl s) 1)) s in
  let s2 := set_inside_if (Z.lor (inside_if s1) (lvl s1)) s1 in
  if negb found
  then set_ignore_input (Z.lor (ignore_input s2) (lvl s2)) s2
  else set_ignore_input (Z.land (ignore_input s2) (not32 (lvl s2))) s2.

(** [#define], source lines 217-222. *)
Definition do_define (def_s : string) (s : state) : res state :=
  if N_IFDEFS <=? Z.of_nat (List.length (ifdefs s)) then Fault IfdefsOverrun
  else Ok (set_ifdefs (ifdefs s ++ [def_s]) s).

(** [= norg], source lines 227-231. *)
Definition do_org (norg : Z) (s : state) : res state :=
  s1 <- write_abs ABS_BLK s ;;
  let s2 := error_if (65535 <? norg) E_range_norg s1 in
  Ok (set_pc norg (set_org norg s2)).

(** [:: chk], source lines 233-237. *)
Definition do_chk2 (chk : Z) (s : state) : res state :=
  let s1 := error_if (65535 <? chk) E_range_chk2 s in
  let s2 := error_if (negb (pc s1 =? chk)) E_consist2 s1 in
  write_abs ABS_BLK s2.

(** [: chk], source lines 239-244.  The comparison [pcm2 != chk] is made
    in [unsigned int]. *)
Definition do_chk1 (chk : Z) (s : state) : res state :=
  let s1 := error_if (65535 <? chk) E_range_chk1 s in
  let pcm2 := s4 (u4 (pc s1 - 2)) in
  let s2 := error_if (negb (u4 pcm2 =? chk)) E_consist1 s1 in
  write_abs ABS_BLK s2.

(** [b v], source lines 246-250. *)
Definition do_byte (b : Z) (s : state) : res state :=
  let s1 := error_if (255 <? b) E_range_b s in
  s2 <- put b s1 ;;
  Ok (set_have_blk true (set_pc (u4 (pc s2 + 1)) s2)).

(** [write_le(sp, w); pc += 2;] *)
Definition append_word (w : Z) (s : state) : res state :=
  s1 <- write_le w s ;;
  Ok (set_pc (u4 (pc s1 + 2)) s1).

(** The data-word line, source lines 252-264; [ws] is what
    [sscanf_ooo] converted. *)
Definition do_words (ws : list Z) (s : state) : res state :=
  let n := Z.of_nat (List.length ws) in
  let w0 := nth 0 ws 0 in
  let w1 := nth 1 ws 0 in
  let w2 := nth 2 ws 0 in
  if negb ((n =? 1) || (n =? 2) || (n =? 3)) then Ok (error E_syntax s)
  else
    let s1 := error_if (65535 <? w0) E_range_w0 s in
    let s2 := error_if ((2 <=? n) && (65535 <? w1)) E_range_w1 s1 in
    let s3 := error_if ((3 <=? n) && (65535 <? w2)) E_range_w2 s2 in
    let s4 := error_if (negb (Z.land (pc s3) 1 =? 0)) E_odd_pc s3 in
    s5 <- append_word w0 s4 ;;
    s6 <- (if 2 <=? n then append_word w1 s5 else Ok s5) ;;
    s7 <- (if 3 <=? n then append_word w2 s6 else Ok s6) ;;
    Ok (set_have_blk true s7).

(** The lines that pass [if (ignore_input) continue;], source lines
    217-265. *)
Definition do_active (bp : string) (s : state) : res state :=
  match sscanf_s "#define" bp with
  | Some def_s =>
      if DEF_S_LEN <=? Z.of_nat (String.length def_s) then Fault DefOverrun
      else do_define def_s s
  | None =>
      if prefix "#error" bp then Ok (error E_user s)
      else if prefix "#warning" bp then Ok (note s)
      else
        match sscanf_o "=" bp with
        | Some norg => do_org norg s
        | None =>
            match sscanf_o "::" bp with
            | Some chk => do_chk2 chk s
            | None =>
                match sscanf_o ":" bp with
                | Some chk => do_chk1 chk s
                | None =>
                    match sscanf_o "b" bp with
                    | Some b => do_byte b s
                    | None => do_words (sscanf_ooo bp) s
                    end
                end
            end
        end
  end.

(** One turn of [while (fgets(buf, NBUF, frp))], on the buffer [fgets]
    filled; source lines 172-265. *)
Definition do_line (buf : string) (s0 : state) : res state :=
  let s := set_lnum (lnum s0 + 1) s0 in
  match cstr buf with
  | EmptyString => Fault BufUnderrun
  | b =>
      let bp := skip_space (chop b) in
      if String.eqb bp "" || prefix "//" bp then Ok s
      else if String.eqb bp "#else" then Ok (do_else s)
      else if String.eqb bp "#endif" then Ok (do_endif s)
      else if String.eqb bp "#if 1" then Ok (do_if true s)
      else if String.eqb bp "#if 0" then Ok (do_if false s)
      else
        match sscanf_s "#ifdef" bp with
        | Some def_s =>
            if DEF_S_LEN <=? Z.of_nat (String.length def_s)
            then Fault DefOverrun
            else Ok (do_ifdef def_s s)
        | None =>
            if negb (ignore_input s =? 0) then Ok s
            else do_active bp s
        end
  end.

(** The line loop; each turn consumes at least one character of [frp]. *)
Fixpoint main_loop (fuel : nat) (frp : string) (s : state) : res state :=
  match frp with
  | EmptyString => Ok s
  | _ =>
      match fuel with
      | O => Fault Fuel
      | S fuel' =>
          let (buf, rest) := fgets NBUF frp in
          s1 <- do_line buf s ;;
          main_loop fuel' rest s1
      end
  end.

(** The state in which the line loop starts: the zeroed globals, the
    symbols of the [--def] arguments, and [lvl = 1]. *)
Definition init (defs : list string) : state :=
  mkState 0 0 false [] [] false [] 0 0 [] defs 1 0 0.

(** [write_abs(ABS_BLK); write_abs(ABS_HALT);], source lines 268-269. *)
Definition finish (s : state) : res state :=
  s1 <- write_abs ABS_BLK s ;;
  write_abs ABS_HALT s1.

(** [main] on the [--def] symbols and the contents of the input file. *)
Definition main (defs : list string) (input : string) : res state :=
  if N_IFDEFS <? Z.of_nat (List.length defs) then Fault IfdefsOverrun
  else
    s <- main_loop (String.length input) input (init defs) ;;
    finish s.

(** ** Reading the output, and building inputs *)

(** A 16-bit little-endian field, from its two bytes. *)
Definition le16 (b : list Z) : Z := nth 0 b 0 + 256 * nth 1 b 0.

(** The fields a loader reads from the image of one block. *)
Definition f_sig (img : list Z) : Z := le16 (firstn 2 img).
Definition f_len (img : list Z) : Z := le16 (firstn 2 (skipn 2 img)).
Definition f_addr (img : list Z) : Z := le16 (firstn 2 (skipn 4 img)).
Definition f_data (img : list Z) : list Z := removelast (skipn 6 img).
Definition f_cksum (img : list Z) : Z := last img 0.

Definition sum_bytes (l : list Z) : Z := fold_right Z.add 0 l.

Definition is_byte (b : Z) : Prop := 0 <= b < 256.

(** The two bytes [write_le] stores for a word. *)
Definition word_bytes (w : Z) : list Z :=
  [Z.land w 255; Z.land (Z.shiftr w 8) 255].

(** The image [write_abs] writes for a block of origin [org0] and data [d]. *)
Definition image (org0 : Z) (d : list Z) : list Z :=
  let len := Z.of_nat (List.length d) in
  header len org0 ++ d ++ [u1 (cksum_of len org0 d)].

(** The halt block. *)
Definition halt_image : list Z := [1; 0; 6; 0; 1; 0; 248].

(** An input file, from its lines; each line is ended by a newline. *)
Definition text (ls : list string) : string :=
  fold_right (fun l r => String.append l (String newline r)) EmptyString ls.

(** The line loop of [main] on a whole input. *)
Definition run_lines (defs : list string) (input : string) : res state :=
  main_loop (String.length input) input (init defs).

(** The number of logged errors of a class. *)
Definition count_errs (p : err_t -> bool) (s : state) : Z :=
  Z.of_nat (List.length (filter (fun x => p (snd x)) (elog s))).

(** The words of the data blocks of an output: the data bytes of every
    block that has some, read as little-endian words. *)
Fixpoint words_of (d : list Z) : list Z :=
  match d with
  | lo :: hi :: r => (lo + 256 * hi) :: words_of r
  | _ => []
  end.

Definition emitted_words (s : state) : list Z :=
  flat_map (fun img => words_of (f_data img)) (fwp s).

(** ** States of a run *)

(** States at the head of the line loop. *)
Inductive in_loop : state -> Prop :=
| loop_init (defs : list string) :
    Z.of_nat (List.length defs) <= N_IFDEFS -> in_loop (init defs)
| loop_line (buf : string) (s s' : state) :
    in_loop s -> do_line buf s = Ok s' -> in_loop s'.

(** All states between the operations of a run: those of the loop, the one
    after the final data flush, and the one after the halt block. *)
Inductive reachable : state -> Prop :=
| reach_loop (s : state) : in_loop s -> reachable s
| reach_flush (s s1 : state) :
    in_loop s -> write_abs ABS_BLK s = Ok s1 -> reachable s1
| reach_halt (s s1 s2 : state) :
    in_loop s -> write_abs ABS_BLK s = Ok s1 ->
    write_abs ABS_HALT s1 = Ok s2 -> reachable s2.

(** The operations the line classifier dispatches to, and the flush. *)
Inductive op : Type :=
| OpOrg (norg : Z)
| OpChk2 (chk : Z)
| OpChk1 (chk : Z)
| OpByte (b : Z)
| OpWords (ws : list Z)
| OpFlush (type : abs_t).

Definition run_op (o : op) (s : state) : res state :=
  match o with
  | OpOrg norg => do_org norg s
  | OpChk2 chk => do_chk2 chk s
  | OpChk1 chk => do_chk1 chk s
  | OpByte b => do_byte b s
  | OpWords ws => do_words ws s
  | OpFlush type => write_abs type s
  end.

(** The invariant of the pending block. *)
Definition blk_inv (s : state) : Prop :=
  (have_blk s = true <-> data s <> []) /\ (data s = [] -> org s = pc s).

(** ** Definitions used in the statements and proofs below *)

(** Whether [write_abs] goes on to write, and the origin it writes. *)
Definition emits (type : abs_t) (s : state) : bool :=
  match type with ABS_BLK => have_blk s | ABS_HALT => true end.

Definition org_of (type : abs_t) (s : state) : Z :=
  match type with ABS_BLK => org s | ABS_HALT => 1 end.

(** The state [write_abs] leaves after writing. *)
Definition flushed (type : abs_t) (s : state) : state :=
  mkState (lnum s) (errs s) (rm s) (elog s) (notes s) false [] (pc s) (pc s)
          (fwp s ++ [image (org_of type s) (data s)]) (ifdefs s) (lvl s)
          (inside_if s) (ignore_input s).

Definition same_blk (s s' : state) : Prop :=
  have_blk s' = have_blk s /\ data s' = data s /\ org s' = org s /\
  pc s' = pc s /\ fwp s' = fwp s.

(** The state after [write_le(sp, w); pc += 2;]. *)
Definition appended (w : Z) (s : state) : state :=
  set_pc (u4 (pc s + 2)) (set_data (data s ++ word_bytes w) s).

(** The state after the range and parity checks of a data-word line. *)
Definition words_checked (ws : list Z) (s : state) : state :=
  let n := Z.of_nat (List.length ws) in
  let s1 := error_if (65535 <? nth 0 ws 0) E_range_w0 s in
  let s2 := error_if ((2 <=? n) && (65535 <? nth 1 ws 0)) E_range_w1 s1 in
  let s3 := error_if ((3 <=? n) && (65535 <? nth 2 ws 0)) E_range_w2 s2 in
  error_if (negb (Z.land (pc s3) 1 =? 0)) E_odd_pc s3.

(** The state after a data-word line of one to three words. *)
Definition words_done (ws : list Z) (s : state) : state :=
  let c := words_checked ws s in
  set_have_blk true
    (set_pc (u4 (pc s + 2 * Z.of_nat (List.length ws)))
       (set_data (data s ++ flat_map word_bytes ws) c)).

(** The state in which a consistency check calls [write_abs]. *)
Definition chk2_checked (chk : Z) (s : state) : state :=
  error_if (negb (pc s =? chk)) E_consist2
    (error_if (65535 <? chk) E_range_chk2 s).

Definition chk1_checked (chk : Z) (s : state) : state :=
  error_if (negb (u4 (pc s - 2) =? chk)) E_consist1
    (error_if (65535 <? chk) E_range_chk1 s).

Definition is_u4 (v : Z) : Prop := 0 <= v < 2 ^ 32.

(** The operands of an operation are [u4_t] values. *)
Definition op_u4 (o : op) : Prop :=
  match o with
  | OpOrg v | OpChk2 v | OpChk1 v | OpByte v => is_u4 v
  | OpWords ws => Forall is_u4 ws
  | OpFlush _ => True
  end.

(** A result that is not the model's own fault [Fuel]. *)
Definition no_fuel {A : Type} (r : res A) : Prop :=
  match r with Fault Fuel => False | _ => True end.

(** The value of [pc] after an operation. *)
Definition pc_after (o : op) (s : state) : Z :=
  match o with
  | OpOrg norg => norg
  | OpChk2 _ | OpChk1 _ | OpFlush _ => pc s
  | OpByte _ => u4 (pc s + 1)
  | OpWords ws =>
      let n := Z.of_nat (List.length ws) in
      if (1 <=? n) && (n <=? 3) then u4 (pc s + 2 * n) else pc s
  end.

(** The errors a data-word line reports, in order. *)
Definition word_errors (ws : list Z) (pc0 : Z) : list err_t :=
  let n := Z.of_nat (List.length ws) in
  (if 65535 <? nth 0 ws 0 then [E_range_w0] else []) ++
  (if (2 <=? n) && (65535 <? nth 1 ws 0) then [E_range_w1] else []) ++
  (if (3 <=? n) && (65535 <? nth 2 ws 0) then [E_range_w2] else []) ++
  (if negb (Z.land pc0 1 =? 0) then [E_odd_pc] else []).

(** A run that ends in a state with the property [P]. *)
Definition holds (r : res state) (P : state -> Prop) : Prop :=
  match r with
  | Ok s => P s
  | Fault _ => False
  end.

(** The lines that get past the tests of [do_line]: not blank, not a
    comment, not a conditional directive. *)
Definition is_plain (bp : string) : bool :=
  negb (String.eqb bp "" || prefix "//" bp) &&
  negb (String.eqb bp "#else") && negb (String.eqb bp "#endif") &&
  negb (String.eqb bp "#if 1") && negb (String.eqb bp "#if 0") &&
  match sscanf_s "#ifdef" bp with Some _ => false | None => true end.

(** The operation [do_active] runs on a line, when it runs one: the tests
    of [do_active], in its order. *)
Definition line_op (bp : string) : option op :=
  match sscanf_s "#define" bp with
  | Some _ => None
  | None =>
      if prefix "#error" bp then None
      else if prefix "#warning" bp then None
      else
        match sscanf_o "=" bp with
        | Some norg => Some (OpOrg norg)
        | None =>
            match sscanf_o "::" bp with
            | Some chk => Some (OpChk2 chk)
            | None =>
                match sscanf_o ":" bp with
                | Some chk => Some (OpChk1 chk)
                | None =>
                    match sscanf_o "b" bp with
                    | Some b => Some (OpByte b)
                    | None => Some (OpWords (sscanf_ooo bp))
                    end
                end
            end
        end
  end.

(** The buffer [fgets] fills for the line [l] of the input. *)
Definition line (l : string) : string :=
  String.append l (String newline EmptyString).

(** The line in the buffer [buf] is read as the operation [o]. *)
Definition reads_as (buf : string) (o : op) : Prop :=
  cstr buf <> "" /\
  is_plain (skip_space (chop (cstr buf))) = true /\
  line_op (skip_space (chop (cstr buf))) = Some o.

(** The line in the buffer [buf] is read as [#ifdef sym], and [sym] fits
    [def_s]. *)
Definition reads_ifdef (buf sym : string) : Prop :=
  cstr buf <> "" /\
  sscanf_s "#ifdef" (skip_space (chop (cstr buf))) = Some sym /\
  Z.of_nat (String.length sym) < DEF_S_LEN.

(** An octal numeral, from its digits, most significant first. *)
Definition octal_char (d : Z) : ascii := ascii_of_nat (48 + Z.to_nat d).

Definition octal_string (ds : list Z) : string :=
  fold_right (fun d r => String (octal_char d) r) EmptyString ds.

Definition octal_value (ds : list Z) : Z :=
  fold_left (fun a d => 8 * a + d) ds 0.

Definition is_octal (d : Z) : Prop := 0 <= d <= 7.

(** The directives that take one octal operand. *)
Inductive directive : Type := DOrg | DChk2 | DChk1 | DByte.

Definition marker (d : directive) : string :=
  match d with
  | DOrg => "= " | DChk2 => ":: " | DChk1 => ": " | DByte => "b "
  end.

Definition op_of (d : directive) (v : Z) : op :=
  match d with
  | DOrg => OpOrg v | DChk2 => OpChk2 v | DChk1 => OpChk1 v
  | DByte => OpByte v
  end.

(** The six octal digits of a value below 8^6, as the listing prints
    them. *)
Definition octal6 (v : Z) : list Z :=
  [v / 32768 mod 8; v / 4096 mod 8; v / 512 mod 8; v / 64 mod 8;
   v / 8 mod 8; v mod 8].

(** The state after [n] lines [0] from the start. *)
Definition zeros (n : nat) : state :=
  mkState (Z.of_nat n) 0 false [] []
          (negb (Nat.eqb n 0)) (flat_map word_bytes (repeat 0 n)) 0
          (2 * Z.of_nat n) [] [] 1 0 0.

(** The states after [= 177776] and after the word line that follows. *)
Definition st_177776 : state :=
  mkState 1 0 false [] [] false [] 65534 65534 [] [] 1 0 0.
Definition st_200000 : state :=
  mkState 2 0 false [] [] true [1; 0] 65534 65536 [] [] 1 0 0.

(** The value [: V] is compared with: [pc - 2] in [u4_t] arithmetic. *)
Definition pc_minus_2 (s : state) : Z := (pc s - 2) mod 2 ^ 32.

(** A run of 32765 lines [0]: 65530 bytes are pending, and no error has
    been reported. *)
Definition st_full : state := zeros (Z.to_nat 32765).

(** The state after [= 177776], [000001], [: 177776], [000002]. *)
Definition st_high : state :=
  mkState 4 0 false [] [] true [2; 0] 65536 65538
          [[1; 0; 8; 0; 254; 255; 1; 0; 249]] [] 1 0 0.

(** The states after [= 37777777776] and after [= 37777777777]: the
    operand is out of range, which is reported, and [pc] is set to it. *)
Definition st_top_even : state :=
  mkState 1 1 true [(1, E_range_norg)] [] false [] 4294967294 4294967294
          [] [] 1 0 0.
Definition st_top_odd : state :=
  mkState 1 1 true [(1, E_range_norg)] [] false [] 4294967295 4294967295
          [] [] 1 0 0.

(** The state after [= 1000], [012345]: one word is pending. *)
Definition st_1000w : state :=
  mkState 2 0 false [] [] true [229; 20] 512 514 [] [] 1 0 0.

(** * Definitions for the further properties *)

(** ** Lines of an input *)

Fixpoint all_chars (p : ascii -> bool) (s : string) : bool :=
  match s with
  | String c r => p c && all_chars p r
  | EmptyString => true
  end.

(** A character that is neither NUL nor a newline. *)
Definition text_char (c : ascii) : bool :=
  negb (Ascii.eqb c Ascii.zero) && negb (Ascii.eqb c newline).

(** A line [fgets] reads whole into [buf], with its newline: at most
    [NBUF - 2] characters. *)
Definition fits (l : string) : bool :=
  all_chars text_char l && Nat.ltb (String.length l) (NBUF - 1).

(** The line loop on the buffers [fgets] fills, one after the other. *)
Fixpoint do_lines (bufs : list string) (s : state) : res state :=
  match bufs with
  | [] => Ok s
  | b :: r => s1 <- do_line b s ;; do_lines r s1
  end.

(** The line loop on what is left of the input. *)
Definition run_from (frp : string) (s : state) : res state :=
  main_loop (String.length frp) frp s.

(** What one turn of the line loop does to the state, once [lnum] is
    counted: the branches of [do_line], by what they run. *)
Inductive line_step (s : state) : state -> Prop :=
| step_skip : line_step s s
| step_else : line_step s (do_else s)
| step_endif : line_step s (do_endif s)
| step_if (active : bool) : line_step s (do_if active s)
| step_ifdef (def_s : string) :
    Z.of_nat (String.length def_s) < DEF_S_LEN ->
    line_step s (do_ifdef def_s s)
| step_define (def_s : string) (s' : state) :
    ignore_input s = 0 ->
    Z.of_nat (String.length def_s) < DEF_S_LEN ->
    do_define def_s s = Ok s' -> line_step s s'
| step_error : ignore_input s = 0 -> line_step s (error E_user s)
| step_note : ignore_input s = 0 -> line_step s (note s)
| step_op (o : op) (s' : state) :
    ignore_input s = 0 -> op_u4 o ->
    (forall type, o <> OpFlush type) ->
    run_op o s = Ok s' -> line_step s s'.

(** The errors [l] are reported between [s] and [s'], all on the line
    [lnum s], and nothing else changes in the counters of [error]. *)
Definition logs (l : list err_t) (s s' : state) : Prop :=
  elog s' = elog s ++ map (pair (lnum s)) l /\
  errs s' = errs s + Z.of_nat (List.length l) /\
  lnum s' = lnum s /\
  rm s' = (rm s || negb (Nat.eqb (List.length l) 0)).

(** The invariant of the error log. *)
Definition log_inv (s : state) : Prop :=
  0 <= lnum s /\
  errs s = Z.of_nat (List.length (elog s)) /\
  (rm s = true <-> elog s <> []) /\
  Forall (fun x => 1 <= fst x <= lnum s) (elog s) /\
  Forall (fun n => 1 <= n <= lnum s) (notes s) /\
  Sorted Z.le (map fst (elog s)).

(** What no operation on the block changes. *)
Definition same_env (s s' : state) : Prop :=
  notes s' = notes s /\ ifdefs s' = ifdefs s /\ lvl s' = lvl s /\
  inside_if s' = inside_if s /\ ignore_input s' = ignore_input s.

(** The pending block starts at [org] and ends just below [pc]. *)
Definition addr_inv (s : state) : Prop :=
  is_u4 (org s) /\
  pc s = u4 (org s + Z.of_nat (List.length (data s))).

(** A block as a loader checks it: bytes, a header, a length field that
    counts all bytes but the checksum, and a sum that is 0 modulo 256. *)
Definition well_formed (img : list Z) : Prop :=
  Forall is_byte img /\
  7 <= Z.of_nat (List.length img) <= NBLK + 6 /\
  f_sig img = 1 /\
  f_len img = (Z.of_nat (List.length img) - 1) mod 2 ^ 16 /\
  sum_bytes img mod 256 = 0.

Definition bytes_inv (s : state) : Prop :=
  Forall is_byte (data s) /\ Forall well_formed (fwp s).

(** The conditional words while [lvl] is not 0: [lvl] is the bit of the
    innermost open frame, [inside_if] has the bits of all open frames, and
    [ignore_input] has bits of open frames only. *)
Definition cond_inv (s : state) : Prop :=
  is_u4 (lvl s) /\ is_u4 (inside_if s) /\ is_u4 (ignore_input s) /\
  (lvl s <> 0 ->
   exists k : Z,
     0 <= k <= 31 /\ lvl s = 2 ^ k /\
     inside_if s = 2 * lvl s - 2 /\
     ignore_input s < 2 * lvl s /\
     Z.even (ignore_input s) = true).

(** The text [do_line] looks at in a buffer: the C string it holds, less
    its last character and its leading white space. *)
Definition bp_of (buf : string) : string := skip_space (chop (cstr buf)).

(** The lines [do_line] takes as conditional directives. *)
Definition is_cond (bp : string) : bool :=
  String.eqb bp "#else" || String.eqb bp "#endif" ||
  String.eqb bp "#if 1" || String.eqb bp "#if 0" ||
  match sscanf_s "#ifdef" bp with Some _ => true | None => false end.

(** A buffer that holds a non-empty C string and no conditional
    directive. *)
Definition ordinary (buf : string) : bool :=
  negb (String.eqb (cstr buf) "") && negb (is_cond (bp_of buf)).

(** A symbol as [%s] reads it: characters that are neither white space,
    NUL nor newline, and at least one. *)
Definition sym_char (c : ascii) : bool := negb (isspace c) && text_char c.

Definition is_word (w : string) : bool :=
  negb (String.eqb w "") && all_chars sym_char w.

(** A result that is a value, or one of the faults [l]. *)
Definition faults_in {A : Type} (l : list fault) (r : res A) : Prop :=
  match r with
  | Ok _ => True
  | Fault f => In f l
  end.

(** A character that is not NUL. *)
Definition not_nul (c : ascii) : bool := negb (Ascii.eqb c Ascii.zero).

(** A character with which no directive, comment or number starts. *)
Definition stray_char (c : ascii) : bool :=
  sym_char c &&
  negb (existsb (Ascii.eqb c) ["#"; "/"; "="; ":"; "b"; "+"; "-"]%char) &&
  match octal_digit c with Some _ => false | None => true end.

(** The value [%o] stores for a numeral. *)
Definition scanned (ds : list Z) : Z := u4 (strtoul8 false (octal_value ds)).

(** ** Listings *)

(** A listing of sections: each an origin line [= aaaaaa] followed by its
    words, one six-digit word per line. *)
Definition word_line (w : Z) : string := octal_string (octal6 w).

Definition org_line (a : Z) : string :=
  String.append "= " (octal_string (octal6 a)).

Definition section_lines (sec : Z * list Z) : list string :=
  org_line (fst sec) :: map word_line (snd sec).

Definition listing (secs : list (Z * list Z)) : list string :=
  flat_map section_lines secs.

(** The block of a section: none when the section has no word. *)
Definition section_blocks (sec : Z * list Z) : list (list Z) :=
  match snd sec with
  | [] => []
  | ws => [image (fst sec) (flat_map word_bytes ws)]
  end.

(** A section the program takes without an error: an even origin and
    words of 16 bits, fewer than fill [blk.data]. *)
Definition section_ok (sec : Z * list Z) : Prop :=
  0 <= fst sec <= 65535 /\ Z.even (fst sec) = true /\
  Forall (fun w => 0 <= w <= 65535) (snd sec) /\
  2 * Z.of_nat (List.length (snd sec)) < NBLK.

(** No error so far, and input not ignored. *)
Definition quiet (s : state) : Prop :=
  ignore_input s = 0 /\ elog s = [] /\ errs s = 0 /\ rm s = false.

(** The blocks written, and the pending one. *)
Definition out (s : state) : list (list Z) :=
  fwp s ++ (if have_blk s then [image (org s) (data s)] else []).

(** ** The command line and the files *)

(** The globals the arguments set. *)
Record args : Type := mkArgs {
  help : bool;                 (* bool help *)
  fn_in : option string;       (* char *fn_in; None is the null pointer *)
  fn_out : option string;      (* char *fn_out *)
  list_flag : bool;            (* bool list *)
  def_syms : list string       (* ifdefs[0 .. n_ifdefs) *)
}.

(** The globals before the arguments are read. *)
Definition args0 : args := mkArgs false None None false [].

(** How the loop over [argv] ends. *)
Inductive parsed : Type :=
| Parsed (a : args)          (* argv[ai] is the null pointer *)
| Unknown (x : string)       (* "unknown option: %s"; return -1 *)
| ArgvOverrun                (* argv is read beyond argv[argc] *)
| TableOverrun.              (* ifdefs[N_IFDEFS] is stored *)

(** [for (int ai = 1; argv[ai]; ai++)], on [argv[ai ..]]; source lines
    143-156.  [ARGP] takes the next argument; when there is none it is the
    null pointer [argv[argc]], and the [ai++] of the loop then steps
    beyond the array. *)
Fixpoint parse_args (av : list string) (a : args) : parsed :=
  match av with
  | [] => Parsed a
  | x :: r =>
      if String.eqb x "--h" || String.eqb x "--help"
      then parse_args r (mkArgs true (fn_in a) (fn_out a) (list_flag a)
                                (def_syms a))
      else if String.eqb x "--in" then
        match r with
        | v :: r' => parse_args r' (mkArgs (help a) (Some v) (fn_out a)
                                           (list_flag a) (def_syms a))
        | [] => ArgvOverrun
        end
      else if String.eqb x "--out" then
        match r with
        | v :: r' => parse_args r' (mkArgs (help a) (fn_in a) (Some v)
                                           (list_flag a) (def_syms a))
        | [] => ArgvOverrun
        end
      else if String.eqb x "--list"
      then parse_args r (mkArgs (help a) (fn_in a) (fn_out a) true
                                (def_syms a))
      else if String.eqb x "--def" then
        if N_IFDEFS <=? Z.of_nat (List.length (def_syms a)) then TableOverrun
        else
          match r with
          | v :: r' => parse_args r' (mkArgs (help a) (fn_in a) (fn_out a)
                                             (list_flag a)
                                             (def_syms a ++ [v]))
          | [] => ArgvOverrun
          end
      else Unknown x
  end.

(** How [main] ends. *)
Inductive ending : Type :=
| UnknownOption (x : string)          (* return -1, source line 155 *)
| Usage                               (* return -1, source line 160 *)
| NoInput (fn : string)               (* fopen R failed: return -1 *)
| NoOutput (fn : string)              (* fopen W failed: return -1 *)
| Finished (a : args) (s : state)     (* return 0 *)
| UndefinedArgv                       (* argv read beyond its end *)
| UndefinedTable                      (* ifdefs stored beyond its end *)
| UndefinedName                       (* fopen of a null pointer *)
| UndefinedRun (f : fault).           (* undefined behaviour in the loop *)

(** The value [main] returns. *)
Definition status (e : ending) : option Z :=
  match e with
  | UnknownOption _ | Usage | NoInput _ | NoOutput _ => Some (-1)
  | Finished _ _ => Some 0
  | _ => None
  end.

(** [main] from its arguments, [argv[0 .. argc)].  [fopen_r fn] is [None]
    when [fopen(fn, "r")] fails and else the characters the stream
    delivers; [fopen_w fn] tells whether [fopen(fn, "w")] succeeds. *)
Definition main_argv (argv : list string)
           (fopen_r : string -> option string) (fopen_w : string -> bool)
  : ending :=
  match argv with
  | [] => UndefinedArgv
  | _ :: av =>
      match parse_args av args0 with
      | Unknown x => UnknownOption x
      | ArgvOverrun => UndefinedArgv
      | TableOverrun => UndefinedTable
      | Parsed a =>
          if (Z.of_nat (List.length argv) <? 3) || help a then Usage
          else
            match fn_in a with
            | None => UndefinedName
            | Some fi =>
                match fopen_r fi with
                | None => NoInput fi
                | Some input =>
                    match fn_out a with
                    | None => UndefinedName
                    | Some fo =>
                        if fopen_w fo then
                          match main (def_syms a) input with
                          | Ok s => Finished a s
                          | Fault f => UndefinedRun f
                          end
                        else NoOutput fo
                    end
                end
            end
      end
  end.

(** A command line, option by option. *)
Inductive option_t : Type :=
| O_h | O_help | O_in (v : string) | O_out (v : string) | O_list
| O_def (v : string).

Definition option_args (o : option_t) : list string :=
  match o with
  | O_h => ["--h"]
  | O_help => ["--help"]
  | O_in v => ["--in"; v]
  | O_out v => ["--out"; v]
  | O_list => ["--list"]
  | O_def v => ["--def"; v]
  end.

(** What an option does to the globals. *)
Definition set_option (a : args) (o : option_t) : args :=
  match o with
  | O_h | O_help => mkArgs true (fn_in a) (fn_out a) (list_flag a) (def_syms a)
  | O_in v => mkArgs (help a) (Some v) (fn_out a) (list_flag a) (def_syms a)
  | O_out v => mkArgs (help a) (fn_in a) (Some v) (list_flag a) (def_syms a)
  | O_list => mkArgs (help a) (fn_in a) (fn_out a) true (def_syms a)
  | O_def v => mkArgs (help a) (fn_in a) (fn_out a) (list_flag a)
                      (def_syms a ++ [v])
  end.

Definition is_def (o : option_t) : bool :=
  match o with O_def _ => true | _ => false end.

(** The strings the loop takes as options. *)
Definition is_option (x : string) : bool :=
  existsb (String.eqb x) ["--h"; "--help"; "--in"; "--out"; "--list"; "--def"].

(** ** States that differ in line numbers only *)

Definition line_blind (s t : state) : Prop :=
  errs s = errs t /\ rm s = rm t /\
  map snd (elog s) = map snd (elog t) /\
  List.length (notes s) = List.length (notes t) /\
  have_blk s = have_blk t /\ data s = data t /\ org s = org t /\
  pc s = pc t /\ fwp s = fwp t /\ ifdefs s = ifdefs t /\
  lvl s = lvl t /\ inside_if s = inside_if t /\
  ignore_input s = ignore_input t.

(** Results that differ in line numbers only. *)
Definition blind_res (r r' : res state) : Prop :=
  match r, r' with
  | Ok s, Ok t => line_blind s t
  | Fault f, Fault g => f = g
  | _, _ => False
  end.

(** A buffer that holds a blank line or a comment. *)
Definition is_blank (buf : string) : bool :=
  negb (String.eqb (cstr buf) "") &&
  (String.eqb (bp_of buf) "" || prefix "//" (bp_of buf)).

(** The state a run ends in, when it ends. *)
Definition result_state (r : res state) : state :=
  match r with
  | Ok s => s
  | Fault _ => init []
  end.

(** [n] spaces. *)
Fixpoint spaces (n : nat) : string :=
  match n with
  | O => EmptyString
  | S n' => String " " (spaces n')
  end.

(** A white-space character other than the newline. *)
Definition blank_char (c : ascii) : bool := isspace c && text_char c.

(** The states after [= 1000] and after [= 1000], [#if 0]. *)
Definition st_1000 : state :=
  mkState 1 0 false [] [] false [] 512 512 [] [] 1 0 0.
Definition st_if0 : state :=
  mkState 2 0 false [] [] false [] 512 512 [] [] 2 2 2.

(** The buffers [fgets] fills in the turns of the line loop on the stream
    [frp], in order. *)
Fixpoint buffers (fuel : nat) (frp : string) : list string :=
  match frp with
  | EmptyString => []
  | _ =>
      match fuel with
      | O => []
      | S fuel' =>
          let (buf, rest) := fgets NBUF frp in
          buf :: buffers fuel' rest
      end
  end.

Definition bufs_of (input : string) : list string :=
  buffers (String.length input) input.

(** * Properties *)

(** ** Bytes and machine arithmetic *)

Lemma land_255 (w : Z) : Z.land w 255 = w mod 256.
Proof. change 255 with (Z.ones 8). now rewrite Z.land_ones by lia. Qed.

Lemma land_255_byte (w : Z) : is_byte (Z.land w 255).
Proof. rewrite land_255. unfold is_byte. apply Z.mod_pos_bound. lia. Qed.

Lemma u1_byte (w : Z) : is_byte (u1 w).
Proof. unfold is_byte, u1. apply Z.mod_pos_bound. lia. Qed.

Lemma u1_of_byte (b : Z) : is_byte b -> u1 b = b.
Proof. unfold is_byte, u1. intros H. apply Z.mod_small. lia. Qed.

Lemma u1_land_255 (w : Z) : u1 (Z.land w 255) = Z.land w 255.
Proof. apply u1_of_byte, land_255_byte. Qed.

Lemma u4_range (z : Z) : 0 <= u4 z < 2 ^ 32.
Proof. unfold u4. apply Z.mod_pos_bound. lia. Qed.

Lemma u4_small (z : Z) : 0 <= z < 2 ^ 32 -> u4 z = z.
Proof. unfold u4. intros H. now apply Z.mod_small. Qed.

Lemma u4_add_l (a b : Z) : u4 (u4 a + b) = u4 (a + b).
Proof. unfold u4. now rewrite Zplus_mod_idemp_l. Qed.

Lemma u4_mod_256 (z : Z) : u4 z mod 256 = z mod 256.
Proof.
  unfold u4. apply Z.mod_mod_divide. exists (2 ^ 24). reflexivity.
Qed.

Lemma u4_s4 (z : Z) : 0 <= z < 2 ^ 32 -> u4 (s4 z) = z.
Proof.
  intros H. unfold s4, u4. destruct (z <? 2 ^ 31) eqn:E.
  - apply Z.mod_small. lia.
  - replace (z - 2 ^ 32) with (z + (-1) * 2 ^ 32) by lia.
    rewrite Z.mod_add by lia. apply Z.mod_small. lia.
Qed.

(** The two bytes of a 16-bit field hold its value modulo 2^16. *)
Lemma le16_writeHL_le (w : Z) : le16 (writeHL_le w) = w mod 2 ^ 16.
Proof.
  unfold le16, writeHL_le. cbn [nth].
  rewrite !land_255, Z.shiftr_div_pow2 by lia.
  change (2 ^ 8) with 256. change (2 ^ 16) with (256 * 256).
  rewrite Z.rem_mul_r by lia. reflexivity.
Qed.

Lemma le16_word_bytes (w : Z) : le16 (word_bytes w) = w mod 2 ^ 16.
Proof. apply le16_writeHL_le. Qed.

Lemma le16_writeHL_le_small (w : Z) :
  0 <= w <= 65535 -> le16 (writeHL_le w) = w.
Proof. intros H. rewrite le16_writeHL_le. apply Z.mod_small. lia. Qed.

Lemma word_bytes_mod (w : Z) : word_bytes (w mod 2 ^ 16) = word_bytes w.
Proof.
  unfold word_bytes. rewrite !land_255, !Z.shiftr_div_pow2 by lia.
  change (2 ^ 8) with 256. change (2 ^ 16) with (256 * 256).
  f_equal.
  - apply Z.mod_mod_divide. exists 256. lia.
  - f_equal. rewrite Z.rem_mul_r by lia.
    rewrite (Z.add_comm (w mod 256)), (Z.mul_comm 256).
    rewrite Z.div_add_l by lia.
    rewrite (Z.div_small (w mod 256)) by (apply Z.mod_pos_bound; lia).
    rewrite Z.add_0_r. apply Z.mod_mod. lia.
Qed.

Lemma sum_bytes_app (a b : list Z) :
  sum_bytes (a ++ b) = sum_bytes a + sum_bytes b.
Proof.
  unfold sum_bytes. induction a as [|x a IH]; cbn [app fold_right]; lia.
Qed.

Lemma add_data_mod (d : list Z) (c : Z) :
  add_data c d mod 256 = (c + sum_bytes d) mod 256.
Proof.
  revert c. induction d as [|b d IH]; intros c; cbn [add_data fold_left].
  - cbn. now rewrite Z.add_0_r.
  - fold (add_data (u4 (c + b)) d). rewrite IH.
    cbn [sum_bytes fold_right]. fold (sum_bytes d).
    rewrite <- Zplus_mod_idemp_l, u4_mod_256, Zplus_mod_idemp_l.
    f_equal. lia.
Qed.

(** ** The block emitter *)

Lemma write_abs_idle (s : state) :
  have_blk s = false -> write_abs ABS_BLK s = Ok s.
Proof. intros H. unfold write_abs. now rewrite H. Qed.

Lemma write_abs_emit (type : abs_t) (s : state) :
  emits type s = true ->
  Z.of_nat (List.length (data s)) < NBLK ->
  write_abs type s = Ok (flushed type s).
Proof.
  intros He Hl. unfold write_abs.
  destruct type; cbn [emits] in He.
  - rewrite He. cbn [negb].
    destruct (Z.leb_spec NBLK (Z.of_nat (List.length (data s)))); [lia|].
    reflexivity.
  - cbn [set_org data org].
    destruct (Z.leb_spec NBLK (Z.of_nat (List.length (data s)))); [lia|].
    reflexivity.
Qed.

Lemma write_abs_overrun (type : abs_t) (s : state) :
  emits type s = true ->
  NBLK <= Z.of_nat (List.length (data s)) ->
  write_abs type s = Fault BlkOverrun.
Proof.
  intros He Hl. unfold write_abs.
  destruct type; cbn [emits] in He.
  - rewrite He. cbn [negb].
    destruct (Z.leb_spec NBLK (Z.of_nat (List.length (data s)))); [|lia].
    reflexivity.
  - cbn [set_org data org].
    destruct (Z.leb_spec NBLK (Z.of_nat (List.length (data s)))); [|lia].
    reflexivity.
Qed.

(** What [write_abs] does, in all cases. *)
Lemma write_abs_cases (type : abs_t) (s : state) :
  (emits type s = false /\ write_abs type s = Ok s) \/
  (emits type s = true /\ Z.of_nat (List.length (data s)) < NBLK /\
   write_abs type s = Ok (flushed type s)) \/
  (emits type s = true /\ NBLK <= Z.of_nat (List.length (data s)) /\
   write_abs type s = Fault BlkOverrun).
Proof.
  destruct (emits type s) eqn:He.
  - right. destruct (Z.lt_ge_cases (Z.of_nat (List.length (data s))) NBLK).
    + left. auto using write_abs_emit.
    + right. auto using write_abs_overrun.
  - left. split; [reflexivity|].
    destruct type; [|discriminate]. now apply write_abs_idle.
Qed.

Lemma image_shape (org0 : Z) (d : list Z) :
  image org0 d =
  writeHL_le 1 ++ writeHL_le (Z.of_nat (List.length d) + 6) ++
  writeHL_le org0 ++ d ++ [u1 (cksum_of (Z.of_nat (List.length d)) org0 d)].
Proof.
  unfold image, header, ABS_SIG, HDR_LEN, CKSUM_LEN.
  replace (Z.of_nat (List.length d) + 6 + 1 - 1)
    with (Z.of_nat (List.length d) + 6) by lia.
  now rewrite <- !app_assoc.
Qed.

Lemma image_length (org0 : Z) (d : list Z) :
  Z.of_nat (List.length (image org0 d)) = Z.of_nat (List.length d) + 7.
Proof.
  rewrite image_shape, !length_app. cbn [List.length writeHL_le]. lia.
Qed.

Lemma image_f_sig (org0 : Z) (d : list Z) : f_sig (image org0 d) = 1.
Proof. rewrite image_shape. reflexivity. Qed.

Lemma image_f_len (org0 : Z) (d : list Z) :
  f_len (image org0 d) = (Z.of_nat (List.length d) + 6) mod 2 ^ 16.
Proof.
  rewrite image_shape. unfold f_len.
  change (firstn 2 (skipn 2 (writeHL_le 1 ++ ?a ++ ?b)))
    with (firstn 2 (a ++ b)).
  cbn [skipn firstn writeHL_le app]. apply le16_writeHL_le.
Qed.

Lemma image_f_addr (org0 : Z) (d : list Z) :
  f_addr (image org0 d) = org0 mod 2 ^ 16.
Proof.
  rewrite image_shape. unfold f_addr.
  cbn [skipn firstn writeHL_le app]. apply le16_writeHL_le.
Qed.

Lemma image_f_data (org0 : Z) (d : list Z) : f_data (image org0 d) = d.
Proof.
  rewrite image_shape. unfold f_data.
  cbn [skipn writeHL_le app]. apply removelast_last.
Qed.

Lemma image_f_cksum (org0 : Z) (d : list Z) :
  is_byte (f_cksum (image org0 d)).
Proof.
  rewrite image_shape. unfold f_cksum.
  rewrite !app_assoc, last_last. apply u1_byte.
Qed.

(** The checksum byte makes the bytes of the image add up to a multiple
    of 256. *)
Lemma image_sum (org0 : Z) (d : list Z) :
  sum_bytes (image org0 d) mod 256 = 0.
Proof.
  unfold image. rewrite !sum_bytes_app.
  set (len := Z.of_nat (List.length d)).
  unfold cksum_of, header. rewrite !sum_bytes_app.
  set (lenb := writeHL_le (len + HDR_LEN + CKSUM_LEN - CKSUM_LEN)).
  set (addrb := writeHL_le org0).
  assert (Hh : sum_bytes (writeHL_le ABS_SIG) + (sum_bytes lenb + sum_bytes addrb)
               = ABS_SIG + nth 0 lenb 0 + nth 1 lenb 0
                 + nth 0 addrb 0 + nth 1 addrb 0).
  { unfold lenb, addrb, writeHL_le, sum_bytes, ABS_SIG. cbn [fold_right nth].
    change (Z.land 1 255) with 1. change (Z.land (Z.shiftr 1 8) 255) with 0. lia. }
  rewrite Hh. clear Hh.
  set (h := ABS_SIG + nth 0 lenb 0 + nth 1 lenb 0
            + nth 0 addrb 0 + nth 1 addrb 0) in *.
  assert (Hc : add_data (u4 h) d mod 256 = (h + sum_bytes d) mod 256).
  { rewrite add_data_mod.
    rewrite <- Zplus_mod_idemp_l, u4_mod_256, Zplus_mod_idemp_l.
    reflexivity. }
  rewrite u1_land_255, !land_255, u4_mod_256, Hc.
  unfold sum_bytes at 2. cbn [fold_right].
  replace (h + (sum_bytes d + ((256 - (h + sum_bytes d) mod 256) mod 256 + 0)))
    with (h + sum_bytes d + (256 - (h + sum_bytes d) mod 256) mod 256) by lia.
  generalize (h + sum_bytes d). intros t.
  Z.to_euclidean_division_equations. lia.
Qed.

Arguments u4 : simpl never.
Arguments u1 : simpl never.
Arguments not32 : simpl never.
Arguments word_bytes : simpl never.

(** Unfolding field updates down to the fields of the state. *)
Ltac fields :=
  cbn [set_lnum set_notes set_have_blk set_data set_org set_pc set_fwp
       set_ifdefs set_lvl set_inside_if set_ignore_input note
       lnum errs rm elog notes have_blk data org pc fwp ifdefs lvl
       inside_if ignore_input].

Lemma state_ext (a b : state) :
  lnum a = lnum b -> errs a = errs b -> rm a = rm b -> elog a = elog b ->
  notes a = notes b -> have_blk a = have_blk b -> data a = data b ->
  org a = org b -> pc a = pc b -> fwp a = fwp b -> ifdefs a = ifdefs b ->
  lvl a = lvl b -> inside_if a = inside_if b ->
  ignore_input a = ignore_input b -> a = b.
Proof. destruct a, b. cbn. intros. subst. reflexivity. Qed.

(** ** Frame: what leaves the pending block and the output alone *)

Lemma same_blk_refl (s : state) : same_blk s s.
Proof. repeat split. Qed.

Lemma same_blk_trans (a b c : state) :
  same_blk a b -> same_blk b c -> same_blk a c.
Proof. unfold same_blk. intuition congruence. Qed.

Lemma same_blk_error (e : err_t) (s : state) : same_blk s (error e s).
Proof. repeat split. Qed.

Lemma same_blk_error_if (c : bool) (e : err_t) (s : state) :
  same_blk s (error_if c e s).
Proof. destruct c; repeat split. Qed.

Lemma same_blk_cond (s : state) :
  same_blk s (do_else s) /\ same_blk s (do_endif s) /\
  (forall b, same_blk s (do_if b s)) /\
  (forall d, same_blk s (do_ifdef d s)).
Proof.
  repeat split; unfold do_else, do_endif, do_if, do_ifdef, error_if;
    cbn; repeat match goal with |- context [if ?c then _ else _] =>
                                  destruct c end; reflexivity.
Qed.

Lemma blk_inv_same (s s' : state) : same_blk s s' -> blk_inv s -> blk_inv s'.
Proof.
  unfold same_blk, blk_inv. intros (H1 & H2 & H3 & H4 & _) [Ha Hb].
  rewrite H1, H2, H3, H4. auto.
Qed.

(** ** Appending *)

Lemma put_ok (v : Z) (s : state) :
  Z.of_nat (List.length (data s)) < NBLK ->
  put v s = Ok (set_data (data s ++ [u1 v]) s).
Proof.
  intros H. unfold put.
  destruct (Z.leb_spec NBLK (Z.of_nat (List.length (data s)))); [lia|].
  reflexivity.
Qed.

Lemma put_inv (v : Z) (s s' : state) :
  put v s = Ok s' ->
  Z.of_nat (List.length (data s)) < NBLK /\
  s' = set_data (data s ++ [u1 v]) s.
Proof.
  unfold put.
  destruct (Z.leb_spec NBLK (Z.of_nat (List.length (data s)))) as [L|L];
    [discriminate|].
  intros E. inversion E. auto.
Qed.

Lemma append_word_ok (w : Z) (s : state) :
  Z.of_nat (List.length (data s)) + 2 <= NBLK ->
  append_word w s = Ok (appended w s).
Proof.
  intros H. unfold append_word, write_le.
  rewrite put_ok by lia. cbn [bind].
  rewrite put_ok by (cbn [set_data data]; rewrite length_app; cbn [List.length]; lia).
  cbn [bind set_data data]. unfold appended, word_bytes, set_pc, set_data.
  cbn. rewrite !u1_land_255, <- app_assoc. reflexivity.
Qed.

Lemma append_word_inv (w : Z) (s s' : state) :
  append_word w s = Ok s' ->
  Z.of_nat (List.length (data s)) + 2 <= NBLK /\ s' = appended w s.
Proof.
  intros H.
  destruct (Z.le_gt_cases (Z.of_nat (List.length (data s)) + 2) NBLK) as [L|L].
  - rewrite append_word_ok in H by assumption. inversion H. auto.
  - exfalso. unfold append_word, write_le, put in H.
    destruct (Z.leb_spec NBLK (Z.of_nat (List.length (data s)))) as [L1|L1];
      [discriminate|].
    cbn [bind set_data data] in H. rewrite length_app in H.
    cbn [List.length] in H.
    destruct (Z.leb_spec NBLK (Z.of_nat (List.length (data s) + 1)))
      as [L2|L2]; [discriminate|]. lia.
Qed.

Lemma same_blk_words_checked (ws : list Z) (s : state) :
  same_blk s (words_checked ws s).
Proof.
  unfold words_checked.
  repeat (eapply same_blk_trans; [|apply same_blk_error_if]).
  apply same_blk_refl.
Qed.

Lemma do_words_syntax (ws : list Z) (s : state) :
  (List.length ws = 0 \/ 3 < List.length ws)%nat ->
  do_words ws s = Ok (error E_syntax s).
Proof.
  intros H. unfold do_words.
  destruct ws as [|w0 [|w1 [|w2 [|w3 ws]]]]; cbn [List.length] in H; try lia.
  - reflexivity.
  - replace (negb _) with true; [reflexivity|].
    symmetry. apply negb_true_iff.
    cbn [List.length]. rewrite !orb_false_iff.
    repeat split; apply Z.eqb_neq; lia.
Qed.

Lemma appended_length (w : Z) (s : state) :
  Z.of_nat (List.length (data (appended w s))) =
  Z.of_nat (List.length (data s)) + 2.
Proof.
  unfold appended. cbn [data set_pc set_data]. rewrite length_app.
  unfold word_bytes. cbn [List.length]. lia.
Qed.

Lemma do_words_ok (ws : list Z) (s : state) :
  (1 <= List.length ws <= 3)%nat ->
  Z.of_nat (List.length (data s)) + 2 * Z.of_nat (List.length ws) <= NBLK ->
  do_words ws s = Ok (words_done ws s).
Proof.
  intros Hn Hr.
  pose proof (same_blk_words_checked ws s) as (_ & Hd & _ & Hp & _).
  unfold do_words, words_done. fold (words_checked ws s).
  destruct ws as [|w0 [|w1 [|w2 [|w3 ws]]]]; cbn [List.length] in *; try lia.
  - cbn. rewrite append_word_ok by (rewrite Hd; lia).
    cbn [bind]. f_equal. apply state_ext; unfold appended; fields;
      rewrite ?Hd, ?Hp, ?app_nil_r; reflexivity.
  - cbn. rewrite append_word_ok by (rewrite Hd; lia).
    cbn [bind]. rewrite append_word_ok
      by (rewrite appended_length, Hd; lia).
    cbn [bind]. f_equal. apply state_ext; unfold appended; fields;
      rewrite ?Hd, ?Hp, ?app_nil_r, <- ?app_assoc; try reflexivity.
    repeat (rewrite u4_add_l || rewrite <- Z.add_assoc). reflexivity.
  - cbn. rewrite append_word_ok by (rewrite Hd; lia).
    cbn [bind]. rewrite append_word_ok
      by (rewrite appended_length, Hd; lia).
    cbn [bind]. rewrite append_word_ok
      by (rewrite !appended_length, Hd; lia).
    cbn [bind]. f_equal. apply state_ext; unfold appended; fields;
      rewrite ?Hd, ?Hp, ?app_nil_r, <- ?app_assoc; try reflexivity.
    repeat (rewrite u4_add_l || rewrite <- Z.add_assoc). reflexivity.
Qed.

Lemma do_words_inv (ws : list Z) (s s' : state) :
  do_words ws s = Ok s' ->
  ((List.length ws = 0 \/ 3 < List.length ws)%nat /\ s' = error E_syntax s) \/
  ((1 <= List.length ws <= 3)%nat /\
   Z.of_nat (List.length (data s)) + 2 * Z.of_nat (List.length ws) <= NBLK /\
   s' = words_done ws s).
Proof.
  intros H.
  destruct (Nat.eq_dec (List.length ws) 0) as [E|E];
    [left; rewrite do_words_syntax in H by lia; inversion H; auto|].
  destruct (Nat.lt_ge_cases 3 (List.length ws)) as [L|L];
    [left; rewrite do_words_syntax in H by lia; inversion H; auto|].
  right. split; [lia|].
  destruct (Z.le_gt_cases
              (Z.of_nat (List.length (data s)) +
               2 * Z.of_nat (List.length ws)) NBLK) as [R|R].
  - rewrite do_words_ok in H by (assumption || lia). inversion H. auto.
  - exfalso.
    pose proof (same_blk_words_checked ws s) as (_ & Hd & _ & Hp & _).
    unfold do_words in H. fold (words_checked ws s) in H.
    destruct ws as [|w0 [|w1 [|w2 [|w3 ws]]]]; cbn [List.length] in *;
      try lia; cbn in H.
    + destruct (append_word w0 _) eqn:A0; [|discriminate].
      apply append_word_inv in A0. rewrite Hd in A0. lia.
    + destruct (append_word w0 _) eqn:A0; [|discriminate].
      apply append_word_inv in A0. destruct A0 as [R0 ->].
      cbn [bind] in H.
      destruct (append_word w1 _) eqn:A1; [|discriminate].
      apply append_word_inv in A1. rewrite appended_length, Hd in A1. lia.
    + destruct (append_word w0 _) eqn:A0; [|discriminate].
      apply append_word_inv in A0. destruct A0 as [R0 ->].
      cbn [bind] in H.
      destruct (append_word w1 _) eqn:A1; [|discriminate].
      apply append_word_inv in A1. destruct A1 as [R1 ->].
      cbn [bind] in H.
      destruct (append_word w2 _) eqn:A2; [|discriminate].
      apply append_word_inv in A2. rewrite !appended_length, Hd in A2. lia.
Qed.

(** ** The operations, one by one *)

Lemma do_byte_ok (b : Z) (s : state) :
  Z.of_nat (List.length (data s)) < NBLK ->
  do_byte b s =
  Ok (set_have_blk true
        (set_pc (u4 (pc s + 1))
           (set_data (data s ++ [u1 b]) (error_if (255 <? b) E_range_b s)))).
Proof.
  intros H. unfold do_byte.
  pose proof (same_blk_error_if (255 <? b) E_range_b s) as (_ & Hd & _ & Hp & _).
  rewrite put_ok by (rewrite Hd; lia). cbn [bind]. fields.
  rewrite Hd, Hp. reflexivity.
Qed.

Lemma do_byte_inv (b : Z) (s s' : state) :
  do_byte b s = Ok s' -> Z.of_nat (List.length (data s)) < NBLK.
Proof.
  unfold do_byte. intros H.
  pose proof (same_blk_error_if (255 <? b) E_range_b s) as (_ & Hd & _).
  destruct (put b _) eqn:P; [|discriminate].
  apply put_inv in P. rewrite Hd in P. tauto.
Qed.

Lemma do_chk2_eq (chk : Z) (s : state) :
  do_chk2 chk s = write_abs ABS_BLK (chk2_checked chk s).
Proof.
  unfold do_chk2, chk2_checked.
  pose proof (same_blk_error_if (65535 <? chk) E_range_chk2 s)
    as (_ & _ & _ & Hp & _).
  now rewrite Hp.
Qed.

Lemma do_chk1_eq (chk : Z) (s : state) :
  do_chk1 chk s = write_abs ABS_BLK (chk1_checked chk s).
Proof.
  unfold do_chk1, chk1_checked.
  pose proof (same_blk_error_if (65535 <? chk) E_range_chk1 s)
    as (_ & _ & _ & Hp & _).
  now rewrite Hp, u4_s4 by apply u4_range.
Qed.

Lemma same_blk_chk2_checked (chk : Z) (s : state) :
  same_blk s (chk2_checked chk s).
Proof.
  unfold chk2_checked.
  eapply same_blk_trans; apply same_blk_error_if.
Qed.

Lemma same_blk_chk1_checked (chk : Z) (s : state) :
  same_blk s (chk1_checked chk s).
Proof.
  unfold chk1_checked.
  eapply same_blk_trans; apply same_blk_error_if.
Qed.

(** What a successful [write_abs] leaves of the pending block. *)
Lemma write_abs_inv (type : abs_t) (s s' : state) :
  write_abs type s = Ok s' ->
  (emits type s = false /\ s' = s) \/
  (emits type s = true /\ Z.of_nat (List.length (data s)) < NBLK /\
   s' = flushed type s).
Proof.
  intros H.
  destruct (write_abs_cases type s) as [[He E]|[(He & L & E)|(He & L & E)]];
    rewrite E in H; inversion H; subst; [left|right]; auto.
Qed.

(** ** The pending-block invariant *)

Lemma blk_inv_idle (s : state) :
  have_blk s = false -> data s = [] -> org s = pc s -> blk_inv s.
Proof.
  intros Hb Hd Ho. split; [|auto]. rewrite Hb, Hd.
  split; [discriminate|congruence].
Qed.

Lemma blk_inv_init (defs : list string) : blk_inv (init defs).
Proof. now apply blk_inv_idle. Qed.

Lemma blk_inv_flushed (type : abs_t) (s : state) : blk_inv (flushed type s).
Proof. now apply blk_inv_idle. Qed.

Lemma blk_inv_write_abs (type : abs_t) (s s' : state) :
  blk_inv s -> write_abs type s = Ok s' -> blk_inv s'.
Proof.
  intros I H. apply write_abs_inv in H.
  destruct H as [[_ ->]|(_ & _ & ->)]; [assumption|apply blk_inv_flushed].
Qed.

Lemma blk_inv_nonempty (s : state) (d : list Z) (x : Z) :
  have_blk s = true -> data s = d ++ [x] -> blk_inv s.
Proof.
  intros Hb Hd. split.
  - split; [|auto]. intros _. rewrite Hd. now destruct d.
  - rewrite Hd. now destruct d.
Qed.

Lemma blk_inv_run_op (o : op) (s s' : state) :
  blk_inv s -> run_op o s = Ok s' -> blk_inv s'.
Proof.
  intros I H. destruct o as [norg|chk|chk|b|ws|type]; cbn [run_op] in H.
  - unfold do_org in H. destruct (write_abs ABS_BLK s) as [s1|] eqn:W;
      [|discriminate].
    cbn [bind] in H. inversion H. subst s'. clear H.
    apply blk_inv_write_abs in W; [|assumption].
    pose proof (same_blk_error_if (65535 <? norg) E_range_norg s1)
      as (Hb & Hd & _).
    destruct W as [Wa Wb]. split; fields; rewrite ?Hb, ?Hd; auto.
  - rewrite do_chk2_eq in H. eapply blk_inv_write_abs; [|exact H].
    eapply blk_inv_same; [apply same_blk_chk2_checked|assumption].
  - rewrite do_chk1_eq in H. eapply blk_inv_write_abs; [|exact H].
    eapply blk_inv_same; [apply same_blk_chk1_checked|assumption].
  - pose proof (do_byte_inv _ _ _ H) as L.
    rewrite do_byte_ok in H by assumption. inversion H.
    eapply blk_inv_nonempty with (d := data s) (x := u1 b); reflexivity.
  - apply do_words_inv in H. destruct H as [[_ ->]|(Hn & _ & ->)].
    + eapply blk_inv_same; [apply same_blk_error|assumption].
    + unfold words_done.
      destruct (exists_last (l := flat_map word_bytes ws)) as (d & x & E).
      { destruct ws as [|w ws]; cbn [List.length] in Hn; [lia|].
        unfold word_bytes. cbn. discriminate. }
      eapply blk_inv_nonempty with (d := data s ++ d) (x := x);
        [reflexivity|].
      fields. rewrite E. apply app_assoc.
  - eapply blk_inv_write_abs; eassumption.
Qed.

(** ** What one line does *)

Lemma scan_o_u4 (s r : string) (v : Z) : scan_o s = Some (v, r) -> is_u4 v.
Proof.
  unfold scan_o. destruct (skip_space s) as [|c t] eqn:E.
  - discriminate.
  - destruct (match String c t with
              | String "-"%char r0 => (true, r0)
              | String "+"%char r0 => (false, r0)
              | _ => (false, String c t)
              end) as [neg s2].
    destruct s2 as [|c2 t2]; [discriminate|].
    destruct (octal_digit c2); [|discriminate].
    destruct (scan_digits 0 (String c2 t2)) as [v0 rest].
    intros H. inversion H. apply u4_range.
Qed.

Lemma sscanf_o_u4 (lit bp : string) (v : Z) :
  sscanf_o lit bp = Some v -> is_u4 v.
Proof.
  unfold sscanf_o. destruct (lits lit bp); [|discriminate].
  destruct (scan_o _) as [[v0 r]|] eqn:E; [|discriminate].
  intros H. inversion H. subst. eapply scan_o_u4; eassumption.
Qed.

Lemma sscanf_ooo_u4 (bp : string) : Forall is_u4 (sscanf_ooo bp).
Proof.
  unfold sscanf_ooo.
  destruct (scan_o bp) as [[w0 r0]|] eqn:E0; [|constructor].
  apply scan_o_u4 in E0.
  destruct (scan_o (skip_space r0)) as [[w1 r1]|] eqn:E1;
    [|repeat (apply Forall_cons; [assumption|]); apply Forall_nil].
  apply scan_o_u4 in E1.
  destruct (scan_o (skip_space r1)) as [[w2 r2]|] eqn:E2;
    [|repeat (apply Forall_cons; [assumption|]); apply Forall_nil].
  apply scan_o_u4 in E2.
  repeat (apply Forall_cons; [assumption|]); apply Forall_nil.
Qed.

Lemma same_blk_set_lnum (v : Z) (s : state) : same_blk s (set_lnum v s).
Proof. repeat split. Qed.

Lemma same_blk_note (s : state) : same_blk s (note s).
Proof. repeat split. Qed.

Lemma same_blk_define (d : string) (s s' : state) :
  do_define d s = Ok s' -> same_blk s s'.
Proof.
  unfold do_define. destruct (N_IFDEFS <=? _); [discriminate|].
  intros H. inversion H. repeat split.
Qed.

(** A line that is processed either leaves the pending block and the output
    as they are, or runs one operation on them. *)
Lemma do_active_cases (bp : string) (s s' : state) :
  do_active bp s = Ok s' ->
  same_blk s s' \/
  exists o, op_u4 o /\ o <> OpFlush ABS_BLK /\ o <> OpFlush ABS_HALT /\
            run_op o s = Ok s'.
Proof.
  unfold do_active. intros H.
  destruct (sscanf_s "#define" bp) as [d|].
  { destruct (DEF_S_LEN <=? _); [discriminate|].
    left. eapply same_blk_define; eassumption. }
  destruct (prefix "#error" bp).
  { inversion H. left. apply same_blk_error. }
  destruct (prefix "#warning" bp).
  { inversion H. left. apply same_blk_note. }
  destruct (sscanf_o "=" bp) as [v|] eqn:E1.
  { right. exists (OpOrg v). apply sscanf_o_u4 in E1.
    split; [exact E1|]. repeat split; try discriminate; assumption. }
  destruct (sscanf_o "::" bp) as [v|] eqn:E2.
  { right. exists (OpChk2 v). apply sscanf_o_u4 in E2.
    split; [exact E2|]. repeat split; try discriminate; assumption. }
  destruct (sscanf_o ":" bp) as [v|] eqn:E3.
  { right. exists (OpChk1 v). apply sscanf_o_u4 in E3.
    split; [exact E3|]. repeat split; try discriminate; assumption. }
  destruct (sscanf_o "b" bp) as [v|] eqn:E4.
  { right. exists (OpByte v). apply sscanf_o_u4 in E4.
    split; [exact E4|]. repeat split; try discriminate; assumption. }
  right. exists (OpWords (sscanf_ooo bp)).
  split; [apply sscanf_ooo_u4|]. repeat split; try discriminate; assumption.
Qed.

(** Case analysis on the test at the head of [H]. *)
Ltac head_if H :=
  match type of H with
  | (if ?c then _ else _) = _ => destruct c eqn:?
  end.

Lemma do_line_cases (buf : string) (s s' : state) :
  do_line buf s = Ok s' ->
  same_blk s s' \/
  exists o s1, same_blk s s1 /\ op_u4 o /\ o <> OpFlush ABS_BLK /\
               o <> OpFlush ABS_HALT /\ run_op o s1 = Ok s'.
Proof.
  unfold do_line. intros H.
  set (s1 := set_lnum (lnum s + 1) s) in *.
  assert (S1 : same_blk s s1) by apply same_blk_set_lnum.
  destruct (same_blk_cond s1) as (C1 & C2 & C3 & C4).
  destruct (cstr buf) as [|c b]; [discriminate|].
  cbv beta iota zeta in H.
  head_if H; [inversion H; subst; now left|].
  do 4 (head_if H;
        [inversion H; left; eapply same_blk_trans; [exact S1|]; auto|]).
  destruct (sscanf_s "#ifdef" _) as [d|].
  { head_if H; [discriminate|].
    inversion H. left. eapply same_blk_trans; [exact S1|]. auto. }
  head_if H; [inversion H; subst; now left|].
  apply do_active_cases in H. destruct H as [H|(o & H)].
  - left. eapply same_blk_trans; [exact S1|exact H].
  - right. exists o, s1. tauto.
Qed.

(** ** Invariants of the line loop *)

Lemma in_loop_blk_inv (s : state) : in_loop s -> blk_inv s.
Proof.
  induction 1 as [defs Hd|buf s s' _ IH H].
  - apply blk_inv_init.
  - apply do_line_cases in H.
    destruct H as [H|(o & s1 & H1 & _ & _ & _ & H2)].
    + eapply blk_inv_same; eassumption.
    + eapply blk_inv_run_op; [|exact H2]. eapply blk_inv_same; eassumption.
Qed.

Lemma reachable_blk_inv (s : state) : reachable s -> blk_inv s.
Proof.
  destruct 1 as [s H|s s1 H W|s s1 s2 H W1 W2].
  - now apply in_loop_blk_inv.
  - eapply blk_inv_write_abs; [|exact W]. now apply in_loop_blk_inv.
  - eapply blk_inv_write_abs; [|exact W2].
    eapply blk_inv_write_abs; [|exact W1]. now apply in_loop_blk_inv.
Qed.

(** ** The line loop terminates *)

Lemma fgets_step (n : nat) (c : ascii) (t : string) :
  fgets (S (S n)) (String c t) =
  if Ascii.eqb c newline then (String c EmptyString, t)
  else let (l, r) := fgets (S n) t in (String c l, r).
Proof. reflexivity. Qed.

Lemma fgets_length (n : nat) (frp buf rest : string) :
  fgets n frp = (buf, rest) ->
  (String.length buf + String.length rest = String.length frp)%nat.
Proof.
  revert frp buf rest. induction n as [|n IH]; intros frp buf rest H.
  - inversion H. reflexivity.
  - destruct n as [|n]; [inversion H; reflexivity|].
    destruct frp as [|c t]; [inversion H; reflexivity|].
    rewrite fgets_step in H. destruct (Ascii.eqb c newline).
    + inversion H. reflexivity.
    + destruct (fgets (S n) t) as [l r] eqn:E. inversion H. subst.
      apply IH in E. cbn [String.length]. lia.
Qed.

Lemma fgets_progress (n : nat) (c : ascii) (t buf rest : string) :
  fgets (S (S n)) (String c t) = (buf, rest) ->
  (String.length rest < String.length (String c t))%nat.
Proof.
  intros H. pose proof (fgets_length _ _ _ _ H) as L.
  rewrite fgets_step in H. destruct (Ascii.eqb c newline).
  - inversion H. subst. cbn [String.length] in *. lia.
  - destruct (fgets (S n) t) as [l r]. inversion H. subst.
    cbn [String.length] in *. lia.
Qed.

Lemma no_fuel_bind {A B : Type} (r : res A) (k : A -> res B) :
  no_fuel r -> (forall a, no_fuel (k a)) -> no_fuel (bind r k).
Proof. destruct r as [a|f]; cbn; auto. Qed.

Ltac no_fuel_step :=
  match goal with
  | |- no_fuel (Ok _) => exact I
  | |- no_fuel (Fault _) => exact I
  | |- no_fuel (bind _ _) => apply no_fuel_bind; [|intros]
  | |- no_fuel (if ?c then _ else _) => destruct c
  | |- no_fuel (match ?x with _ => _ end) => destruct x
  | |- no_fuel _ => solve [auto]
  end.

Lemma no_fuel_put (v : Z) (s : state) : no_fuel (put v s).
Proof. unfold put. repeat no_fuel_step. Qed.

Lemma no_fuel_append_word (w : Z) (s : state) : no_fuel (append_word w s).
Proof.
  unfold append_word, write_le.
  repeat (no_fuel_step || apply no_fuel_put).
Qed.

Lemma no_fuel_write_abs (type : abs_t) (s : state) :
  no_fuel (write_abs type s).
Proof. unfold write_abs. repeat no_fuel_step. Qed.

Lemma no_fuel_do_words (ws : list Z) (s : state) : no_fuel (do_words ws s).
Proof.
  unfold do_words. cbv zeta.
  repeat (no_fuel_step || apply no_fuel_append_word).
Qed.

Lemma no_fuel_do_active (bp : string) (s : state) : no_fuel (do_active bp s).
Proof.
  unfold do_active, do_define, do_org, do_chk2, do_chk1, do_byte.
  cbv zeta.
  repeat (no_fuel_step || apply no_fuel_write_abs || apply no_fuel_put
          || apply no_fuel_do_words).
Qed.

Lemma no_fuel_do_line (buf : string) (s : state) : no_fuel (do_line buf s).
Proof.
  unfold do_line. cbv zeta.
  destruct (cstr buf); [exact I|]. cbv beta iota.
  repeat (no_fuel_step || apply no_fuel_do_active).
Qed.

Lemma main_loop_fuel (fuel : nat) (frp : string) (s : state) :
  (String.length frp <= fuel)%nat -> no_fuel (main_loop fuel frp s).
Proof.
  revert frp s. induction fuel as [|fuel IH]; intros frp s L.
  - destruct frp; [exact I|cbn [String.length] in L; lia].
  - destruct frp as [|c t]; [exact I|].
    cbn [main_loop]. unfold NBUF.
    destruct (fgets 256 (String c t)) as [buf rest] eqn:E.
    apply fgets_progress in E.
    apply no_fuel_bind; [apply no_fuel_do_line|].
    intros s1. apply IH. lia.
Qed.

(** [main] never fails for lack of fuel: it returns a final state unless the
    C program has undefined behaviour on the input. *)
Lemma main_total (defs : list string) (input : string) :
  no_fuel (main defs input).
Proof.
  unfold main, finish. destruct (N_IFDEFS <? _); [exact I|].
  apply no_fuel_bind; [apply main_loop_fuel; lia|].
  intros s. apply no_fuel_bind; intros; apply no_fuel_write_abs.
Qed.

Lemma main_loop_in_loop (fuel : nat) (frp : string) (s s' : state) :
  in_loop s -> main_loop fuel frp s = Ok s' -> in_loop s'.
Proof.
  revert frp s. induction fuel as [|fuel IH]; intros frp s I H.
  - destruct frp; [inversion H; now subst|discriminate].
  - destruct frp as [|c t]; [inversion H; now subst|].
    cbn [main_loop] in H.
    destruct (fgets NBUF (String c t)) as [buf rest].
    destruct (do_line buf s) as [s1|] eqn:D; [|discriminate].
    cbn [bind] in H. eapply IH; [|exact H].
    eapply loop_line; eassumption.
Qed.

Lemma run_lines_in_loop (defs : list string) (input : string) (s : state) :
  Z.of_nat (List.length defs) <= N_IFDEFS ->
  run_lines defs input = Ok s -> in_loop s.
Proof.
  intros L H. eapply main_loop_in_loop; [|exact H]. now apply loop_init.
Qed.

(** [main], taken apart. *)
Lemma main_inv (defs : list string) (input : string) (s : state) :
  main defs input = Ok s ->
  exists s0 s1,
    Z.of_nat (List.length defs) <= N_IFDEFS /\
    run_lines defs input = Ok s0 /\ in_loop s0 /\
    write_abs ABS_BLK s0 = Ok s1 /\ write_abs ABS_HALT s1 = Ok s.
Proof.
  unfold main. destruct (Z.ltb_spec N_IFDEFS (Z.of_nat (List.length defs)))
    as [L|L]; [discriminate|].
  fold (run_lines defs input).
  destruct (run_lines defs input) as [s0|] eqn:R; [|discriminate].
  cbn [bind]. unfold finish.
  destruct (write_abs ABS_BLK s0) as [s1|] eqn:W; [|discriminate].
  cbn [bind]. intros H. exists s0, s1.
  repeat split; try assumption. eapply run_lines_in_loop; eassumption.
Qed.

Lemma main_reachable (defs : list string) (input : string) (s : state) :
  main defs input = Ok s -> reachable s.
Proof.
  intros H. apply main_inv in H.
  destruct H as (s0 & s1 & _ & _ & I & W1 & W2).
  eapply reach_halt; eassumption.
Qed.

(** ** The program counter *)

Lemma write_abs_pc (type : abs_t) (s s' : state) :
  write_abs type s = Ok s' -> pc s' = pc s.
Proof.
  intros H. apply write_abs_inv in H.
  destruct H as [[_ ->]|(_ & _ & ->)]; reflexivity.
Qed.

Lemma run_op_pc (o : op) (s s' : state) :
  run_op o s = Ok s' -> pc s' = pc_after o s.
Proof.
  intros H. destruct o as [norg|chk|chk|b|ws|type];
    cbn [run_op pc_after] in *.
  - unfold do_org in H. destruct (write_abs ABS_BLK s); [|discriminate].
    inversion H. reflexivity.
  - rewrite do_chk2_eq in H. apply write_abs_pc in H. rewrite H.
    apply same_blk_chk2_checked.
  - rewrite do_chk1_eq in H. apply write_abs_pc in H. rewrite H.
    apply same_blk_chk1_checked.
  - pose proof (do_byte_inv _ _ _ H) as L.
    rewrite do_byte_ok in H by assumption. inversion H. reflexivity.
  - apply do_words_inv in H. destruct H as [[Hn ->]|(Hn & _ & ->)].
    + replace (_ && _) with false; [reflexivity|].
      symmetry. apply andb_false_iff.
      destruct Hn; [left; apply Z.leb_gt|right; apply Z.leb_gt]; lia.
    + replace (_ && _) with true; [reflexivity|].
      symmetry. apply andb_true_iff. split; apply Z.leb_le; lia.
  - eapply write_abs_pc; eassumption.
Qed.

Lemma pc_after_u4 (o : op) (s : state) :
  op_u4 o -> is_u4 (pc s) -> is_u4 (pc_after o s).
Proof.
  intros Ho Hp. destruct o; cbn [pc_after op_u4] in *;
    try assumption; try apply u4_range.
  destruct (_ && _); [apply u4_range|assumption].
Qed.

Lemma in_loop_pc (s : state) : in_loop s -> is_u4 (pc s).
Proof.
  induction 1 as [defs Hd|buf s s' _ IH H].
  - unfold is_u4. cbn. lia.
  - apply do_line_cases in H.
    destruct H as [H|(o & s1 & H1 & Ho & _ & _ & H2)].
    + destruct H as (_ & _ & _ & -> & _). assumption.
    + apply run_op_pc in H2. rewrite H2. apply pc_after_u4; [assumption|].
      destruct H1 as (_ & _ & _ & -> & _). assumption.
Qed.

Lemma reachable_pc (s : state) : reachable s -> is_u4 (pc s).
Proof.
  destruct 1 as [s H|s s1 H W|s s1 s2 H W1 W2].
  - now apply in_loop_pc.
  - apply write_abs_pc in W. rewrite W. now apply in_loop_pc.
  - apply write_abs_pc in W1, W2. rewrite W2, W1. now apply in_loop_pc.
Qed.

(** ** The blocks written by the line loop *)

Lemma write_abs_fwp (s s' : state) :
  write_abs ABS_BLK s = Ok s' ->
  (have_blk s = false /\ s' = s) \/
  (have_blk s = true /\ Z.of_nat (List.length (data s)) < NBLK /\
   s' = flushed ABS_BLK s).
Proof. apply (write_abs_inv ABS_BLK). Qed.

Lemma run_op_fwp (o : op) (s s' : state) :
  o <> OpFlush ABS_HALT ->
  run_op o s = Ok s' ->
  fwp s' = fwp s \/
  (have_blk s = true /\ fwp s' = fwp s ++ [image (org s) (data s)]).
Proof.
  intros No H. destruct o as [norg|chk|chk|b|ws|type]; cbn [run_op] in H.
  - unfold do_org in H. destruct (write_abs ABS_BLK s) as [s1|] eqn:W;
      [|discriminate].
    inversion H. subst s'. clear H. fields.
    pose proof (same_blk_error_if (65535 <? norg) E_range_norg s1)
      as (_ & _ & _ & _ & ->).
    apply write_abs_fwp in W. destruct W as [[_ ->]|(Hb & _ & ->)]; auto.
  - rewrite do_chk2_eq in H. apply write_abs_fwp in H.
    destruct (same_blk_chk2_checked chk s) as (Eb & Ed & Eo & _ & Ef).
    destruct H as [[_ ->]|(Hb & _ & ->)]; [left; assumption|right].
    rewrite Eb in Hb. split; [assumption|].
    cbn [flushed fwp org_of]. now rewrite Ef, Eo, Ed.
  - rewrite do_chk1_eq in H. apply write_abs_fwp in H.
    destruct (same_blk_chk1_checked chk s) as (Eb & Ed & Eo & _ & Ef).
    destruct H as [[_ ->]|(Hb & _ & ->)]; [left; assumption|right].
    rewrite Eb in Hb. split; [assumption|].
    cbn [flushed fwp org_of]. now rewrite Ef, Eo, Ed.
  - pose proof (do_byte_inv _ _ _ H) as L.
    rewrite do_byte_ok in H by assumption. inversion H. left. fields.
    apply same_blk_error_if.
  - apply do_words_inv in H. destruct H as [[_ ->]|(_ & _ & ->)]; left.
    + reflexivity.
    + unfold words_done. fields. apply same_blk_words_checked.
  - destruct type; [|congruence].
    apply write_abs_fwp in H. destruct H as [[_ ->]|(Hb & _ & ->)]; auto.
Qed.

(** Every block the line loop writes carries data. *)
Lemma in_loop_fwp (s : state) :
  in_loop s -> Forall (fun img => f_data img <> []) (fwp s).
Proof.
  induction 1 as [defs Hd|buf s s' I IH H].
  - constructor.
  - apply do_line_cases in H.
    destruct H as [H|(o & s1 & H1 & _ & _ & No & H2)].
    + destruct H as (_ & _ & _ & _ & ->). assumption.
    + assert (B1 : blk_inv s1)
        by (eapply blk_inv_same; [exact H1|now apply in_loop_blk_inv]).
      destruct H1 as (_ & _ & _ & _ & Ef).
      apply run_op_fwp in H2; [|assumption].
      destruct H2 as [->|[Hb ->]]; rewrite Ef; [assumption|].
      apply Forall_app. split; [assumption|].
      constructor; [|constructor]. rewrite image_f_data. now apply B1.
Qed.

(** ** The error log *)

Lemma elog_error_if (c : bool) (e : err_t) (s : state) :
  elog (error_if c e s) = elog s ++ (if c then [(lnum s, e)] else []).
Proof. destruct c; cbn; [reflexivity|now rewrite app_nil_r]. Qed.

Lemma errs_error_if (c : bool) (e : err_t) (s : state) :
  errs (error_if c e s) = errs s + (if c then 1 else 0).
Proof. destruct c; cbn; lia. Qed.

Lemma lnum_error_if (c : bool) (e : err_t) (s : state) :
  lnum (error_if c e s) = lnum s.
Proof. now destruct c. Qed.

Lemma count_errs_app (p : err_t -> bool) (s s' : state)
      (l : list (Z * err_t)) :
  elog s' = elog s ++ l ->
  count_errs p s' =
  count_errs p s + Z.of_nat (List.length (filter (fun x => p (snd x)) l)).
Proof.
  intros E. unfold count_errs. rewrite E, filter_app, length_app. lia.
Qed.

Lemma write_abs_log (type : abs_t) (s s' : state) :
  write_abs type s = Ok s' ->
  elog s' = elog s /\ errs s' = errs s /\ lnum s' = lnum s.
Proof.
  intros H. apply write_abs_inv in H.
  destruct H as [[_ ->]|(_ & _ & ->)]; repeat split.
Qed.

Lemma words_checked_log (ws : list Z) (s : state) :
  elog (words_checked ws s) =
    elog s ++ map (pair (lnum s)) (word_errors ws (pc s)) /\
  errs (words_checked ws s) =
    errs s + Z.of_nat (List.length (word_errors ws (pc s))) /\
  lnum (words_checked ws s) = lnum s.
Proof.
  unfold words_checked, word_errors.
  set (c0 := 65535 <? nth 0 ws 0).
  set (c1 := (2 <=? Z.of_nat (List.length ws)) && (65535 <? nth 1 ws 0)).
  set (c2 := (3 <=? Z.of_nat (List.length ws)) && (65535 <? nth 2 ws 0)).
  set (s1 := error_if c0 E_range_w0 s).
  set (s2 := error_if c1 E_range_w1 s1).
  set (s3 := error_if c2 E_range_w2 s2).
  assert (P3 : pc s3 = pc s).
  { unfold s3, s2, s1.
    repeat match goal with
           | |- pc (error_if ?c ?e ?x) = _ =>
               destruct (same_blk_error_if c e x) as (_ & _ & _ & -> & _)
           end. reflexivity. }
  rewrite P3. set (c3 := negb (Z.land (pc s) 1 =? 0)).
  rewrite !elog_error_if, !errs_error_if, !lnum_error_if.
  unfold s3, s2, s1.
  rewrite !elog_error_if, !errs_error_if, !lnum_error_if.
  destruct c0, c1, c2, c3; cbn; rewrite <- ?app_assoc; cbn;
    repeat split; try reflexivity; lia.
Qed.

Lemma even_land (p : Z) : Z.even p = true <-> Z.land p 1 = 0.
Proof.
  change 1 with (Z.ones 1). rewrite Z.land_ones by lia.
  change (2 ^ 1) with 2. rewrite Zeven_bool_iff, Zeven_ex_iff.
  split.
  - intros [m ->]. rewrite Z.mul_comm. apply Z_mod_mult.
  - intros H. exists (p / 2). pose proof (Z.div_mod p 2). lia.
Qed.

Lemma word_errors_none (ws : list Z) (pc0 : Z) :
  (1 <= List.length ws <= 3)%nat ->
  Forall (fun w => 0 <= w <= 65535) ws ->
  Z.even pc0 = true ->
  word_errors ws pc0 = [].
Proof.
  intros Hn Hw He. apply even_land in He. unfold word_errors.
  rewrite He. cbn [Z.eqb negb].
  assert (R : forall i, (65535 <? nth i ws 0) = false).
  { intros i. apply Z.ltb_ge.
    destruct (nth_in_or_default i ws 0) as [I| ->]; [|lia].
    rewrite Forall_forall in Hw. apply Hw in I. lia. }
  rewrite !R, !andb_false_r. reflexivity.
Qed.

Lemma word_errors_some (ws : list Z) (pc0 : Z) :
  (1 <= List.length ws <= 3)%nat ->
  Exists (fun w => 65535 < w) ws \/ Z.odd pc0 = true ->
  exists e l, word_errors ws pc0 = e :: l /\
              Forall (fun x => is_range x = true \/ is_parity x = true)
                     (e :: l).
Proof.
  intros Hn H.
  assert (F : Forall (fun x => is_range x = true \/ is_parity x = true)
                     (word_errors ws pc0)).
  { unfold word_errors. rewrite !Forall_app.
    repeat split;
      match goal with |- Forall _ (if ?c then _ else _) => destruct c end;
      try apply Forall_nil; (apply Forall_cons; [cbn; auto|apply Forall_nil]). }
  destruct (word_errors ws pc0) as [|e l] eqn:E; [exfalso|eauto].
  unfold word_errors in E.
  repeat match type of E with
         | _ ++ _ = [] => apply app_eq_nil in E; destruct E as [? E]
         end.
  destruct H as [H|H].
  - destruct ws as [|w0 [|w1 [|w2 [|w3 ws]]]]; cbn [List.length] in Hn;
      try lia; cbn in *;
      repeat match goal with
             | X : Exists _ (_ :: _) |- _ => inversion X; subst; clear X
             | X : Exists _ [] |- _ => inversion X
             | X : 65535 < ?w |- _ =>
                 apply Z.ltb_lt in X; rewrite X in *; discriminate
             end.
  - rewrite <- Z.negb_even in H. apply negb_true_iff in H.
    destruct (Z.land pc0 1 =? 0) eqn:L; [|discriminate].
    apply Z.eqb_eq, even_land in L. congruence.
Qed.

Lemma words_done_facts (ws : list Z) (s : state) :
  data (words_done ws s) = data s ++ flat_map word_bytes ws /\
  pc (words_done ws s) = u4 (pc s + 2 * Z.of_nat (List.length ws)) /\
  have_blk (words_done ws s) = true /\
  org (words_done ws s) = org s /\
  fwp (words_done ws s) = fwp s /\
  elog (words_done ws s) =
    elog s ++ map (pair (lnum s)) (word_errors ws (pc s)) /\
  errs (words_done ws s) =
    errs s + Z.of_nat (List.length (word_errors ws (pc s))).
Proof.
  unfold words_done. fields.
  destruct (same_blk_words_checked ws s) as (_ & _ & Ho & _ & Ef).
  destruct (words_checked_log ws s) as (El & Ee & _).
  rewrite Ho, Ef, El, Ee. repeat split.
Qed.

(** ** The conditional stack *)

Lemma land_lor_same (x m : Z) : Z.land (Z.lor x m) m = m.
Proof.
  apply Z.bits_inj'. intros n Hn.
  rewrite Z.land_spec, Z.lor_spec.
  destruct (Z.testbit x n), (Z.testbit m n); reflexivity.
Qed.

Lemma land_not32_same (x m : Z) : Z.land (Z.land x (not32 m)) m = 0.
Proof.
  apply Z.bits_inj'. intros n Hn.
  rewrite !Z.land_spec, Z.bits_0. unfold not32, u4.
  rewrite Z.testbit_mod_pow2 by lia. rewrite Z.lnot_spec by assumption.
  destruct (Z.testbit x n), (Z.testbit m n), (n <? 32); reflexivity.
Qed.

Lemma shift_level (l : Z) :
  0 < l < 2 ^ 31 -> u4 (Z.shiftl l 1) = 2 * l.
Proof.
  intros H. rewrite Z.shiftl_mul_pow2 by lia. change (2 ^ 1) with 2.
  rewrite u4_small; lia.
Qed.

Lemma defined_In (sym : string) (s : state) :
  defined sym s = true <-> In sym (ifdefs s).
Proof.
  unfold defined. rewrite existsb_exists. split.
  - intros (x & I & E). apply String.eqb_eq in E. now subst.
  - intros I. exists sym. split; [assumption|apply String.eqb_refl].
Qed.

(** The fields [#ifdef] sets. *)
Lemma do_ifdef_fields (sym : string) (s : state) :
  lvl (do_ifdef sym s) = u4 (Z.shiftl (lvl s) 1) /\
  inside_if (do_ifdef sym s) = Z.lor (inside_if s) (u4 (Z.shiftl (lvl s) 1)) /\
  ignore_input (do_ifdef sym s) =
    (if defined sym s
     then Z.land (ignore_input s) (not32 (u4 (Z.shiftl (lvl s) 1)))
     else Z.lor (ignore_input s) (u4 (Z.shiftl (lvl s) 1))) /\
  ifdefs (do_ifdef sym s) = ifdefs s.
Proof.
  unfold do_ifdef. destruct (defined sym s); cbn [negb]; repeat split.
Qed.

(** While input is ignored, a line changes neither the pending block, nor
    the output, nor the symbols. *)
Lemma do_line_ignored (buf : string) (s s' : state) :
  ignore_input s <> 0 ->
  do_line buf s = Ok s' ->
  same_blk s s' /\ ifdefs s' = ifdefs s.
Proof.
  intros Hi H. unfold do_line in H.
  set (s1 := set_lnum (lnum s + 1) s) in *.
  assert (S1 : same_blk s s1) by apply same_blk_set_lnum.
  destruct (same_blk_cond s1) as (C1 & C2 & C3 & C4).
  destruct (cstr buf) as [|c b]; [discriminate|].
  cbv beta iota zeta in H.
  head_if H; [inversion H; subst; now split|].
  head_if H.
  { inversion H. split; [eapply same_blk_trans; [exact S1|]; auto|].
    unfold do_else. destruct (_ =? 0); reflexivity. }
  head_if H.
  { inversion H. split; [eapply same_blk_trans; [exact S1|]; auto|].
    unfold do_endif, error_if. destruct (_ =? 0); reflexivity. }
  do 2 (head_if H;
        [inversion H; split; [eapply same_blk_trans; [exact S1|]; auto|];
         reflexivity|]).
  destruct (sscanf_s "#ifdef" _) as [d|].
  { head_if H; [discriminate|].
    inversion H. split; [eapply same_blk_trans; [exact S1|]; auto|].
    destruct (do_ifdef_fields d s1) as (_ & _ & _ & ->). reflexivity. }
  replace (ignore_input s1 =? 0) with false in H
    by (symmetry; now apply Z.eqb_neq).
  inversion H. subst. now split.
Qed.

(** Once [lvl] is 0 it stays 0: no later directive opens a frame or
    suppresses input, and every later [#else] is reported as unmatched. *)
Lemma lvl_stuck_at_0 (s : state) :
  lvl s = 0 ->
  (forall b : bool,
      lvl (do_if b s) = 0 /\
      (ignore_input s = 0 -> ignore_input (do_if b s) = 0)) /\
  (forall d : string,
      lvl (do_ifdef d s) = 0 /\
      (ignore_input s = 0 -> ignore_input (do_ifdef d s) = 0)) /\
  lvl (do_endif s) = 0 /\
  do_else s = error E_else s.
Proof.
  intros L. repeat split.
  - unfold do_if. destruct b; fields; rewrite L; reflexivity.
  - intros I. unfold do_if. destruct b; fields; rewrite L, I; reflexivity.
  - unfold do_ifdef. destruct (negb _); fields; rewrite L; reflexivity.
  - intros I. unfold do_ifdef.
    destruct (negb _); fields; rewrite L, I; reflexivity.
  - unfold do_endif, error_if. fields. rewrite L.
    change (Z.shiftr 0 1 =? 0) with true. cbv iota. reflexivity.
  - unfold do_else. rewrite L, Z.land_0_r. reflexivity.
Qed.

(** What does hold of C6: an [#else] outside every frame is reported and
    leaves the conditional state as it is. *)
Lemma unmatched_else_no_effect (s : state) :
  Z.land (inside_if s) (lvl s) = 0 ->
  do_else s = error E_else s /\
  lvl (do_else s) = lvl s /\ inside_if (do_else s) = inside_if s /\
  ignore_input (do_else s) = ignore_input s /\
  errs (do_else s) = errs s + 1.
Proof. intros H. unfold do_else. rewrite H. repeat split. Qed.

(** ** Lines and their operations *)

Lemma do_active_op (bp : string) (s : state) (o : op) :
  line_op bp = Some o -> do_active bp s = run_op o s.
Proof.
  unfold line_op, do_active. intros H.
  destruct (sscanf_s "#define" bp); [discriminate|].
  destruct (prefix "#error" bp); [discriminate|].
  destruct (prefix "#warning" bp); [discriminate|].
  destruct (sscanf_o "=" bp); [inversion H; reflexivity|].
  destruct (sscanf_o "::" bp); [inversion H; reflexivity|].
  destruct (sscanf_o ":" bp); [inversion H; reflexivity|].
  destruct (sscanf_o "b" bp); inversion H; reflexivity.
Qed.

(** A line that is neither blank, comment nor conditional directive, read
    while no frame suppresses input, runs its operation. *)
Lemma do_line_op (buf : string) (s : state) (o : op) :
  cstr buf <> "" ->
  is_plain (skip_space (chop (cstr buf))) = true ->
  line_op (skip_space (chop (cstr buf))) = Some o ->
  ignore_input s = 0 ->
  do_line buf s = run_op o (set_lnum (lnum s + 1) s).
Proof.
  intros Hc Hd Ho Hi. unfold do_line.
  destruct (cstr buf) as [|c b] eqn:E; [congruence|].
  cbv beta iota zeta.
  set (bp := skip_space (chop (String c b))) in *.
  unfold is_plain in Hd.
  repeat match type of Hd with
         | _ && _ = true => apply andb_true_iff in Hd; destruct Hd as [Hd ?]
         end.
  repeat match goal with
         | X : negb _ = true |- _ => apply negb_true_iff in X; rewrite X
         end.
  destruct (sscanf_s "#ifdef" bp); [discriminate|].
  cbn [ignore_input set_lnum]. rewrite Hi. cbn [Z.eqb negb].
  now apply do_active_op.
Qed.

Lemma do_line_reads_as (buf : string) (o : op) (s : state) :
  reads_as buf o -> ignore_input s = 0 ->
  do_line buf s = run_op o (set_lnum (lnum s + 1) s).
Proof. intros (H1 & H2 & H3) Hi. now apply do_line_op. Qed.

Lemma lits_app (p s r : string) :
  lits p s = Some r -> s = String.append p r.
Proof.
  revert s. induction p as [|a p IH]; intros s H; cbn [lits] in H.
  - inversion H. reflexivity.
  - destruct s as [|b s]; [discriminate|].
    destruct (Ascii.eqb_spec a b) as [->|]; [|discriminate].
    cbn [String.append]. f_equal. now apply IH.
Qed.

Lemma do_line_reads_ifdef (buf sym : string) (s : state) :
  reads_ifdef buf sym ->
  do_line buf s = Ok (do_ifdef sym (set_lnum (lnum s + 1) s)).
Proof.
  intros (Hc & Hs & Hl). unfold do_line.
  destruct (cstr buf) as [|c b] eqn:E; [congruence|].
  cbv beta iota zeta.
  remember (skip_space (chop (String c b))) as bp eqn:Ebp. clear Ebp.
  rewrite Hs.
  destruct (Z.leb_spec DEF_S_LEN (Z.of_nat (String.length sym))); [lia|].
  unfold sscanf_s in Hs.
  destruct (lits "#ifdef" bp) as [r|] eqn:L; [|discriminate].
  apply lits_app in L. subst bp. reflexivity.
Qed.

Lemma flat_map_word_bytes_length (l : list Z) :
  Z.of_nat (List.length (flat_map word_bytes l)) =
  2 * Z.of_nat (List.length l).
Proof.
  induction l as [|w l IH]; [reflexivity|].
  cbn [flat_map]. rewrite length_app. unfold word_bytes at 1.
  cbn [List.length]. lia.
Qed.

Lemma zeros_data_length (n : nat) :
  Z.of_nat (List.length (data (zeros n))) = 2 * Z.of_nat n.
Proof.
  cbn [zeros data]. now rewrite flat_map_word_bytes_length, repeat_length.
Qed.

Lemma zeros_data_step (n : nat) :
  data (zeros n) ++ flat_map word_bytes [0] = data (zeros (S n)).
Proof.
  unfold zeros. cbn [data]. rewrite <- flat_map_app. f_equal.
  change [0] with (repeat 0 1). rewrite <- repeat_app. f_equal. lia.
Qed.

Lemma do_line_zeros (n : nat) :
  2 * Z.of_nat n + 2 <= NBLK ->
  do_line (String "0" (String newline EmptyString)) (zeros n) =
  Ok (zeros (S n)).
Proof.
  intros L.
  rewrite (do_line_op _ _ (OpWords [0])); try reflexivity; [|discriminate].
  cbn [run_op].
  rewrite do_words_ok;
    [|cbn; lia|cbn [set_lnum data]; rewrite zeros_data_length;
      change (Z.of_nat (List.length [0])) with 1; lia].
  f_equal.
  set (s1 := set_lnum (lnum (zeros n) + 1) (zeros n)).
  assert (Ev : Z.land (2 * Z.of_nat n) 1 = 0).
  { apply even_land. rewrite Z.even_mul. reflexivity. }
  assert (Ec : words_checked [0] s1 = s1).
  { unfold words_checked.
    change (Z.of_nat (List.length [0])) with 1. cbn [nth].
    change (65535 <? 0) with false. change (2 <=? 1) with false.
    change (3 <=? 1) with false. cbn [andb error_if].
    change (pc s1) with (2 * Z.of_nat n). rewrite Ev. reflexivity. }
  unfold words_done. rewrite Ec.
  apply state_ext; try reflexivity.
  - cbn. lia.
  - apply zeros_data_step.
  - cbn [set_lnum set_have_blk set_pc set_data s1 pc zeros].
    change (Z.of_nat (List.length [0])) with 1. unfold NBLK in L.
    rewrite u4_small; lia.
Qed.

Lemma in_loop_zeros (n : nat) : 2 * Z.of_nat n <= NBLK -> in_loop (zeros n).
Proof.
  induction n as [|n IH]; intros L.
  - apply (loop_init []). vm_compute. discriminate.
  - apply (loop_line (String "0" (String newline EmptyString)) (zeros n)).
    + apply IH. lia.
    + apply do_line_zeros. lia.
Qed.
(** ** Octal numerals and the lines of a listing *)

Lemma is_octal_cases (d : Z) :
  is_octal d ->
  d = 0 \/ d = 1 \/ d = 2 \/ d = 3 \/ d = 4 \/ d = 5 \/ d = 6 \/ d = 7.
Proof. unfold is_octal. lia. Qed.

Lemma octal_digit_char (d : Z) :
  is_octal d -> octal_digit (octal_char d) = Some d.
Proof.
  intros H. apply is_octal_cases in H.
  repeat (destruct H as [->|H]; [reflexivity|]). subst. reflexivity.
Qed.

Lemma octal_char_plain (d : Z) :
  is_octal d ->
  isspace (octal_char d) = false /\
  Ascii.eqb (octal_char d) Ascii.zero = false /\
  Ascii.eqb (octal_char d) newline = false /\
  (forall c : ascii,
      In c ["-"; "+"; "#"; "/"; "="; ":"; "b"]%char ->
      Ascii.eqb c (octal_char d) = false).
Proof.
  intros H. apply is_octal_cases in H.
  assert (G : forall a : ascii,
             (forall c : ascii,
                 In c ["-"; "+"; "#"; "/"; "="; ":"; "b"]%char ->
                 Ascii.eqb c a = false) <->
             forallb (fun c => negb (Ascii.eqb c a))
                     ["-"; "+"; "#"; "/"; "="; ":"; "b"]%char = true).
  { intros a. rewrite forallb_forall. split; intros F c I.
    - rewrite (F c I). reflexivity.
    - apply negb_true_iff. now apply F. }
  repeat (destruct H as [->|H];
          [repeat split; try reflexivity; apply G; reflexivity|]).
  subst. repeat split; try reflexivity. apply G. reflexivity.
Qed.

Lemma scan_digits_octal (ds : list Z) (rest : string) (acc : Z) :
  Forall is_octal ds ->
  match rest with
  | String c _ => octal_digit c = None
  | EmptyString => True
  end ->
  scan_digits acc (String.append (octal_string ds) rest) =
  (fold_left (fun a d => 8 * a + d) ds acc, rest).
Proof.
  intros F R. revert acc.
  induction F as [|d ds Hd F IH]; intros acc; cbn [octal_string fold_right].
  - cbn [String.append fold_left].
    destruct rest as [|c r]; [reflexivity|]. cbn [scan_digits].
    now rewrite R.
  - cbn [String.append scan_digits fold_left].
    rewrite (octal_digit_char d Hd). apply IH.
Qed.

Lemma scan_o_octal (ds : list Z) (rest : string) :
  ds <> [] ->
  Forall is_octal ds ->
  match rest with
  | String c _ => octal_digit c = None
  | EmptyString => True
  end ->
  scan_o (String.append (octal_string ds) rest) =
  Some (u4 (strtoul8 false (octal_value ds)), rest).
Proof.
  intros N F R. destruct ds as [|d ds]; [congruence|].
  pose proof (scan_digits_octal (d :: ds) rest 0 F R) as S.
  inversion F as [|? ? Hd _]. subst.
  destruct (octal_char_plain d Hd) as (Hs & _ & _ & Hc).
  unfold scan_o. cbn [octal_string fold_right String.append] in *.
  cbn [skip_space]. rewrite Hs.
  assert (E : match String (octal_char d)
                      (String.append (octal_string ds) rest) with
              | String "-"%char r => (true, r)
              | String "+"%char r => (false, r)
              | _ => (false, String (octal_char d)
                               (String.append (octal_string ds) rest))
              end
              = (false, String (octal_char d)
                          (String.append (octal_string ds) rest))).
  { pose proof (Hc "-"%char) as H1. pose proof (Hc "+"%char) as H2.
    cbn [In] in H1, H2.
    destruct (octal_char d) as [[] [] [] [] [] [] [] []];
      try reflexivity; exfalso;
      first [ discriminate (H1 (or_introl eq_refl))
            | discriminate (H2 (or_intror (or_introl eq_refl))) ]. }
  unfold octal_string in E. cbn [fold_right] in E. rewrite E.
  rewrite (octal_digit_char d Hd).
  cbn [octal_string fold_right] in S. rewrite S. reflexivity.
Qed.

Lemma append_empty_r (s : string) : String.append s EmptyString = s.
Proof. induction s as [|c s IH]; cbn; [reflexivity|now rewrite IH]. Qed.

Lemma chop_line (l : string) : chop (line l) = l.
Proof.
  unfold line. induction l as [|c l IH]; [reflexivity|].
  cbn [String.append chop]. rewrite IH.
  destruct l; reflexivity.
Qed.

Lemma cstr_octal (ds : list Z) (rest : string) :
  Forall is_octal ds ->
  cstr (String.append (octal_string ds) rest) =
  String.append (octal_string ds) (cstr rest).
Proof.
  induction 1 as [|d ds Hd F IH]; [reflexivity|].
  cbn [octal_string fold_right String.append cstr].
  destruct (octal_char_plain d Hd) as (_ & -> & _).
  f_equal. exact IH.
Qed.

Lemma scanned_small (v : Z) :
  0 <= v < 2 ^ 32 -> u4 (strtoul8 false v) = v.
Proof.
  intros H. unfold strtoul8.
  destruct (Z.leb_spec (2 ^ 64) v); [lia|]. now apply u4_small.
Qed.

Lemma octal6_digits (v : Z) : Forall is_octal (octal6 v).
Proof.
  assert (D : forall x : Z, is_octal (x mod 8)).
  { intros x. unfold is_octal. pose proof (Z.mod_pos_bound x 8). lia. }
  unfold octal6. repeat (apply Forall_cons; [apply D|]). apply Forall_nil.
Qed.

Lemma octal6_value (v : Z) :
  0 <= v < 262144 -> octal_value (octal6 v) = v.
Proof.
  intros H. unfold octal_value, octal6. cbn [fold_left].
  Z.to_euclidean_division_equations. lia.
Qed.

Lemma append_assoc (a b c : string) :
  String.append (String.append a b) c = String.append a (String.append b c).
Proof. induction a as [|x a IH]; cbn; [reflexivity|now rewrite IH]. Qed.

Lemma lits_self (p r : string) : lits p (String.append p r) = Some r.
Proof.
  induction p as [|a p IH]; cbn [String.append lits]; [reflexivity|].
  now rewrite Ascii.eqb_refl.
Qed.

Lemma skip_space_octal (ds : list Z) (rest : string) :
  ds <> [] -> Forall is_octal ds ->
  skip_space (String.append (octal_string ds) rest) =
  String.append (octal_string ds) rest.
Proof.
  intros N F. destruct ds as [|d ds]; [congruence|].
  inversion F as [|? ? Hd _]. subst.
  cbn [octal_string fold_right String.append skip_space].
  now destruct (octal_char_plain d Hd) as (-> & _).
Qed.

(** [sscanf] with a format ["<lit> %o"] on the text [<lit>], a space and an
    octal numeral. *)
Lemma sscanf_o_octal (lit : string) (ds : list Z) :
  ds <> [] -> Forall is_octal ds ->
  sscanf_o lit (String.append lit (String " " (octal_string ds))) =
  Some (u4 (strtoul8 false (octal_value ds))).
Proof.
  intros N F. unfold sscanf_o. rewrite lits_self.
  cbn [skip_space isspace]. change (isspace " ") with true. cbv iota.
  rewrite <- (append_empty_r (octal_string ds)).
  rewrite skip_space_octal, scan_o_octal by auto. reflexivity.
Qed.

Lemma line_op_org (x : string) (v : Z) :
  sscanf_s "#define" x = None -> prefix "#error" x = false ->
  prefix "#warning" x = false ->
  sscanf_o "=" x = Some v -> line_op x = Some (OpOrg v).
Proof. unfold line_op. now intros -> -> -> ->. Qed.

Lemma line_op_chk2 (x : string) (v : Z) :
  sscanf_s "#define" x = None -> prefix "#error" x = false ->
  prefix "#warning" x = false -> sscanf_o "=" x = None ->
  sscanf_o "::" x = Some v -> line_op x = Some (OpChk2 v).
Proof. unfold line_op. now intros -> -> -> -> ->. Qed.

Lemma line_op_chk1 (x : string) (v : Z) :
  sscanf_s "#define" x = None -> prefix "#error" x = false ->
  prefix "#warning" x = false -> sscanf_o "=" x = None ->
  sscanf_o "::" x = None ->
  sscanf_o ":" x = Some v -> line_op x = Some (OpChk1 v).
Proof. unfold line_op. now intros -> -> -> -> -> ->. Qed.

Lemma line_op_byte (x : string) (v : Z) :
  sscanf_s "#define" x = None -> prefix "#error" x = false ->
  prefix "#warning" x = false -> sscanf_o "=" x = None ->
  sscanf_o "::" x = None -> sscanf_o ":" x = None ->
  sscanf_o "b" x = Some v -> line_op x = Some (OpByte v).
Proof. unfold line_op. now intros -> -> -> -> -> -> ->. Qed.

Lemma line_op_words (x : string) :
  sscanf_s "#define" x = None -> prefix "#error" x = false ->
  prefix "#warning" x = false -> sscanf_o "=" x = None ->
  sscanf_o "::" x = None -> sscanf_o ":" x = None ->
  sscanf_o "b" x = None -> line_op x = Some (OpWords (sscanf_ooo x)).
Proof. unfold line_op. now intros -> -> -> -> -> -> ->. Qed.

(** A directive with its operand written in octal is read as that
    directive, with the operand [sscanf] converts. *)
Lemma reads_directive (d : directive) (ds : list Z) :
  ds <> [] -> Forall is_octal ds ->
  reads_as (line (String.append (marker d) (octal_string ds)))
           (op_of d (u4 (strtoul8 false (octal_value ds)))).
Proof.
  intros N F.
  set (x := String.append (marker d) (octal_string ds)).
  assert (C : cstr (line x) = line x).
  { unfold line, x. rewrite append_assoc.
    destruct d; cbn [marker String.append cstr];
      change (Ascii.eqb "=" zero) with false;
      change (Ascii.eqb ":" zero) with false;
      change (Ascii.eqb "b" zero) with false;
      change (Ascii.eqb " " zero) with false; cbv iota;
      rewrite cstr_octal by assumption; reflexivity. }
  assert (S : skip_space x = x) by (unfold x; destruct d; reflexivity).
  unfold reads_as. rewrite C, chop_line, S.
  split; [unfold line, x; destruct d; discriminate|].
  split; [unfold x; destruct d; reflexivity|].
  unfold x. destruct d; cbn [marker op_of].
  - apply line_op_org; try reflexivity.
    apply (sscanf_o_octal "=" ds N F).
  - apply line_op_chk2; try reflexivity.
    apply (sscanf_o_octal "::" ds N F).
  - apply line_op_chk1; try reflexivity.
    apply (sscanf_o_octal ":" ds N F).
  - apply line_op_byte; try reflexivity.
    apply (sscanf_o_octal "b" ds N F).
Qed.

(** A line that is one octal numeral is read as one data word. *)
Lemma reads_word (ds : list Z) :
  ds <> [] -> Forall is_octal ds ->
  reads_as (line (octal_string ds))
           (OpWords [u4 (strtoul8 false (octal_value ds))]).
Proof.
  intros N F.
  set (x := octal_string ds).
  assert (C : cstr (line x) = line x).
  { unfold line, x. rewrite cstr_octal by assumption. reflexivity. }
  assert (S : skip_space x = x).
  { unfold x. rewrite <- (append_empty_r (octal_string ds)).
    now apply skip_space_octal. }
  assert (O : sscanf_ooo x = [u4 (strtoul8 false (octal_value ds))]).
  { unfold sscanf_ooo, x. rewrite <- (append_empty_r (octal_string ds)).
    rewrite scan_o_octal by auto. reflexivity. }
  unfold reads_as. rewrite C, chop_line, S, <- O.
  destruct ds as [|d ds]; [congruence|].
  inversion F as [|? ? Hd _]. subst. apply is_octal_cases in Hd.
  unfold x. cbn [octal_string fold_right].
  split; [unfold line; cbn [String.append]; discriminate|].
  repeat (destruct Hd as [->|Hd];
          [split; [reflexivity|apply line_op_words; reflexivity]|]).
  subst. split; [reflexivity|apply line_op_words; reflexivity].
Qed.

(** For every value below 8^6 the directive with its six-digit operand, and
    the six-digit data word, are read with that value. *)
Lemma reads_octal6 (v : Z) :
  0 <= v < 262144 ->
  (forall d : directive,
      reads_as (line (String.append (marker d) (octal_string (octal6 v))))
               (op_of d v)) /\
  reads_as (line (octal_string (octal6 v))) (OpWords [v]).
Proof.
  intros H.
  assert (E : u4 (strtoul8 false (octal_value (octal6 v))) = v).
  { rewrite octal6_value by assumption. apply scanned_small. lia. }
  split; [intros d|]; rewrite <- E at 2.
  - apply reads_directive; [discriminate|apply octal6_digits].
  - apply reads_word; [discriminate|apply octal6_digits].
Qed.

(** ** The operations behind the claims *)

(** A byte line with a value above 0377. *)
Lemma do_byte_range_error (b : Z) (s : state) :
  255 < b ->
  Z.of_nat (List.length (data s)) < NBLK ->
  exists s' : state,
    do_byte b s = Ok s' /\
    elog s' = elog s ++ [(lnum s, E_range_b)] /\
    errs s' = errs s + 1 /\
    data s' = data s ++ [b mod 256] /\
    pc s' = (pc s + 1) mod 2 ^ 32 /\
    (0 <= pc s -> pc s + 1 < 2 ^ 32 -> pc s' = pc s + 1) /\
    have_blk s' = true.
Proof.
  intros Hb Hr. eexists. split; [now apply do_byte_ok|].
  apply Z.ltb_lt in Hb. rewrite Hb. fields. cbn [error_if error].
  repeat split. intros P0 P1. apply u4_small. lia.
Qed.

(** A data-word line with a word out of range or an odd [pc]. *)
Lemma do_words_errors (ws : list Z) (s : state) :
  (1 <= List.length ws <= 3)%nat ->
  Exists (fun w => 65535 < w) ws \/ Z.odd (pc s) = true ->
  Z.of_nat (List.length (data s)) + 2 * Z.of_nat (List.length ws) <= NBLK ->
  exists (s' : state) (e : err_t) (l : list err_t),
    do_words ws s = Ok s' /\
    elog s' = elog s ++ map (pair (lnum s)) (e :: l) /\
    Forall (fun x => is_range x = true \/ is_parity x = true) (e :: l) /\
    errs s' = errs s + Z.of_nat (List.length (e :: l)) /\
    data s' =
      data s ++
      flat_map (fun w => [(w mod 2 ^ 16) mod 256; (w mod 2 ^ 16) / 256]) ws /\
    pc s' = (pc s + 2 * Z.of_nat (List.length ws)) mod 2 ^ 32 /\
    (0 <= pc s ->
     pc s + 2 * Z.of_nat (List.length ws) < 2 ^ 32 ->
     pc s' = pc s + 2 * Z.of_nat (List.length ws)) /\
    have_blk s' = true.
Proof.
  intros Hn He Hr.
  destruct (word_errors_some ws (pc s) Hn He) as (e & l & E & F).
  exists (words_done ws s), e, l.
  split; [now apply do_words_ok|].
  destruct (words_done_facts ws s) as (Ed & Ep & Eb & _ & _ & El & Ee).
  rewrite E in El, Ee.
  repeat split; try assumption.
  - rewrite Ed. f_equal. clear. induction ws as [|w ws IH]; [reflexivity|].
    cbn [flat_map]. rewrite IH. f_equal.
    rewrite <- (word_bytes_mod w). unfold word_bytes.
    rewrite !land_255, Z.shiftr_div_pow2 by lia.
    change (2 ^ 8) with 256. f_equal. f_equal.
    apply Z.mod_small.
    pose proof (Z.mod_pos_bound w (2 ^ 16)).
    split; [apply Z.div_pos; lia|apply Z.div_lt_upper_bound; lia].
  - intros P0 P1. rewrite Ep. apply u4_small. lia.
Qed.

(** A consistency check: [:: chk] when [strict], [: chk] otherwise. *)
Lemma do_chk_log (strict : bool) (chk : Z) (s : state) :
  Z.of_nat (List.length (data s)) < NBLK ->
  exists s' : state,
    (if strict then do_chk2 chk s else do_chk1 chk s) = Ok s' /\
    count_errs is_consistency s' =
      count_errs is_consistency s +
      (if (if strict then pc s else pc_minus_2 s) =? chk then 0 else 1) /\
    fwp s' =
      fwp s ++ (if have_blk s then [image (org s) (data s)] else []) /\
    have_blk s' = false /\
    pc s' = pc s.
Proof.
  intros Hr.
  set (c := if strict then chk2_checked chk s else chk1_checked chk s).
  assert (Ec : (if strict then do_chk2 chk s else do_chk1 chk s)
               = write_abs ABS_BLK c).
  { destruct strict; [apply do_chk2_eq|apply do_chk1_eq]. }
  assert (Sb : same_blk s c).
  { destruct strict;
      [apply same_blk_chk2_checked|apply same_blk_chk1_checked]. }
  destruct Sb as (Eb & Ed & Eo & Ep & Ef).
  set (expected := if strict then pc s else pc_minus_2 s).
  assert (El : elog c =
               elog s ++
               (if 65535 <? chk
                then [(lnum s, if strict then E_range_chk2
                               else E_range_chk1)] else []) ++
               (if expected =? chk then []
                else [(lnum s, if strict then E_consist2
                               else E_consist1)])).
  { unfold c, expected, chk2_checked, chk1_checked, pc_minus_2.
    fold (u4 (pc s - 2)).
    destruct strict; rewrite !elog_error_if, lnum_error_if, <- app_assoc;
      repeat f_equal; match goal with |- context [?a =? ?b] =>
                                        destruct (a =? b) end;
      reflexivity. }
  assert (Cc : count_errs is_consistency c =
               count_errs is_consistency s +
               (if expected =? chk then 0 else 1)).
  { rewrite (count_errs_app _ _ _ _ El). f_equal.
    rewrite filter_app, length_app.
    destruct (65535 <? chk), (expected =? chk), strict; reflexivity. }
  assert (W : exists s', write_abs ABS_BLK c = Ok s' /\
                elog s' = elog c /\ have_blk s' = false /\
                pc s' = pc c /\
                fwp s' = fwp c ++
                  (if have_blk c then [image (org c) (data c)] else [])).
  { destruct (have_blk c) eqn:Hb.
    - exists (flushed ABS_BLK c). split; [|repeat split].
      apply write_abs_emit; [exact Hb|]. now rewrite Ed.
    - exists c. rewrite app_nil_r. split; [|repeat split; assumption].
      now apply write_abs_idle. }
  destruct W as (s' & W & Wl & Wb & Wp & Wf).
  exists s'. rewrite Ec. split; [exact W|].
  assert (Cs : count_errs is_consistency s' = count_errs is_consistency c).
  { unfold count_errs. now rewrite Wl. }
  rewrite Cs, Cc, Wf, Wp, Ef, Eb, Eo, Ed, Ep. repeat split; assumption.
Qed.

(** The frame [#ifdef] opens below the depth limit. *)
Lemma do_ifdef_frame (sym : string) (s : state) :
  0 < lvl s < 2 ^ 31 ->
  lvl (do_ifdef sym s) = 2 * lvl s /\
  Z.land (inside_if (do_ifdef sym s)) (lvl (do_ifdef sym s))
    = lvl (do_ifdef sym s) /\
  (Z.land (ignore_input (do_ifdef sym s)) (lvl (do_ifdef sym s)) <> 0
   <-> ~ In sym (ifdefs s)) /\
  (ignore_input s = 0 ->
   (ignore_input (do_ifdef sym s) <> 0 <-> ~ In sym (ifdefs s))).
Proof.
  intros Hl.
  destruct (do_ifdef_fields sym s) as (El & Ei & Eg & _).
  rewrite El, Ei, Eg, shift_level by assumption.
  split; [reflexivity|]. split; [apply land_lor_same|].
  rewrite <- defined_In. destruct (defined sym s).
  - rewrite land_not32_same. split.
    + split; [congruence|intros N; exfalso; now apply N].
    + intros ->. rewrite Z.land_0_l.
      split; [congruence|intros N; exfalso; now apply N].
  - rewrite land_lor_same. split.
    + split; [discriminate|lia].
    + intros ->. rewrite Z.lor_0_l. split; [discriminate|lia].
Qed.

(** ** The scenarios of the specification, evaluated *)

Example lines_as_read :
  line_op "= 1000" = Some (OpOrg 512) /\
  line_op ":: 177776" = Some (OpChk2 65534) /\
  line_op ": 0" = Some (OpChk1 0) /\
  line_op "b 377" = Some (OpByte 255) /\
  line_op "012345 000001" = Some (OpWords [5349; 1]) /\
  line_op "1 2 3 4" = Some (OpWords [1; 2; 3]) /\
  line_op "12a" = Some (OpWords [10]) /\
  line_op "halt" = Some (OpWords []) /\
  line_op "#define FOO" = None.
Proof. repeat split. Qed.

(** Scenario A: one data block of origin 01000 with the two bytes of 012345,
    then the halt block. *)
Example scenario_A :
  holds (main [] (text ["= 1000"; "012345"]))
        (fun s => fwp s = [[1; 0; 8; 0; 0; 2; 229; 20; 252]; halt_image] /\
                  elog s = []).
Proof. vm_compute. split; reflexivity. Qed.

(** Scenario D: an odd origin followed by a word reports one parity
    error. *)
Example scenario_D :
  holds (main [] (text ["= 1"; "000001"]))
        (fun s => elog s = [(2, E_odd_pc)] /\ errs s = 1 /\ rm s = true).
Proof. vm_compute. repeat split. Qed.

(** A last line without its newline loses its last character:
    [buf[strlen(buf)-1] = 0] is done whether or not a newline was read. *)
Example last_line_without_newline :
  holds (main [] "000017") (fun s => emitted_words s = [1]).
Proof. vm_compute. reflexivity. Qed.

(** * The claims *)

(** ** C10 *)

(** C10.  In every reachable state the pending-block flag [have_blk] is
    true exactly when the accumulator holds at least one byte, and an empty
    accumulator has its origin [org] equal to [pc]; every operation (origin
    directive, consistency checks, byte and word append, flush) preserves
    this invariant. *)
Theorem pending_block_invariant :
  (forall s : state,
      reachable s ->
      (have_blk s = true <-> data s <> []) /\ (data s = [] -> org s = pc s)) /\
  (forall (o : op) (s s' : state),
      blk_inv s -> run_op o s = Ok s' -> blk_inv s').
Proof.
  split.
  - intros s R. exact (reachable_blk_inv s R).
  - exact blk_inv_run_op.
Qed.

Lemma pending_block_invariant_witness :
  ((have_blk (init []) = true <-> data (init []) <> []) /\
   (data (init []) = [] -> org (init []) = pc (init []))) /\
  blk_inv (words_done [5] (init [])).
Proof.
  split.
  - apply (proj1 pending_block_invariant).
    apply reach_loop, loop_init. unfold N_IFDEFS. cbn. lia.
  - apply (proj2 pending_block_invariant (OpWords [5]) (init [])).
    + apply blk_inv_init.
    + apply do_words_ok; unfold NBLK; cbn; lia.
Defined.

(** ** C8 *)



(** ** C2 *)

(** C2.  On every input, [main] either runs into undefined behaviour of the
    C program or ends with this output: the blocks written by the line
    loop, then the block still pending at end of input if there is one,
    then the halt block, and nothing after it.  The halt block has address
    field 1, which is odd, and no data; every block before it carries
    data, so it is the only such block.  [main] does not end in the three
    cases of undefined behaviour only: more than 32 [--def] symbols, a
    line loop that runs into undefined behaviour, and a pending block that
    fills [blk.data], so that the checksum is stored beyond it (the fuel
    limit of the model is never met).  In every other run the halt block
    is written, last. *)
Theorem output_ends_with_halt (defs : list string) (input : string) :
  match main defs input with
  | Ok s =>
      exists s0 : state,
        run_lines defs input = Ok s0 /\
        fwp s =
          fwp s0 ++
          (if have_blk s0 then [image (org s0) (data s0)] else []) ++
          [halt_image] /\
        Forall (fun img => f_data img <> []) (removelast (fwp s)) /\
        last (fwp s) [] = halt_image /\
        f_addr halt_image = 1 /\ Z.odd (f_addr halt_image) = true /\
        f_data halt_image = [] /\ f_len halt_image = 6 /\
        sum_bytes halt_image mod 256 = 0
  | Fault f =>
      f <> Fuel /\
      (N_IFDEFS < Z.of_nat (List.length defs) /\ f = IfdefsOverrun \/
       run_lines defs input = Fault f \/
       exists s0 : state,
         run_lines defs input = Ok s0 /\
         NBLK <= Z.of_nat (List.length (data s0)) /\ f = BlkOverrun)
  end /\
  (forall s0 : state,
      Z.of_nat (List.length defs) <= N_IFDEFS ->
      run_lines defs input = Ok s0 ->
      Z.of_nat (List.length (data s0)) < NBLK ->
      exists s : state,
        main defs input = Ok s /\
        fwp s =
          fwp s0 ++
          (if have_blk s0 then [image (org s0) (data s0)] else []) ++
          [halt_image] /\
        last (fwp s) [] = halt_image).
Proof.
  assert (M : match main defs input with
              | Ok s =>
                  exists s0 : state,
                    run_lines defs input = Ok s0 /\
                    fwp s =
                      fwp s0 ++
                      (if have_blk s0 then [image (org s0) (data s0)]
                       else []) ++
                      [halt_image] /\
                    Forall (fun img => f_data img <> [])
                           (removelast (fwp s)) /\
                    last (fwp s) [] = halt_image /\
                    f_addr halt_image = 1 /\
                    Z.odd (f_addr halt_image) = true /\
                    f_data halt_image = [] /\ f_len halt_image = 6 /\
                    sum_bytes halt_image mod 256 = 0
              | Fault f =>
                  f <> Fuel /\
                  (N_IFDEFS < Z.of_nat (List.length defs) /\
                   f = IfdefsOverrun \/
                   run_lines defs input = Fault f \/
                   exists s0 : state,
                     run_lines defs input = Ok s0 /\
                     NBLK <= Z.of_nat (List.length (data s0)) /\
                     f = BlkOverrun)
              end).
  { destruct (main defs input) as [s|f] eqn:H.
    2:{ split.
        { pose proof (main_total defs input) as T. rewrite H in T.
          intros ->. exact T. }
        unfold main in H.
        destruct (N_IFDEFS <? Z.of_nat (List.length defs)) eqn:N.
        { left. apply Z.ltb_lt in N. split; [exact N|]. congruence. }
        right. apply Z.ltb_ge in N.
        change (main_loop (String.length input) input (init defs))
          with (run_lines defs input) in H.
        destruct (run_lines defs input) as [s0|f0] eqn:R.
        2:{ left. cbn in H. congruence. }
        right. exists s0. split; [reflexivity|].
        cbn [bind] in H. unfold finish in H.
        destruct (write_abs_cases ABS_BLK s0)
          as [(Hb & W)|[(Hb & Hl & W)|(Hb & Hl & W)]];
          rewrite W in H; cbn [bind] in H.
        - destruct (write_abs_cases ABS_HALT s0)
            as [(Hc & _)|[(_ & _ & W2)|(_ & Hl & W2)]];
            [discriminate|congruence|].
          split; [exact Hl|congruence].
        - rewrite write_abs_emit in H; [discriminate|reflexivity|].
          cbn [flushed data List.length]. unfold NBLK. cbn. lia.
        - split; [exact Hl|congruence]. }
    apply main_inv in H.
    destruct H as (s0 & s1 & _ & R & I & W1 & W2).
    exists s0. split; [exact R|].
    pose proof (in_loop_blk_inv s0 I) as B0.
    pose proof (in_loop_fwp s0 I) as F0.
    assert (B1 : blk_inv s1) by (eapply blk_inv_write_abs; eassumption).
    assert (E1 : have_blk s1 = false /\ data s1 = [] /\
                 fwp s1 = fwp s0 ++
                   (if have_blk s0 then [image (org s0) (data s0)] else [])).
    { apply write_abs_fwp in W1. destruct W1 as [[Hb ->]|(Hb & _ & ->)].
      - rewrite Hb, app_nil_r. split; [reflexivity|split; [|reflexivity]].
        destruct (data s0) eqn:D; [reflexivity|].
        exfalso. destruct B0 as [B0 _]. rewrite Hb in B0.
        assert (false = true) by (apply B0; rewrite D; discriminate).
        discriminate.
      - rewrite Hb. repeat split. }
    destruct E1 as (Hb1 & Hd1 & Hf1).
    apply write_abs_inv in W2. cbn [emits] in W2.
    destruct W2 as [[W2 _]|(_ & _ & ->)]; [discriminate|].
    assert (Ef : fwp (flushed ABS_HALT s1) =
                 (fwp s0 ++
                  (if have_blk s0 then [image (org s0) (data s0)] else [])) ++
                 [halt_image]).
    { cbn [flushed fwp org_of]. rewrite Hd1, Hf1. reflexivity. }
    rewrite Ef. split; [now rewrite app_assoc|].
    rewrite removelast_last, last_last. split.
    - apply Forall_app. split; [assumption|].
      destruct (have_blk s0) eqn:Hb0; constructor; [|constructor].
      rewrite image_f_data. now apply B0.
    - repeat split. }
  split; [exact M|].
  intros s0 Hd R Hl.
  destruct (main defs input) as [s|f].
  - destruct M as (s0' & R' & F & _ & L & _).
    assert (E0 : s0' = s0) by congruence. subst s0'.
    exists s. split; [reflexivity|]. split; assumption.
  - exfalso. destruct M as [_ [[N _]|[E|(s0' & R' & N & _)]]].
    + lia.
    + rewrite R in E. discriminate.
    + assert (E0 : s0' = s0) by congruence. subst s0'. lia.
Qed.

Lemma output_ends_with_halt_witness :
  exists s : state,
    main [] (text ["= 1000"; "012345"]) = Ok s /\
    fwp s =
      fwp st_1000w ++
      (if have_blk st_1000w then [image (org st_1000w) (data st_1000w)]
       else []) ++
      [halt_image] /\
    last (fwp s) [] = halt_image.
Proof.
  pose proof (output_ends_with_halt [] (text ["= 1000"; "012345"])) as H.
  apply proj2 in H. specialize (H st_1000w). apply H.
  - vm_compute. discriminate.
  - vm_compute. reflexivity.
  - vm_compute. reflexivity.
Defined.

(** ** C7 *)

(** C7, as stated, fails: the input [= 177776], [000001] is processed
    without any error and leaves [pc = 0200000]; the word append does not
    preserve the bound 0177777. *)
Lemma pc_bound_not_preserved :
  run_lines [] (text ["= 177776"]) = Ok st_177776 /\
  pc st_177776 = 65534 /\
  do_line (line "000001") st_177776 = Ok st_200000 /\
  run_lines [] (text ["= 177776"; "000001"]) = Ok st_200000 /\
  elog st_200000 = [] /\
  pc st_200000 = 65536 /\
  ~ (forall s : state, reachable s -> 0 <= pc s <= 65535).
Proof.
  assert (R : run_lines [] (text ["= 177776"; "000001"]) = Ok st_200000)
    by (vm_compute; reflexivity).
  repeat split; try (vm_compute; reflexivity); try exact R.
  intros H.
  assert (I : in_loop st_200000).
  { eapply run_lines_in_loop; [|exact R]. vm_compute. discriminate. }
  specialize (H st_200000 (reach_loop _ I)). cbn in H. lia.
Qed.

(** C7 (amended).  In every reachable state [pc] is a 32-bit unsigned
    value, [0 <= pc < 2^32]; the bound 0177777 is not enforced.  An
    operation leaves [pc] as follows: a consistency check and a flush leave
    it unchanged; an origin directive sets it to its operand, whatever the
    operand is; a byte append sets it to [(pc + 1) mod 2^32]; a data-word
    line of [n] words, [1 <= n <= 3], sets it to [(pc + 2 n) mod 2^32]. *)
Theorem pc_is_u4 :
  (forall s : state, reachable s -> 0 <= pc s < 2 ^ 32) /\
  (forall (o : op) (s s' : state),
      run_op o s = Ok s' ->
      pc s' =
      match o with
      | OpOrg norg => norg
      | OpChk2 _ | OpChk1 _ | OpFlush _ => pc s
      | OpByte _ => (pc s + 1) mod 2 ^ 32
      | OpWords ws =>
          let n := Z.of_nat (List.length ws) in
          if (1 <=? n) && (n <=? 3) then (pc s + 2 * n) mod 2 ^ 32 else pc s
      end).
Proof.
  split.
  - exact reachable_pc.
  - intros o s s' H. apply run_op_pc in H. exact H.
Qed.

Lemma pc_is_u4_witness :
  0 <= pc (init []) < 2 ^ 32 /\
  pc (words_done [1] st_177776) = (pc st_177776 + 2 * 1) mod 2 ^ 32.
Proof.
  split.
  - apply (proj1 pc_is_u4). apply reach_loop, loop_init.
    vm_compute. discriminate.
  - apply (proj2 pc_is_u4 (OpWords [1]) st_177776
                 (words_done [1] st_177776)).
    vm_compute. reflexivity.
Defined.

(** ** C3 *)

(** C3, as stated, fails where [pc] wraps: after [= 37777777776] [pc] is
    [2^32 - 2], which is even; the line [000001] appends the two bytes of
    the word 1, which is in range, and leaves [pc = 0], not [pc + 2]. *)
Lemma word_append_wraps_pc :
  run_lines [] (text ["= 37777777776"]) = Ok st_top_even /\
  pc st_top_even = 4294967294 /\
  Z.even (pc st_top_even) = true /\
  reads_as (line "000001") (OpWords [1]) /\
  (exists s' : state,
      do_line (line "000001") st_top_even = Ok s' /\
      run_lines [] (text ["= 37777777776"; "000001"]) = Ok s' /\
      data s' = data st_top_even ++ [1; 0] /\
      pc s' = 0 /\
      pc s' <> pc st_top_even + 2) /\
  ~ (forall (buf : string) (w : Z) (s s' : state),
        in_loop s ->
        reads_as buf (OpWords [w]) ->
        0 <= w <= 65535 ->
        Z.even (pc s) = true ->
        ignore_input s = 0 ->
        do_line buf s = Ok s' ->
        pc s' = pc s + 2).
Proof.
  assert (R : run_lines [] (text ["= 37777777776"]) = Ok st_top_even)
    by (vm_compute; reflexivity).
  assert (A : reads_as (line "000001") (OpWords [1])).
  { split; [vm_compute; discriminate|split; reflexivity]. }
  split; [exact R|]. split; [reflexivity|]. split; [reflexivity|].
  split; [exact A|]. split.
  - eexists. split; [vm_compute; reflexivity|].
    split; [vm_compute; reflexivity|].
    split; [reflexivity|]. split; [reflexivity|]. cbn. lia.
  - intros H.
    assert (I : in_loop st_top_even).
    { eapply run_lines_in_loop; [|exact R]. vm_compute. discriminate. }
    assert (D : exists s', do_line (line "000001") st_top_even = Ok s' /\
                           pc s' = 0).
    { eexists. split; [vm_compute; reflexivity|reflexivity]. }
    destruct D as (s' & D & P).
    specialize (H (line "000001") 1 st_top_even s' I A).
    rewrite H in P; try reflexivity; try lia; try exact D.
    cbn in P. lia.
Qed.

(** C3 (amended).  A line read as one to three data words, while no frame
    suppresses input and with room in the block buffer, appends to the
    pending block, for each word [W] in order, exactly the two bytes
    [W & 0xFF] and [(W >> 8) & 0xFF], and sets [pc] to
    [(pc + 2 n) mod 2^32] for its [n] words: [pc] advances by exactly 2 per
    word whenever [pc + 2 n] is below 2^32, and wraps otherwise.  When
    every word is in [0, 0177777] and [pc] is even, no error is
    reported. *)
Theorem data_words_appended (buf : string) (ws : list Z) (s : state) :
  reads_as buf (OpWords ws) ->
  ignore_input s = 0 ->
  (1 <= List.length ws <= 3)%nat ->
  Z.of_nat (List.length (data s)) + 2 * Z.of_nat (List.length ws) <= NBLK ->
  exists s' : state,
    do_line buf s = Ok s' /\
    data s' =
      data s ++
      flat_map (fun w => [Z.land w 255; Z.land (Z.shiftr w 8) 255]) ws /\
    Z.of_nat (List.length (data s')) =
      Z.of_nat (List.length (data s)) + 2 * Z.of_nat (List.length ws) /\
    pc s' = (pc s + 2 * Z.of_nat (List.length ws)) mod 2 ^ 32 /\
    (0 <= pc s ->
     pc s + 2 * Z.of_nat (List.length ws) < 2 ^ 32 ->
     pc s' = pc s + 2 * Z.of_nat (List.length ws)) /\
    have_blk s' = true /\ fwp s' = fwp s /\
    (Forall (fun w => 0 <= w <= 65535) ws ->
     Z.even (pc s) = true ->
     elog s' = elog s /\ errs s' = errs s).
Proof.
  intros R Hi Hn Hr.
  rewrite (do_line_reads_as buf _ s R Hi). cbn [run_op].
  set (s1 := set_lnum (lnum s + 1) s).
  exists (words_done ws s1). split; [now apply do_words_ok|].
  destruct (words_done_facts ws s1) as (Ed & Ep & Eb & _ & Ef & El & Ee).
  split; [exact Ed|]. split.
  { rewrite Ed, length_app, Nat2Z.inj_add, flat_map_word_bytes_length.
    reflexivity. }
  split; [exact Ep|]. split.
  { intros P0 P1. rewrite Ep. apply u4_small. cbn [s1 set_lnum pc]. lia. }
  split; [exact Eb|]. split; [exact Ef|].
  intros Hw He.
  change (pc s1) with (pc s) in El, Ee.
  rewrite (word_errors_none ws (pc s) Hn Hw He) in El, Ee.
  cbn [map List.length Z.of_nat] in El, Ee.
  rewrite app_nil_r in El. rewrite Z.add_0_r in Ee. auto.
Qed.

Lemma data_words_appended_witness :
  exists s' : state,
    do_line (line "012345 000001") (init []) = Ok s' /\
    data s' = [] ++ [229; 20; 1; 0] /\
    Z.of_nat (List.length (data s')) = 0 + 2 * 2 /\
    pc s' = (0 + 2 * 2) mod 2 ^ 32 /\
    (0 <= 0 -> 0 + 2 * 2 < 2 ^ 32 -> pc s' = 0 + 2 * 2) /\
    have_blk s' = true /\ fwp s' = [] /\
    (Forall (fun w => 0 <= w <= 65535) [5349; 1] ->
     Z.even 0 = true ->
     elog s' = [] /\ errs s' = 0).
Proof.
  apply (data_words_appended (line "012345 000001") [5349; 1] (init [])).
  - split; [vm_compute; discriminate|split; reflexivity].
  - reflexivity.
  - cbn. lia.
  - vm_compute. discriminate.
Defined.

(** ** C9 *)

(** C9, as stated, fails where [pc] wraps: after [= 37777777777] [pc] is
    [2^32 - 1]; the line [b 400] logs the range error and appends the byte
    0, and leaves [pc = 0]: [pc] has not advanced by 1. *)
Lemma byte_append_wraps_pc :
  run_lines [] (text ["= 37777777777"]) = Ok st_top_odd /\
  pc st_top_odd = 4294967295 /\
  reads_as (line "b 400") (OpByte 256) /\
  (exists s' : state,
      do_line (line "b 400") st_top_odd = Ok s' /\
      run_lines [] (text ["= 37777777777"; "b 400"]) = Ok s' /\
      elog s' = elog st_top_odd ++ [(2, E_range_b)] /\
      data s' = data st_top_odd ++ [256 mod 256] /\
      pc s' = 0 /\
      pc s' <> pc st_top_odd + 1) /\
  ~ (forall (buf : string) (b : Z) (s s' : state),
        in_loop s ->
        reads_as buf (OpByte b) ->
        255 < b ->
        ignore_input s = 0 ->
        do_line buf s = Ok s' ->
        pc s' = pc s + 1).
Proof.
  assert (R : run_lines [] (text ["= 37777777777"]) = Ok st_top_odd)
    by (vm_compute; reflexivity).
  assert (A : reads_as (line "b 400") (OpByte 256)).
  { split; [vm_compute; discriminate|split; reflexivity]. }
  split; [exact R|]. split; [reflexivity|]. split; [exact A|]. split.
  - eexists. split; [vm_compute; reflexivity|].
    split; [vm_compute; reflexivity|].
    split; [reflexivity|]. split; [reflexivity|].
    split; [reflexivity|]. cbn. lia.
  - intros H.
    assert (I : in_loop st_top_odd).
    { eapply run_lines_in_loop; [|exact R]. vm_compute. discriminate. }
    assert (D : exists s', do_line (line "b 400") st_top_odd = Ok s' /\
                           pc s' = 0).
    { eexists. split; [vm_compute; reflexivity|reflexivity]. }
    destruct D as (s' & D & P).
    specialize (H (line "b 400") 256 st_top_odd s' I A).
    rewrite H in P; try reflexivity; try lia; try exact D.
    cbn in P. lia.
Qed.

(** C9 (amended).  An error reported on a data line does not stop the
    append.  A line read as [b V] with [V > 0377] logs the range error, and
    still appends the byte [V mod 256] and sets [pc] to
    [(pc + 1) mod 2^32].  A line read as one to three data words, of which
    one exceeds 0177777, or read while [pc] is odd, logs range or parity
    errors, and still appends every word as the two bytes of its value
    modulo 2^16 and sets [pc] to [(pc + 2 n) mod 2^32] for its [n] words.
    [pc] advances by exactly 1, or 2 per word, whenever the sum is below
    2^32, and wraps otherwise. *)
Theorem errors_do_not_stop_appends :
  (forall (buf : string) (b : Z) (s : state),
      reads_as buf (OpByte b) ->
      ignore_input s = 0 ->
      255 < b ->
      Z.of_nat (List.length (data s)) < NBLK ->
      exists s' : state,
        do_line buf s = Ok s' /\
        elog s' = elog s ++ [(lnum s + 1, E_range_b)] /\
        errs s' = errs s + 1 /\
        data s' = data s ++ [b mod 256] /\
        pc s' = (pc s + 1) mod 2 ^ 32 /\
        (0 <= pc s -> pc s + 1 < 2 ^ 32 -> pc s' = pc s + 1) /\
        have_blk s' = true) /\
  (forall (buf : string) (ws : list Z) (s : state),
      reads_as buf (OpWords ws) ->
      ignore_input s = 0 ->
      (1 <= List.length ws <= 3)%nat ->
      Exists (fun w => 65535 < w) ws \/ Z.odd (pc s) = true ->
      Z.of_nat (List.length (data s)) + 2 * Z.of_nat (List.length ws)
        <= NBLK ->
      exists (s' : state) (e : err_t) (l : list err_t),
        do_line buf s = Ok s' /\
        elog s' = elog s ++ map (pair (lnum s + 1)) (e :: l) /\
        Forall (fun x => is_range x = true \/ is_parity x = true) (e :: l) /\
        errs s' = errs s + Z.of_nat (List.length (e :: l)) /\
        data s' =
          data s ++
          flat_map (fun w => [(w mod 2 ^ 16) mod 256;
                              (w mod 2 ^ 16) / 256]) ws /\
        pc s' = (pc s + 2 * Z.of_nat (List.length ws)) mod 2 ^ 32 /\
        (0 <= pc s ->
         pc s + 2 * Z.of_nat (List.length ws) < 2 ^ 32 ->
         pc s' = pc s + 2 * Z.of_nat (List.length ws)) /\
        have_blk s' = true).
Proof.
  split.
  - intros buf b s R Hi Hb Hr.
    rewrite (do_line_reads_as buf _ s R Hi). cbn [run_op].
    exact (do_byte_range_error b (set_lnum (lnum s + 1) s) Hb Hr).
  - intros buf ws s R Hi Hn He Hr.
    rewrite (do_line_reads_as buf _ s R Hi). cbn [run_op].
    exact (do_words_errors ws (set_lnum (lnum s + 1) s) Hn He Hr).
Qed.

Lemma errors_do_not_stop_appends_witness :
  (exists s' : state,
      do_line (line "b 400") (init []) = Ok s' /\
      elog s' = [] ++ [(0 + 1, E_range_b)] /\
      errs s' = 0 + 1 /\
      data s' = [] ++ [256 mod 256] /\
      pc s' = (0 + 1) mod 2 ^ 32 /\
      (0 <= 0 -> 0 + 1 < 2 ^ 32 -> pc s' = 0 + 1) /\
      have_blk s' = true) /\
  (exists (s' : state) (e : err_t) (l : list err_t),
      do_line (line "200000") (init []) = Ok s' /\
      elog s' = [] ++ map (pair (0 + 1)) (e :: l) /\
      Forall (fun x => is_range x = true \/ is_parity x = true) (e :: l) /\
      errs s' = 0 + Z.of_nat (List.length (e :: l)) /\
      data s' =
        [] ++
        flat_map (fun w => [(w mod 2 ^ 16) mod 256; (w mod 2 ^ 16) / 256])
                 [65536] /\
      pc s' = (0 + 2 * 1) mod 2 ^ 32 /\
      (0 <= 0 -> 0 + 2 * 1 < 2 ^ 32 -> pc s' = 0 + 2 * 1) /\
      have_blk s' = true).
Proof.
  split.
  - apply (proj1 errors_do_not_stop_appends (line "b 400") 256 (init [])).
    + split; [vm_compute; discriminate|split; reflexivity].
    + reflexivity.
    + lia.
    + vm_compute. reflexivity.
  - apply (proj2 errors_do_not_stop_appends (line "200000") [65536]
                 (init [])).
    + split; [vm_compute; discriminate|split; reflexivity].
    + reflexivity.
    + cbn. lia.
    + left. constructor. lia.
    + vm_compute. discriminate.
Defined.

(** ** C5 *)

(** C5, as stated, fails where [pc - 2] wraps: at the start [pc] is 0, and
    the line [: 37777777776] logs the range error of its operand but no
    consistency error, although [pc - 2 = -2] differs from the operand
    [2^32 - 2]. *)
Lemma chk1_wraps_below_zero :
  pc (init []) = 0 /\
  reads_as (line ": 37777777776") (OpChk1 4294967294) /\
  pc (init []) - 2 <> 4294967294 /\
  (exists s' : state,
      do_line (line ": 37777777776") (init []) = Ok s' /\
      run_lines [] (text [": 37777777776"]) = Ok s' /\
      elog s' = [(1, E_range_chk1)] /\
      count_errs is_consistency s' = count_errs is_consistency (init [])) /\
  ~ (forall (buf : string) (chk : Z) (s s' : state),
        in_loop s ->
        reads_as buf (OpChk1 chk) ->
        ignore_input s = 0 ->
        do_line buf s = Ok s' ->
        (count_errs is_consistency s < count_errs is_consistency s' <->
         pc s - 2 <> chk)).
Proof.
  assert (A : reads_as (line ": 37777777776") (OpChk1 4294967294)).
  { split; [vm_compute; discriminate|split; reflexivity]. }
  split; [reflexivity|]. split; [exact A|]. split; [cbn; lia|]. split.
  - eexists. split; [vm_compute; reflexivity|].
    split; [vm_compute; reflexivity|]. split; reflexivity.
  - intros H.
    assert (I : in_loop (init [])).
    { apply loop_init. vm_compute. discriminate. }
    assert (D : exists s', do_line (line ": 37777777776") (init []) = Ok s' /\
                           count_errs is_consistency s' = 0).
    { eexists. split; [vm_compute; reflexivity|reflexivity]. }
    destruct D as (s' & D & P).
    specialize (H (line ": 37777777776") 4294967294 (init []) s' I A
                  eq_refl D).
    rewrite P in H. change (count_errs is_consistency (init [])) with 0 in H.
    destruct H as [_ H]. assert (0 < 0) by (apply H; cbn; lia). lia.
Qed.

(** C5 (amended).  A line read as [:: V] logs a consistency error exactly
    when [pc] differs from [V]; a line read as [: V] logs one exactly when
    [(pc - 2) mod 2^32] differs from [V]: the program computes [pc - 2]
    in 32-bit unsigned arithmetic, and that is the integer [pc - 2]
    whenever [pc >= 2].  In both cases the line goes on: the pending block,
    if there is one, is written, and [pc] is unchanged.  The input [= 0],
    [000001], [: 0] logs no error at all. *)
Theorem consistency_checks :
  (forall (buf : string) (strict : bool) (chk : Z) (s : state),
      reads_as buf (if strict then OpChk2 chk else OpChk1 chk) ->
      ignore_input s = 0 ->
      Z.of_nat (List.length (data s)) < NBLK ->
      exists s' : state,
        do_line buf s = Ok s' /\
        (count_errs is_consistency s < count_errs is_consistency s'
         <-> (if strict then pc s else pc_minus_2 s) <> chk) /\
        count_errs is_consistency s' =
          count_errs is_consistency s +
          (if (if strict then pc s else pc_minus_2 s) =? chk
           then 0 else 1) /\
        (2 <= pc s < 2 ^ 32 -> pc_minus_2 s = pc s - 2) /\
        fwp s' =
          fwp s ++ (if have_blk s then [image (org s) (data s)] else []) /\
        have_blk s' = false /\
        pc s' = pc s) /\
  holds (main [] (text ["= 0"; "000001"; ": 0"]))
        (fun s => count_errs is_consistency s = 0 /\ elog s = [] /\
                  errs s = 0).
Proof.
  split; [|vm_compute; repeat split].
  intros buf strict chk s R Hi Hr.
  rewrite (do_line_reads_as buf _ s R Hi).
  destruct (do_chk_log strict chk (set_lnum (lnum s + 1) s) Hr)
    as (s' & E & Ec & Ef & Eb & Ep).
  exists s'. split; [destruct strict; exact E|].
  change (count_errs is_consistency (set_lnum (lnum s + 1) s))
    with (count_errs is_consistency s) in Ec.
  change (pc_minus_2 (set_lnum (lnum s + 1) s)) with (pc_minus_2 s) in Ec.
  change (pc (set_lnum (lnum s + 1) s)) with (pc s) in Ec.
  split; [|split; [exact Ec|split; [|repeat split; assumption]]].
  - rewrite Ec.
    destruct (Z.eqb_spec (if strict then pc s else pc_minus_2 s) chk);
      split; intros; try lia; try assumption; contradiction.
  - intros P. unfold pc_minus_2. apply Z.mod_small. lia.
Qed.

Lemma consistency_checks_witness :
  exists s' : state,
    do_line (line ": 0") (words_done [1] (init [])) = Ok s' /\
    (count_errs is_consistency (words_done [1] (init []))
       < count_errs is_consistency s'
     <-> pc_minus_2 (words_done [1] (init [])) <> 0) /\
    count_errs is_consistency s' =
      count_errs is_consistency (words_done [1] (init [])) +
      (if pc_minus_2 (words_done [1] (init [])) =? 0 then 0 else 1) /\
    (2 <= pc (words_done [1] (init [])) < 2 ^ 32 ->
     pc_minus_2 (words_done [1] (init [])) =
     pc (words_done [1] (init [])) - 2) /\
    fwp s' = [] ++ [image 0 [1; 0]] /\
    have_blk s' = false /\
    pc s' = pc (words_done [1] (init [])).
Proof.
  apply (proj1 consistency_checks (line ": 0") false 0
               (words_done [1] (init []))).
  - split; [vm_compute; discriminate|split; reflexivity].
  - reflexivity.
  - vm_compute. reflexivity.
Defined.

(** ** C4 *)

(** C4, as stated, fails at nesting depth 31: after 31 open [#if 1] frames
    [lvl] is [2^31], the shift of [#ifdef FOO] takes it to 0, no bit of
    [ignore_input] is set although [FOO] is not defined, and the word that
    follows is emitted. *)
Lemma ifdef_at_depth_31 :
  holds (run_lines [] (text (repeat "#if 1" 31)))
        (fun s => lvl s = 2 ^ 31 /\ ignore_input s = 0 /\ elog s = []) /\
  holds (run_lines [] (text (repeat "#if 1" 31 ++ ["#ifdef FOO"])))
        (fun s => ~ In "FOO" (ifdefs s) /\ lvl s = 0 /\
                  Z.land (ignore_input s) (lvl s) = 0 /\
                  ignore_input s = 0 /\
                  ~ (ignore_input s <> 0 <-> ~ In "FOO" (ifdefs s))) /\
  holds (main [] (text (repeat "#if 1" 31 ++ ["#ifdef FOO"; "000001"])))
        (fun s => emitted_words s = [1] /\ elog s = []).
Proof.
  split; [|split]; vm_compute; repeat split; auto.
  intros [_ H]. apply H; auto.
Qed.

(** C4 (amended).  A line read as [#ifdef SYM] while [lvl] is a level
    below [2^31] (fewer than 31 frames are open) opens a frame, at the level
    [2 * lvl], whose bit in [ignore_input] is set exactly when [SYM] is not
    among the defined symbols at that moment; when no enclosing frame is
    suppressed, input is ignored after the directive exactly in that case.
    While input is ignored, a line changes neither the pending block, nor
    the output, nor the defined symbols.  For the input [#ifdef FOO],
    [000001], [#else], [000002], [#endif], a run with [FOO] predefined emits
    only the word 000001 and a run without it only the word 000002. *)
Theorem ifdef_frame :
  (forall (buf sym : string) (s : state),
      reads_ifdef buf sym ->
      0 < lvl s < 2 ^ 31 ->
      exists s' : state,
        do_line buf s = Ok s' /\
        lvl s' = 2 * lvl s /\
        Z.land (inside_if s') (lvl s') = lvl s' /\
        (Z.land (ignore_input s') (lvl s') <> 0 <-> ~ In sym (ifdefs s)) /\
        (ignore_input s = 0 ->
         (ignore_input s' <> 0 <-> ~ In sym (ifdefs s)))) /\
  (forall (buf : string) (s s' : state),
      ignore_input s <> 0 ->
      do_line buf s = Ok s' ->
      data s' = data s /\ pc s' = pc s /\ fwp s' = fwp s /\
      ifdefs s' = ifdefs s) /\
  holds (main ["FOO"]
              (text ["#ifdef FOO"; "000001"; "#else"; "000002"; "#endif"]))
        (fun s => emitted_words s = [1] /\ elog s = []) /\
  holds (main []
              (text ["#ifdef FOO"; "000001"; "#else"; "000002"; "#endif"]))
        (fun s => emitted_words s = [2] /\ elog s = []).
Proof.
  split; [|split; [|split; vm_compute; split; reflexivity]].
  - intros buf sym s R Hl.
    rewrite (do_line_reads_ifdef buf sym s R). eexists. split; [reflexivity|].
    exact (do_ifdef_frame sym (set_lnum (lnum s + 1) s) Hl).
  - intros buf s s' Hi H.
    destruct (do_line_ignored buf s s' Hi H) as ((_ & Ed & _ & Ep & Ef) & E).
    auto.
Qed.

Lemma ifdef_frame_witness :
  exists s' : state,
    do_line (line "#ifdef FOO") (init []) = Ok s' /\
    lvl s' = 2 * 1 /\
    Z.land (inside_if s') (lvl s') = lvl s' /\
    (Z.land (ignore_input s') (lvl s') <> 0 <-> ~ In "FOO" []) /\
    (0 = 0 -> (ignore_input s' <> 0 <-> ~ In "FOO" [])).
Proof.
  apply (proj1 ifdef_frame (line "#ifdef FOO") "FOO" (init [])).
  - split; [vm_compute; discriminate|split; vm_compute; reflexivity].
  - vm_compute. auto.
Defined.

(** ** C6 *)

(** C6.  The code does not keep what the claim states.  An [#endif] with no
    open frame is reported, but only after [lvl] has been shifted from 1 to
    0, and [lvl] stays 0 from then on: in the input [#endif], [#if 0],
    [000001], [#endif] the [#if 0] suppresses nothing, the word is emitted,
    and the matching [#endif] is reported as well, whereas the same lines
    without the leading [#endif] emit nothing and report nothing. *)
Theorem unmatched_endif_breaks_nesting :
  lvl (init []) = 1 /\
  holds (run_lines [] (text ["#endif"]))
        (fun s => lvl s = 0 /\ map snd (elog s) = [E_endif]) /\
  holds (run_lines [] (text ["#endif"; "#if 0"]))
        (fun s => lvl s = 0 /\ ignore_input s = 0) /\
  holds (run_lines [] (text ["#if 0"]))
        (fun s => lvl s = 2 /\ ignore_input s = 2) /\
  holds (main [] (text ["#endif"; "#if 0"; "000001"; "#endif"]))
        (fun s => emitted_words s = [1] /\
                  map snd (elog s) = [E_endif; E_endif]) /\
  holds (main [] (text ["#if 0"; "000001"; "#endif"]))
        (fun s => emitted_words s = [] /\ elog s = []).
Proof. vm_compute. repeat split. Qed.

(** ** C1 *)

(** C1, as stated, fails on blocks the two 16-bit fields cannot describe.
    After 32765 one-word lines the pending block has 65530 data bytes and
    is written with length field 0, not 65536.  After [= 177776], [000001],
    [: 177776] the next block has origin 0200000 and is written with address
    field 0.  Neither run reports an error. *)
Lemma block_fields_wrap :
  (in_loop st_full /\ elog st_full = [] /\ have_blk st_full = true /\
   Z.of_nat (List.length (data st_full)) = 65530 /\
   write_abs ABS_BLK st_full = Ok (flushed ABS_BLK st_full) /\
   fwp (flushed ABS_BLK st_full) =
     fwp st_full ++ [image (org st_full) (data st_full)] /\
   f_len (image (org st_full) (data st_full)) = 0 /\
   f_len (image (org st_full) (data st_full)) <>
     Z.of_nat (List.length (data st_full)) + 6) /\
  (run_lines [] (text ["= 177776"; "000001"; ": 177776"; "000002"])
     = Ok st_high /\
   elog st_high = [] /\ have_blk st_high = true /\ org st_high = 65536 /\
   write_abs ABS_BLK st_high = Ok (flushed ABS_BLK st_high) /\
   fwp (flushed ABS_BLK st_high) =
     fwp st_high ++ [image (org st_high) (data st_high)] /\
   f_addr (image (org st_high) (data st_high)) = 0 /\
   f_addr (image (org st_high) (data st_high)) <> org st_high).
Proof.
  assert (L : Z.of_nat (List.length (data st_full)) = 65530).
  { unfold st_full. rewrite zeros_data_length, Z2Nat.id; lia. }
  assert (F : f_len (image (org st_full) (data st_full)) = 0).
  { rewrite image_f_len, L. reflexivity. }
  split.
  - split; [|split; [|split; [|split; [|split; [|split; [|split]]]]]].
    + apply in_loop_zeros. rewrite Z2Nat.id by lia. unfold NBLK. lia.
    + reflexivity.
    + vm_compute. reflexivity.
    + exact L.
    + apply write_abs_emit; [vm_compute; reflexivity|].
      rewrite L. unfold NBLK. lia.
    + reflexivity.
    + exact F.
    + rewrite F, L. lia.
  - split; [vm_compute; reflexivity|].
    split; [reflexivity|]. split; [reflexivity|]. split; [reflexivity|].
    split; [vm_compute; reflexivity|]. split; [reflexivity|].
    split; [vm_compute; reflexivity|]. vm_compute. discriminate.
Qed.

(** C1 (amended).  Every block [write_abs] writes is, in order: the two
    bytes of the signature 1; the two bytes, low byte first, of the length
    field, which holds (number of data bytes + 6) modulo 2^16, that is the
    number of data bytes plus 6 for every block of at most 65529 data bytes;
    the two bytes, low byte first, of the address field, which holds the
    origin of the block (1 for the halt block) modulo 2^16, that is the
    origin itself whenever it is at most 0177777; the data bytes; and one
    checksum byte, with which the sum of all bytes of the block is a
    multiple of 256. *)
Theorem write_abs_block_layout (type : abs_t) (s : state) :
  emits type s = true ->
  Z.of_nat (List.length (data s)) < NBLK ->
  exists (s' : state) (img : list Z),
    write_abs type s = Ok s' /\
    fwp s' = fwp s ++ [img] /\
    img = writeHL_le 1 ++
          writeHL_le (Z.of_nat (List.length (data s)) + 6) ++
          writeHL_le (org_of type s) ++ data s ++ [f_cksum img] /\
    f_sig img = 1 /\
    f_len img = (Z.of_nat (List.length (data s)) + 6) mod 2 ^ 16 /\
    (Z.of_nat (List.length (data s)) <= 65529 ->
     f_len img = Z.of_nat (List.length (data s)) + 6) /\
    f_addr img = org_of type s mod 2 ^ 16 /\
    (0 <= org_of type s <= 65535 -> f_addr img = org_of type s) /\
    f_data img = data s /\
    0 <= f_cksum img < 256 /\
    sum_bytes img mod 256 = 0.
Proof.
  intros He Hl.
  exists (flushed type s), (image (org_of type s) (data s)).
  split; [now apply write_abs_emit|]. split; [reflexivity|].
  split.
  { rewrite image_shape at 1. do 4 f_equal.
    rewrite image_shape. unfold f_cksum.
    now rewrite !app_assoc, last_last. }
  split; [apply image_f_sig|]. split; [apply image_f_len|].
  split; [intros B; rewrite image_f_len; apply Z.mod_small; lia|].
  split; [apply image_f_addr|].
  split; [intros B; rewrite image_f_addr; apply Z.mod_small; lia|].
  split; [apply image_f_data|]. split; [apply image_f_cksum|].
  apply image_sum.
Qed.

Lemma write_abs_block_layout_witness :
  exists (s' : state) (img : list Z),
    write_abs ABS_HALT (init []) = Ok s' /\
    fwp s' = [] ++ [img] /\
    img = writeHL_le 1 ++ writeHL_le (0 + 6) ++ writeHL_le 1 ++ [] ++
          [f_cksum img] /\
    f_sig img = 1 /\
    f_len img = (0 + 6) mod 2 ^ 16 /\
    (0 <= 65529 -> f_len img = 0 + 6) /\
    f_addr img = 1 mod 2 ^ 16 /\
    (0 <= 1 <= 65535 -> f_addr img = 1) /\
    f_data img = [] /\
    0 <= f_cksum img < 256 /\
    sum_bytes img mod 256 = 0.
Proof.
  apply (write_abs_block_layout ABS_HALT (init [])).
  - reflexivity.
  - vm_compute. reflexivity.
Defined.

(** * Further properties of the program *)

(** ** The line loop and [fgets] *)

Lemma main_loop_enough (fuel : nat) (frp : string) (s : state) :
  (String.length frp <= fuel)%nat ->
  main_loop fuel frp s = run_from frp s.
Proof.
  unfold run_from.
  remember (String.length frp) as n eqn:En.
  revert fuel frp s En.
  induction n as [n IH] using lt_wf_ind. intros fuel frp s En Hf.
  destruct frp as [|c t]; [destruct fuel, n; reflexivity|].
  cbn [String.length] in En. subst n.
  destruct fuel as [|fuel]; [cbn in Hf; lia|].
  cbn [main_loop]. unfold NBUF.
  destruct (fgets 256 (String c t)) as [buf rest] eqn:Ef.
  pose proof (fgets_progress _ _ _ _ _ Ef) as Hp.
  cbn [String.length] in Hp, Hf.
  destruct (do_line buf s) as [s1|f]; [|reflexivity].
  cbn [bind].
  rewrite (IH (String.length rest)) with (fuel := fuel) by (try reflexivity; lia).
  rewrite (IH (String.length rest)) with (fuel := String.length t)
    by (try reflexivity; lia).
  reflexivity.
Qed.

Lemma text_char_spec (c : ascii) :
  text_char c = true ->
  Ascii.eqb c Ascii.zero = false /\ Ascii.eqb c newline = false.
Proof.
  unfold text_char. intros H. apply andb_true_iff in H. destruct H as [A B].
  apply negb_true_iff in A. apply negb_true_iff in B. now split.
Qed.

Lemma fits_spec (l : string) :
  fits l = true ->
  all_chars text_char l = true /\ (String.length l < 255)%nat.
Proof.
  unfold fits, NBUF. intros H. apply andb_true_iff in H. destruct H as [A B].
  apply Nat.ltb_lt in B. split; [assumption|]. cbn in B. lia.
Qed.

(** [fgets] reads a line with its newline when they fit the buffer. *)
Lemma fgets_whole (n : nat) (l rest : string) :
  all_chars text_char l = true ->
  (String.length l + 2 <= n)%nat ->
  fgets n (String.append (line l) rest) = (line l, rest).
Proof.
  revert n. induction l as [|c l IH]; intros n Hc Hn.
  - destruct n as [|[|n]]; cbn in Hn; try lia. reflexivity.
  - destruct n as [|[|n]]; cbn [String.length] in Hn; try lia.
    cbn [all_chars] in Hc. apply andb_true_iff in Hc. destruct Hc as [C Hc].
    apply text_char_spec in C. destruct C as [_ C].
    cbn [line String.append]. rewrite fgets_step, C.
    fold (line l). rewrite IH by (try assumption; lia). reflexivity.
Qed.

(** [fgets] stops after [n - 1] characters when no newline came. *)
Lemma fgets_full (n : nat) (l rest : string) :
  all_chars text_char l = true ->
  String.length l = n ->
  fgets (S n) (String.append l rest) = (l, rest).
Proof.
  revert n. induction l as [|c l IH]; intros n Hc Hn.
  - cbn in Hn. subst n. reflexivity.
  - cbn [String.length] in Hn. destruct n as [|n]; [discriminate|].
    cbn [all_chars] in Hc. apply andb_true_iff in Hc. destruct Hc as [C Hc].
    apply text_char_spec in C. destruct C as [_ C].
    cbn [String.append]. rewrite fgets_step, C.
    rewrite IH by (try assumption; lia). reflexivity.
Qed.

(** [fgets] reads what is left of the stream when it has no newline and
    fits. *)
Lemma fgets_rest (n : nat) (l : string) :
  all_chars text_char l = true ->
  (String.length l < n)%nat ->
  fgets n l = (l, EmptyString).
Proof.
  revert n. induction l as [|c l IH]; intros n Hc Hn.
  - destruct n as [|[|n]]; reflexivity.
  - destruct n as [|[|n]]; cbn [String.length] in Hn; try lia.
    cbn [all_chars] in Hc. apply andb_true_iff in Hc. destruct Hc as [C Hc].
    apply text_char_spec in C. destruct C as [_ C].
    rewrite fgets_step, C.
    rewrite IH by (try assumption; lia). reflexivity.
Qed.

Lemma length_append (a b : string) :
  String.length (String.append a b) = (String.length a + String.length b)%nat.
Proof. induction a as [|c a IH]; cbn; [reflexivity|now rewrite IH]. Qed.

Lemma run_from_step (frp buf rest : string) (s : state) :
  frp <> "" ->
  fgets NBUF frp = (buf, rest) ->
  run_from frp s = (s1 <- do_line buf s ;; run_from rest s1).
Proof.
  intros Hn Hf. unfold run_from at 1.
  destruct frp as [|c t]; [contradiction|].
  cbn [String.length main_loop]. rewrite Hf.
  destruct (do_line buf s) as [s1|f]; [|reflexivity]. cbn [bind].
  apply main_loop_enough.
  unfold NBUF in Hf. apply fgets_progress in Hf. cbn [String.length] in Hf. lia.
Qed.

Lemma line_not_empty (l rest : string) : String.append (line l) rest <> "".
Proof. destruct l; discriminate. Qed.

(** A line that fits is one turn of the loop. *)
Lemma run_from_line (l rest : string) (s : state) :
  fits l = true ->
  run_from (String.append (line l) rest) s =
  (s1 <- do_line (line l) s ;; run_from rest s1).
Proof.
  intros H. apply fits_spec in H. destruct H as [Hc Hl].
  apply run_from_step; [apply line_not_empty|].
  apply fgets_whole; [assumption|]. unfold NBUF. lia.
Qed.

Lemma text_cons (l : string) (ls : list string) :
  text (l :: ls) = String.append (line l) (text ls).
Proof.
  cbn [text fold_right]. fold (text ls). unfold line.
  now rewrite append_assoc.
Qed.

Lemma bind_assoc {A B C : Type} (r : res A) (f : A -> res B) (g : B -> res C) :
  bind (bind r f) g = bind r (fun a => bind (f a) g).
Proof. destruct r; reflexivity. Qed.

Lemma do_lines_app (a b : list string) (s : state) :
  do_lines (a ++ b) s = (s1 <- do_lines a s ;; do_lines b s1).
Proof.
  revert s. induction a as [|x a IH]; intros s; [reflexivity|].
  cbn [app do_lines]. destruct (do_line x s) as [s1|f]; [|reflexivity].
  cbn [bind]. apply IH.
Qed.

(** Lines that fit are read one per turn, in order. *)
Lemma run_from_text (ls : list string) (rest : string) (s : state) :
  forallb fits ls = true ->
  run_from (String.append (text ls) rest) s =
  (s1 <- do_lines (map line ls) s ;; run_from rest s1).
Proof.
  revert s. induction ls as [|l ls IH]; intros s H.
  - reflexivity.
  - cbn [forallb] in H. apply andb_true_iff in H. destruct H as [Hl H].
    rewrite text_cons, append_assoc, run_from_line by assumption.
    cbn [map do_lines]. destruct (do_line (line l) s) as [s1|f]; [|reflexivity].
    cbn [bind]. now apply IH.
Qed.

Lemma run_from_empty (s : state) : run_from "" s = Ok s.
Proof. reflexivity. Qed.

Lemma bind_ok {A : Type} (r : res A) : bind r Ok = r.
Proof. destruct r; reflexivity. Qed.

Lemma run_lines_text (defs : list string) (ls : list string) :
  forallb fits ls = true ->
  run_lines defs (text ls) = do_lines (map line ls) (init defs).
Proof.
  intros H. unfold run_lines. fold (run_from (text ls) (init defs)).
  rewrite <- (append_empty_r (text ls)), run_from_text by assumption.
  destruct (do_lines (map line ls) (init defs)); reflexivity.
Qed.

(** ** One turn of the loop, by cases *)

Lemma Ok_inj {A : Type} (a b : A) : Ok a = Ok b -> a = b.
Proof. intros H. now injection H. Qed.

Lemma do_active_step (bp : string) (s s' : state) :
  ignore_input s = 0 ->
  do_active bp s = Ok s' -> line_step s s'.
Proof.
  unfold do_active. intros Hi H.
  destruct (sscanf_s "#define" bp) as [d|].
  { destruct (Z.leb_spec DEF_S_LEN (Z.of_nat (String.length d)));
      [discriminate|].
    eapply step_define; eassumption. }
  destruct (prefix "#error" bp).
  { apply Ok_inj in H; subst s'. now apply step_error. }
  destruct (prefix "#warning" bp).
  { apply Ok_inj in H; subst s'. now apply step_note. }
  destruct (sscanf_o "=" bp) as [v|] eqn:E1.
  { apply sscanf_o_u4 in E1. apply (step_op s (OpOrg v)); auto.
    discriminate. }
  destruct (sscanf_o "::" bp) as [v|] eqn:E2.
  { apply sscanf_o_u4 in E2. apply (step_op s (OpChk2 v)); auto.
    discriminate. }
  destruct (sscanf_o ":" bp) as [v|] eqn:E3.
  { apply sscanf_o_u4 in E3. apply (step_op s (OpChk1 v)); auto.
    discriminate. }
  destruct (sscanf_o "b" bp) as [v|] eqn:E4.
  { apply sscanf_o_u4 in E4. apply (step_op s (OpByte v)); auto.
    discriminate. }
  apply (step_op s (OpWords (sscanf_ooo bp))); auto.
  - apply sscanf_ooo_u4.
  - discriminate.
Qed.

Lemma do_line_step (buf : string) (s s' : state) :
  do_line buf s = Ok s' -> line_step (set_lnum (lnum s + 1) s) s'.
Proof.
  unfold do_line. intros H.
  set (s1 := set_lnum (lnum s + 1) s) in *.
  destruct (cstr buf) as [|c b]; [discriminate|].
  cbv beta iota zeta in H.
  head_if H; [apply Ok_inj in H; subst s'; apply step_skip|].
  head_if H; [apply Ok_inj in H; subst s'; apply step_else|].
  head_if H; [apply Ok_inj in H; subst s'; apply step_endif|].
  head_if H; [apply Ok_inj in H; subst s'; apply step_if|].
  head_if H; [apply Ok_inj in H; subst s'; apply step_if|].
  destruct (sscanf_s "#ifdef" _) as [d|].
  { destruct (Z.leb_spec DEF_S_LEN (Z.of_nat (String.length d)));
      [discriminate|].
    apply Ok_inj in H; subst s'. now apply step_ifdef. }
  destruct (Z.eqb_spec (ignore_input s1) 0) as [Hi|Hi]; cbn [negb] in H.
  - now apply do_active_step in H.
  - apply Ok_inj in H; subst s'. apply step_skip.
Qed.

(** ** The error log *)

Lemma logs_refl (s : state) : logs [] s s.
Proof.
  unfold logs. cbn. rewrite app_nil_r, orb_false_r. repeat split; lia.
Qed.

Lemma logs_trans (l1 l2 : list err_t) (a b c : state) :
  logs l1 a b -> logs l2 b c -> logs (l1 ++ l2) a c.
Proof.
  unfold logs. intros (E1 & N1 & L1 & R1) (E2 & N2 & L2 & R2).
  rewrite E2, N2, L2, R2, E1, N1, L1, R1, map_app, length_app, app_assoc.
  repeat split; try lia.
  destruct (rm a), l1, l2; reflexivity.
Qed.

Lemma logs_error (e : err_t) (s : state) : logs [e] s (error e s).
Proof.
  unfold logs, error. cbn. rewrite orb_true_r. repeat split.
Qed.

Lemma logs_error_if (c : bool) (e : err_t) (s : state) :
  logs (if c then [e] else []) s (error_if c e s).
Proof. destruct c; [apply logs_error|apply logs_refl]. Qed.

(** States that differ in neither counter nor log. *)
Lemma logs_same (s s' : state) :
  elog s' = elog s -> errs s' = errs s -> lnum s' = lnum s -> rm s' = rm s ->
  logs [] s s'.
Proof.
  intros E N L R. unfold logs. rewrite E, N, L, R. cbn.
  rewrite app_nil_r, orb_false_r. repeat split; lia.
Qed.

Lemma logs_write_abs (type : abs_t) (s s' : state) :
  write_abs type s = Ok s' -> logs [] s s'.
Proof.
  intros H. apply write_abs_inv in H.
  destruct H as [[_ ->]|(_ & _ & ->)]; [apply logs_refl|].
  now apply logs_same.
Qed.

Lemma logs_put (v : Z) (s s' : state) : put v s = Ok s' -> logs [] s s'.
Proof.
  intros H. apply put_inv in H. destruct H as [_ ->]. now apply logs_same.
Qed.

Lemma logs_words_checked (ws : list Z) (s : state) :
  logs (word_errors ws (pc s)) s (words_checked ws s).
Proof.
  unfold words_checked, word_errors.
  eapply logs_trans; [apply logs_error_if|].
  eapply logs_trans; [apply logs_error_if|].
  eapply logs_trans; [apply logs_error_if|].
  match goal with
  | |- logs _ ?a (error_if (negb (Z.land (pc ?b) 1 =? 0)) _ _) =>
      replace (pc b) with (pc s)
        by (unfold error_if;
            repeat match goal with
                   | |- context [if ?c then _ else _] => destruct c
                   end; reflexivity)
  end.
  rewrite <- (app_nil_r (if negb _ then _ else _)).
  eapply logs_trans; [apply logs_error_if|apply logs_refl].
Qed.

Lemma logs_words_done (ws : list Z) (s : state) :
  logs (word_errors ws (pc s)) s (words_done ws s).
Proof.
  destruct (logs_words_checked ws s) as (E & N & L & R).
  unfold logs, words_done. fields. now repeat split.
Qed.

(** The errors an operation reports. *)
Lemma logs_run_op (o : op) (s s' : state) :
  run_op o s = Ok s' -> exists l, logs l s s'.
Proof.
  destruct o as [v|v|v|v|ws|type]; cbn [run_op]; intros H.
  - unfold do_org in H.
    destruct (write_abs ABS_BLK s) as [s1|] eqn:W; [|discriminate].
    cbn [bind] in H. apply Ok_inj in H. subst s'.
    exists ([] ++ (if 65535 <? v then [E_range_norg] else []) ++ []).
    eapply logs_trans; [eapply logs_write_abs; exact W|].
    eapply logs_trans; [apply logs_error_if|].
    now apply logs_same.
  - rewrite do_chk2_eq in H. unfold chk2_checked in H.
    eexists. eapply logs_trans; [apply logs_error_if|].
    eapply logs_trans; [apply logs_error_if|].
    eapply logs_write_abs; exact H.
  - rewrite do_chk1_eq in H. unfold chk1_checked in H.
    eexists. eapply logs_trans; [apply logs_error_if|].
    eapply logs_trans; [apply logs_error_if|].
    eapply logs_write_abs; exact H.
  - pose proof (do_byte_inv _ _ _ H) as Hr.
    rewrite do_byte_ok in H by assumption. apply Ok_inj in H. subst s'.
    eexists. eapply logs_trans; [apply logs_error_if|].
    now apply logs_same.
  - apply do_words_inv in H. destruct H as [[_ ->]|(_ & _ & ->)].
    + eexists. apply logs_error.
    + eexists. apply logs_words_done.
  - eexists. eapply logs_write_abs; exact H.
Qed.

(** What no operation touches. *)
Lemma env_error_if (c : bool) (e : err_t) (s : state) :
  same_env s (error_if c e s).
Proof. destruct c; repeat split. Qed.

Lemma env_trans (a b c : state) : same_env a b -> same_env b c -> same_env a c.
Proof. unfold same_env. intuition congruence. Qed.

Lemma env_write_abs (type : abs_t) (s s' : state) :
  write_abs type s = Ok s' -> same_env s s'.
Proof.
  intros H. apply write_abs_inv in H.
  destruct H as [[_ ->]|(_ & _ & ->)]; repeat split.
Qed.

Lemma env_words_checked (ws : list Z) (s : state) :
  same_env s (words_checked ws s).
Proof.
  unfold words_checked.
  eapply env_trans; [apply env_error_if|].
  eapply env_trans; [apply env_error_if|].
  eapply env_trans; [apply env_error_if|].
  apply env_error_if.
Qed.

Lemma env_words_done (ws : list Z) (s : state) : same_env s (words_done ws s).
Proof.
  eapply env_trans; [apply (env_words_checked ws)|].
  unfold words_done. repeat split.
Qed.

Lemma env_run_op (o : op) (s s' : state) :
  run_op o s = Ok s' -> same_env s s'.
Proof.
  destruct o as [v|v|v|v|ws|type]; cbn [run_op]; intros H.
  - unfold do_org in H.
    destruct (write_abs ABS_BLK s) as [s1|] eqn:W; [|discriminate].
    cbn [bind] in H. apply Ok_inj in H. subst s'.
    eapply env_trans; [eapply env_write_abs; exact W|].
    eapply env_trans; [apply (env_error_if (65535 <? v) E_range_norg)|].
    repeat split.
  - rewrite do_chk2_eq in H. unfold chk2_checked in H.
    eapply env_trans; [|eapply env_write_abs; exact H].
    eapply env_trans; apply env_error_if.
  - rewrite do_chk1_eq in H. unfold chk1_checked in H.
    eapply env_trans; [|eapply env_write_abs; exact H].
    eapply env_trans; apply env_error_if.
  - pose proof (do_byte_inv _ _ _ H) as Hr.
    rewrite do_byte_ok in H by assumption. apply Ok_inj in H. subst s'.
    eapply env_trans; [apply (env_error_if (255 <? v) E_range_b)|].
    repeat split.
  - apply do_words_inv in H. destruct H as [[_ ->]|(_ & _ & ->)].
    + repeat split.
    + apply env_words_done.
  - eapply env_write_abs; exact H.
Qed.

(** The errors one line reports; a note is printed by [#warning] alone. *)
Lemma logs_line_step (s s' : state) :
  line_step s s' ->
  (exists l, logs l s s') /\
  (notes s' = notes s \/ notes s' = notes s ++ [lnum s]).
Proof.
  intros H. split.
  - destruct H as [| | |b|d Hd|d s' Hi Hd H| | |o s' Hi Hu Hf H].
    + eexists. apply logs_refl.
    + unfold do_else. destruct (_ =? 0).
      * eexists. apply logs_error.
      * eexists. now apply logs_same.
    + unfold do_endif. eexists.
      eapply logs_trans; [|apply logs_error_if]. now apply logs_same.
    + exists []. unfold do_if. destruct b; now apply logs_same.
    + exists []. unfold do_ifdef. destruct (negb _); now apply logs_same.
    + exists []. unfold do_define in H.
      destruct (N_IFDEFS <=? _); [discriminate|].
      apply Ok_inj in H. subst s'. now apply logs_same.
    + eexists. apply logs_error.
    + exists []. now apply logs_same.
    + eapply logs_run_op; eassumption.
  - destruct H as [| | |b|d Hd|d s' Hi Hd H| | |o s' Hi Hu Hf H];
      try (left; reflexivity).
    + left. unfold do_else. destruct (_ =? 0); reflexivity.
    + left. unfold do_endif, error_if. destruct (_ =? 0); reflexivity.
    + left. unfold do_if. destruct b; reflexivity.
    + left. unfold do_ifdef. destruct (negb _); reflexivity.
    + left. unfold do_define in H.
      destruct (N_IFDEFS <=? _); [discriminate|].
      apply Ok_inj in H. subst s'. reflexivity.
    + right. reflexivity.
    + left. apply env_run_op in H. apply H.
Qed.

Lemma sorted_snoc (l : list Z) (x : Z) :
  Sorted Z.le l -> Forall (fun a => a <= x) l -> Sorted Z.le (l ++ [x]).
Proof.
  induction 1 as [|a l S IH Hd]; intros F; cbn [app].
  - repeat constructor.
  - inversion F as [|? ? Ha Fl]; subst. constructor; [now apply IH|].
    destruct l as [|b l]; cbn [app]; constructor; [assumption|].
    now inversion Hd.
Qed.

Lemma sorted_app_const (l : list Z) (x : Z) (n : nat) :
  Sorted Z.le l -> Forall (fun a => a <= x) l ->
  Sorted Z.le (l ++ repeat x n).
Proof.
  revert l. induction n as [|n IH]; intros l S F; cbn [repeat].
  - now rewrite app_nil_r.
  - change (x :: repeat x n) with ([x] ++ repeat x n). rewrite app_assoc.
    apply IH; [now apply sorted_snoc|].
    apply Forall_app. split; [assumption|]. repeat constructor. lia.
Qed.

Lemma map_fst_pair (n : Z) (l : list err_t) :
  map fst (map (pair n) l) = repeat n (List.length l).
Proof. induction l as [|e l IH]; cbn; [reflexivity|now rewrite IH]. Qed.

Lemma log_inv_init (defs : list string) : log_inv (init defs).
Proof.
  unfold log_inv. cbn. repeat split; try constructor; try congruence; lia.
Qed.

Lemma log_inv_step (s s' : state) :
  log_inv s -> line_step (set_lnum (lnum s + 1) s) s' -> log_inv s'.
Proof.
  intros (Hn & He & Hr & Hb & Ht & Hs) H.
  apply logs_line_step in H. destruct H as [[l (E & N & L & R)] Hnt].
  cbn [set_lnum lnum errs elog rm notes] in E, N, L, R, Hnt.
  unfold log_inv. rewrite E, N, L, R.
  split; [lia|]. split; [rewrite length_app, length_map; lia|].
  split.
  { destruct l as [|e l]; cbn [List.length Nat.eqb negb map].
    - now rewrite orb_false_r, app_nil_r.
    - rewrite orb_true_r. split; [|reflexivity].
      intros _ A. apply app_eq_nil in A. destruct A; discriminate. }
  split.
  { apply Forall_app. split.
    - eapply Forall_impl; [|exact Hb]. cbn beta. intros; lia.
    - apply Forall_forall. intros x Hx. apply in_map_iff in Hx.
      destruct Hx as (e & <- & _). cbn [fst]. lia. }
  split.
  { destruct Hnt as [->| ->].
    - eapply Forall_impl; [|exact Ht]. cbn beta. intros; lia.
    - apply Forall_app. split.
      + eapply Forall_impl; [|exact Ht]. cbn beta. intros; lia.
      + repeat constructor; lia. }
  rewrite map_app, map_fst_pair. apply sorted_app_const; [assumption|].
  apply Forall_map. eapply Forall_impl; [|exact Hb]. cbn beta. intros; lia.
Qed.

Lemma in_loop_log_inv (s : state) : in_loop s -> log_inv s.
Proof.
  induction 1 as [defs Hd|buf s s' _ IH H].
  - apply log_inv_init.
  - apply do_line_step in H. eapply log_inv_step; eassumption.
Qed.

Lemma log_inv_write_abs (type : abs_t) (s s' : state) :
  log_inv s -> write_abs type s = Ok s' -> log_inv s'.
Proof.
  intros I H. pose proof (env_write_abs _ _ _ H) as (Nt & _).
  apply logs_write_abs in H. destruct H as (E & N & L & R).
  cbn [map List.length Nat.eqb negb] in E, N, R.
  rewrite app_nil_r in E. rewrite orb_false_r in R.
  unfold log_inv. rewrite E, N, L, R, Nt.
  replace (errs s + Z.of_nat 0) with (errs s) by lia. exact I.
Qed.

Lemma reachable_log_inv (s : state) : reachable s -> log_inv s.
Proof.
  destruct 1 as [s H|s s1 H W|s s1 s2 H W1 W2].
  - now apply in_loop_log_inv.
  - eapply log_inv_write_abs; [|exact W]. now apply in_loop_log_inv.
  - eapply log_inv_write_abs; [|exact W2].
    eapply log_inv_write_abs; [|exact W1]. now apply in_loop_log_inv.
Qed.

(** ** The addresses of the pending block *)

Lemma addr_inv_same (s s' : state) : same_blk s s' -> addr_inv s -> addr_inv s'.
Proof.
  unfold same_blk, addr_inv. intros (_ & D & O & P & _) (Ho & Hp).
  rewrite D, O, P. now split.
Qed.

Lemma addr_inv_idle (s : state) :
  is_u4 (pc s) -> org s = pc s -> data s = [] -> addr_inv s.
Proof.
  intros Hp Ho Hd. unfold addr_inv. rewrite Ho, Hd. split; [assumption|].
  cbn [List.length]. rewrite Z.add_0_r. symmetry. now apply u4_small.
Qed.

Lemma addr_inv_pc (s : state) : addr_inv s -> is_u4 (pc s).
Proof. intros (_ & ->). apply u4_range. Qed.

Lemma addr_inv_write_abs (type : abs_t) (s s' : state) :
  addr_inv s -> write_abs type s = Ok s' -> addr_inv s'.
Proof.
  intros I H. pose proof (addr_inv_pc _ I) as Hp.
  apply write_abs_inv in H.
  destruct H as [[_ ->]|(_ & _ & ->)]; [assumption|].
  apply addr_inv_idle; [exact Hp|reflexivity|reflexivity].
Qed.

Lemma addr_inv_append (s s' : state) (k : Z) (l : list Z) :
  addr_inv s -> org s' = org s -> data s' = data s ++ l ->
  Z.of_nat (List.length l) = k -> pc s' = u4 (pc s + k) -> addr_inv s'.
Proof.
  intros (Ho & Hp) O D L P. unfold addr_inv.
  rewrite O, D, P, Hp, length_app, u4_add_l. split; [assumption|].
  f_equal. lia.
Qed.

Lemma addr_inv_run_op (o : op) (s s' : state) :
  op_u4 o -> blk_inv s -> addr_inv s -> run_op o s = Ok s' -> addr_inv s'.
Proof.
  intros Hu Hb I H. pose proof (addr_inv_pc _ I) as Hp.
  destruct o as [v|v|v|v|ws|type]; cbn [run_op op_u4] in *.
  - unfold do_org in H.
    destruct (write_abs ABS_BLK s) as [s1|] eqn:W; [|discriminate].
    cbn [bind] in H. apply Ok_inj in H. subst s'.
    assert (D : data s1 = []).
    { pose proof (blk_inv_write_abs _ _ _ Hb W) as [B1 B2].
      apply write_abs_inv in W. destruct W as [[W ->]|(_ & _ & ->)].
      - cbn [emits] in W. destruct Hb as [Hb _].
        destruct (data s) as [|x d]; [reflexivity|].
        destruct Hb as [_ Hb]. rewrite Hb in W; discriminate.
      - reflexivity. }
    apply addr_inv_idle.
    + exact Hu.
    + reflexivity.
    + fields. destruct (65535 <? v); exact D.
  - rewrite do_chk2_eq in H. eapply addr_inv_write_abs; [|exact H].
    eapply addr_inv_same; [apply same_blk_chk2_checked|exact I].
  - rewrite do_chk1_eq in H. eapply addr_inv_write_abs; [|exact H].
    eapply addr_inv_same; [apply same_blk_chk1_checked|exact I].
  - pose proof (do_byte_inv _ _ _ H) as Hr.
    rewrite do_byte_ok in H by assumption. apply Ok_inj in H. subst s'.
    apply (addr_inv_append s _ 1 [u1 v]); try exact I; try reflexivity;
      fields; destruct (255 <? v); reflexivity.
  - apply do_words_inv in H. destruct H as [[_ ->]|(Hn & _ & ->)].
    + exact I.
    + destruct (words_done_facts ws s) as (D & P & _ & O & _).
      apply (addr_inv_append s _ (2 * Z.of_nat (List.length ws))
                             (flat_map word_bytes ws));
        try assumption.
      apply flat_map_word_bytes_length.
  - eapply addr_inv_write_abs; eassumption.
Qed.

Lemma in_loop_addr_inv (s : state) : in_loop s -> addr_inv s.
Proof.
  induction 1 as [defs Hd|buf s s' L IH H].
  - apply addr_inv_idle; [cbn; unfold is_u4; lia|reflexivity|reflexivity].
  - pose proof (in_loop_blk_inv _ L) as Hb.
    apply do_line_cases in H.
    destruct H as [H|(o & s1 & H1 & Hu & _ & _ & H2)].
    + eapply addr_inv_same; eassumption.
    + eapply addr_inv_run_op; [exact Hu| | |exact H2].
      * eapply blk_inv_same; eassumption.
      * eapply addr_inv_same; eassumption.
Qed.

Lemma reachable_addr_inv (s : state) : reachable s -> addr_inv s.
Proof.
  destruct 1 as [s H|s s1 H W|s s1 s2 H W1 W2].
  - now apply in_loop_addr_inv.
  - eapply addr_inv_write_abs; [|exact W]. now apply in_loop_addr_inv.
  - eapply addr_inv_write_abs; [|exact W2].
    eapply addr_inv_write_abs; [|exact W1]. now apply in_loop_addr_inv.
Qed.

(** ** The bytes written *)

Lemma writeHL_le_bytes (w : Z) : Forall is_byte (writeHL_le w).
Proof.
  unfold writeHL_le.
  constructor; [apply land_255_byte|].
  constructor; [apply land_255_byte|constructor].
Qed.

Lemma word_bytes_bytes (w : Z) : Forall is_byte (word_bytes w).
Proof. apply writeHL_le_bytes. Qed.

Lemma image_well_formed (org0 : Z) (d : list Z) :
  Forall is_byte d -> Z.of_nat (List.length d) < NBLK ->
  well_formed (image org0 d).
Proof.
  intros Hd Hl. unfold well_formed.
  split.
  { rewrite image_shape, !Forall_app.
    repeat split; try apply writeHL_le_bytes; try assumption.
    constructor; [apply u1_byte|constructor]. }
  rewrite image_length. split; [lia|].
  split; [apply image_f_sig|]. split; [|apply image_sum].
  rewrite image_f_len. f_equal. lia.
Qed.

Lemma bytes_inv_eq (s s' : state) :
  data s' = data s -> fwp s' = fwp s -> bytes_inv s -> bytes_inv s'.
Proof. unfold bytes_inv. intros -> ->. auto. Qed.

Lemma bytes_inv_same (s s' : state) :
  same_blk s s' -> bytes_inv s -> bytes_inv s'.
Proof. intros (_ & D & _ & _ & F). now apply bytes_inv_eq. Qed.

Lemma bytes_inv_write_abs (type : abs_t) (s s' : state) :
  bytes_inv s -> write_abs type s = Ok s' -> bytes_inv s'.
Proof.
  intros [Hd Hf] H. apply write_abs_inv in H.
  destruct H as [[_ ->]|(_ & Hl & ->)]; [now split|].
  split; [constructor|]. cbn [fwp flushed].
  apply Forall_app. split; [assumption|].
  constructor; [now apply image_well_formed|constructor].
Qed.

Lemma bytes_inv_append (s s' : state) (l : list Z) :
  bytes_inv s -> Forall is_byte l -> data s' = data s ++ l ->
  fwp s' = fwp s -> bytes_inv s'.
Proof.
  intros [Hd Hf] Hl D F. unfold bytes_inv. rewrite D, F.
  split; [|assumption]. apply Forall_app. now split.
Qed.

Lemma bytes_inv_run_op (o : op) (s s' : state) :
  bytes_inv s -> run_op o s = Ok s' -> bytes_inv s'.
Proof.
  intros I H.
  destruct o as [v|v|v|v|ws|type]; cbn [run_op] in *.
  - unfold do_org in H.
    destruct (write_abs ABS_BLK s) as [s1|] eqn:W; [|discriminate].
    cbn [bind] in H. apply Ok_inj in H. subst s'.
    apply bytes_inv_write_abs in W; [|exact I].
    eapply bytes_inv_eq; [| |exact W]; fields;
      destruct (65535 <? v); reflexivity.
  - rewrite do_chk2_eq in H. eapply bytes_inv_write_abs; [|exact H].
    eapply bytes_inv_same; [apply same_blk_chk2_checked|exact I].
  - rewrite do_chk1_eq in H. eapply bytes_inv_write_abs; [|exact H].
    eapply bytes_inv_same; [apply same_blk_chk1_checked|exact I].
  - pose proof (do_byte_inv _ _ _ H) as Hr.
    rewrite do_byte_ok in H by assumption. apply Ok_inj in H. subst s'.
    apply (bytes_inv_append s _ [u1 v]); try exact I.
    + constructor; [apply u1_byte|constructor].
    + fields. destruct (255 <? v); reflexivity.
    + fields. destruct (255 <? v); reflexivity.
  - apply do_words_inv in H. destruct H as [[_ ->]|(Hn & _ & ->)].
    + exact I.
    + destruct (words_done_facts ws s) as (D & _ & _ & _ & F & _).
      apply (bytes_inv_append s _ (flat_map word_bytes ws)); try assumption.
      apply Forall_flat_map. apply Forall_forall. intros w _.
      apply word_bytes_bytes.
  - eapply bytes_inv_write_abs; eassumption.
Qed.

Lemma in_loop_bytes_inv (s : state) : in_loop s -> bytes_inv s.
Proof.
  induction 1 as [defs Hd|buf s s' L IH H].
  - split; constructor.
  - apply do_line_cases in H.
    destruct H as [H|(o & s1 & H1 & Hu & _ & _ & H2)].
    + eapply bytes_inv_same; eassumption.
    + eapply bytes_inv_run_op; [|exact H2].
      eapply bytes_inv_same; eassumption.
Qed.

Lemma reachable_bytes_inv (s : state) : reachable s -> bytes_inv s.
Proof.
  destruct 1 as [s H|s s1 H W|s s1 s2 H W1 W2].
  - now apply in_loop_bytes_inv.
  - eapply bytes_inv_write_abs; [|exact W]. now apply in_loop_bytes_inv.
  - eapply bytes_inv_write_abs; [|exact W2].
    eapply bytes_inv_write_abs; [|exact W1]. now apply in_loop_bytes_inv.
Qed.

(** ** The bits of the conditional words *)

Lemma testbit_small (x j n : Z) :
  0 <= x < 2 ^ j -> j <= n -> Z.testbit x n = false.
Proof.
  intros Hx Hn. destruct (Z.eq_dec x 0) as [->|N]; [apply Z.bits_0|].
  apply Z.bits_above_log2; [lia|].
  assert (0 <= j) by (destruct (Z.le_gt_cases 0 j); [assumption|];
                      rewrite Z.pow_neg_r in Hx; lia).
  assert (Z.log2 x < j); [|lia].
  apply Z.log2_lt_pow2; lia.
Qed.

Lemma lor_pow2 (x j : Z) : 0 <= j -> 0 <= x < 2 ^ j -> Z.lor x (2 ^ j) = x + 2 ^ j.
Proof.
  intros Hj Hx. rewrite <- Z.lxor_lor, <- Z.add_nocarry_lxor; try reflexivity.
  all: apply Z.bits_inj'; intros n Hn; rewrite Z.land_spec, Z.bits_0,
         Z.pow2_bits_eqb by assumption;
       destruct (Z.eqb_spec j n) as [->|]; [|apply andb_false_r];
       rewrite (testbit_small x n n) by lia; reflexivity.
Qed.

Lemma land_pow2_small (x j : Z) :
  0 <= j -> 0 <= x < 2 ^ j -> Z.land x (2 ^ j) = 0.
Proof.
  intros Hj Hx. apply Z.bits_inj'; intros n Hn.
  rewrite Z.land_spec, Z.bits_0, Z.pow2_bits_eqb by assumption.
  destruct (Z.eqb_spec j n) as [->|]; [|apply andb_false_r].
  rewrite (testbit_small x n n) by lia. reflexivity.
Qed.

Lemma land_pow2_set (x j : Z) :
  0 <= j -> 0 <= x < 2 ^ j -> Z.land (x + 2 ^ j) (2 ^ j) = 2 ^ j.
Proof.
  intros Hj Hx. rewrite <- lor_pow2 by assumption. apply land_lor_same.
Qed.

Lemma land_not32 (x m : Z) : is_u4 x -> Z.land x (not32 m) = Z.ldiff x m.
Proof.
  intros Hx. unfold not32, u4. rewrite <- Z.land_ones by lia.
  rewrite (Z.land_comm (Z.lnot m)), Z.land_assoc, Z.land_ones by lia.
  rewrite (Z.mod_small x) by exact Hx.
  apply Z.bits_inj'; intros n Hn.
  rewrite Z.land_spec, Z.ldiff_spec, Z.lnot_spec by assumption. reflexivity.
Qed.

Lemma ldiff_pow2_small (x j : Z) :
  0 <= j -> 0 <= x < 2 ^ j -> Z.ldiff x (2 ^ j) = x.
Proof.
  intros Hj Hx. apply Z.bits_inj'; intros n Hn.
  rewrite Z.ldiff_spec, Z.pow2_bits_eqb by assumption.
  destruct (Z.eqb_spec j n) as [->|]; [|apply andb_true_r].
  rewrite (testbit_small x n n) by lia. reflexivity.
Qed.

Lemma ldiff_pow2_set (x j : Z) :
  0 <= j -> 0 <= x < 2 ^ j -> Z.ldiff (x + 2 ^ j) (2 ^ j) = x.
Proof.
  intros Hj Hx. rewrite <- lor_pow2 by assumption.
  apply Z.bits_inj'; intros n Hn.
  rewrite Z.ldiff_spec, Z.lor_spec, Z.pow2_bits_eqb by assumption.
  destruct (Z.eqb_spec j n) as [->|].
  - rewrite (testbit_small x n n) by lia. reflexivity.
  - cbn [negb]. now rewrite orb_false_r, andb_true_r.
Qed.

Lemma lxor_pow2_small (x j : Z) :
  0 <= j -> 0 <= x < 2 ^ j -> Z.lxor x (2 ^ j) = x + 2 ^ j.
Proof.
  intros Hj Hx. symmetry. apply Z.add_nocarry_lxor.
  now apply land_pow2_small.
Qed.

Lemma lxor_pow2_set (x j : Z) :
  0 <= j -> 0 <= x < 2 ^ j -> Z.lxor (x + 2 ^ j) (2 ^ j) = x.
Proof.
  intros Hj Hx. rewrite <- lxor_pow2_small by assumption.
  now rewrite Z.lxor_assoc, Z.lxor_nilpotent, Z.lxor_0_r.
Qed.

Lemma not32_0 (x : Z) : is_u4 x -> Z.land x (not32 0) = x.
Proof.
  intros Hx. rewrite land_not32 by assumption. apply Z.ldiff_0_r.
Qed.

(** A value below [2 * 2^j] has the bit [j] clear or set. *)
Lemma split_pow2 (x j : Z) :
  0 <= j -> 0 <= x < 2 * 2 ^ j ->
  (0 <= x < 2 ^ j) \/ (exists y, 0 <= y < 2 ^ j /\ x = y + 2 ^ j).
Proof.
  intros Hj Hx. destruct (Z.lt_ge_cases x (2 ^ j)); [left; lia|].
  right. exists (x - 2 ^ j). lia.
Qed.

(** ** The conditional stack *)

Lemma do_ifdef_as_if (def_s : string) (s : state) :
  do_ifdef def_s s = do_if (defined def_s s) s.
Proof. unfold do_ifdef, do_if. destruct (defined def_s s); reflexivity. Qed.

Lemma pow2_double (k : Z) : 0 <= k -> 2 ^ (k + 1) = 2 * 2 ^ k.
Proof. intros H. rewrite Z.pow_add_r by lia. change (2 ^ 1) with 2. lia. Qed.

Lemma pow2_le_31 (k : Z) : 0 <= k <= 31 -> 0 < 2 ^ k <= 2 ^ 31.
Proof.
  intros H. split; [apply Z.pow_pos_nonneg; lia|].
  apply Z.pow_le_mono_r; lia.
Qed.

Lemma pow2_lt_31 (k : Z) : 0 <= k -> 2 ^ k < 2 ^ 31 -> k < 31.
Proof. intros H L. apply Z.pow_lt_mono_r_iff in L; lia. Qed.

(** Opening a frame below the depth limit. *)
Lemma do_if_eq (active : bool) (s : state) :
  cond_inv s -> 0 < lvl s < 2 ^ 31 ->
  do_if active s =
  set_ignore_input (ignore_input s + (if active then 0 else 2 * lvl s))
    (set_inside_if (inside_if s + 2 * lvl s) (set_lvl (2 * lvl s) s)).
Proof.
  intros (Hl & Hi & Hg & Hk) Hr. unfold is_u4 in Hl, Hi, Hg.
  destruct Hk as (k & Hk & El & Ei & Eg & Ev); [lia|].
  assert (K : k < 31) by (apply pow2_lt_31; [lia|rewrite <- El; lia]).
  unfold do_if. fields. rewrite shift_level by assumption.
  rewrite El, <- pow2_double by lia.
  assert (P : 2 ^ (k + 1) = 2 * 2 ^ k) by (apply pow2_double; lia).
  rewrite lor_pow2 by lia.
  destruct active.
  - rewrite land_not32, ldiff_pow2_small by (unfold is_u4; lia).
    now rewrite Z.add_0_r.
  - rewrite lor_pow2 by lia. reflexivity.
Qed.

(** Closing an open frame. *)
Lemma do_endif_eq (s : state) :
  cond_inv s -> 2 <= lvl s ->
  do_endif s =
  set_lvl (lvl s / 2)
    (set_ignore_input (ignore_input s mod lvl s)
       (set_inside_if (inside_if s - lvl s) s)).
Proof.
  intros (Hl & Hi & Hg & Hk) Hr. unfold is_u4 in Hl, Hi, Hg.
  destruct Hk as (k & Hk & El & Ei & Eg & Ev); [lia|].
  assert (K : 1 <= k).
  { destruct (Z.eq_dec k 0) as [->|]; [cbn in El; lia|lia]. }
  assert (P : 2 ^ k = 2 * 2 ^ (k - 1)).
  { rewrite <- pow2_double by lia. f_equal. lia. }
  assert (Q : 0 < 2 ^ (k - 1)) by (apply Z.pow_pos_nonneg; lia).
  unfold do_endif. fields.
  rewrite !land_not32 by (unfold is_u4; lia).
  rewrite Z.shiftr_div_pow2 by lia. change (2 ^ 1) with 2.
  assert (D : 2 ^ k / 2 = 2 ^ (k - 1)).
  { rewrite P, Z.mul_comm, Z.div_mul; lia. }
  unfold error_if. fields. rewrite El, D.
  destruct (Z.eqb_spec (2 ^ (k - 1)) 0) as [E|_]; [lia|].
  apply state_ext; fields; try reflexivity.
  - rewrite Ei, El.
    replace (2 * 2 ^ k - 2) with ((2 ^ k - 2) + 2 ^ k) by lia.
    rewrite ldiff_pow2_set by lia. lia.
  - rewrite El in Eg.
    destruct (split_pow2 (ignore_input s) k) as [S|(y & Hy & S)];
      [lia|lia| |].
    + rewrite ldiff_pow2_small, Z.mod_small by lia. reflexivity.
    + rewrite S, ldiff_pow2_set by lia.
      apply (Z.mod_unique _ _ 1); lia.
Qed.

(** [#else] in an open frame. *)
Lemma do_else_eq (s : state) :
  cond_inv s -> 2 <= lvl s ->
  do_else s =
  set_ignore_input
    (if ignore_input s <? lvl s then ignore_input s + lvl s
     else ignore_input s - lvl s) s.
Proof.
  intros (Hl & Hi & Hg & Hk) Hr. unfold is_u4 in Hl, Hi, Hg.
  destruct Hk as (k & Hk & El & Ei & Eg & Ev); [lia|].
  assert (K : 1 <= k).
  { destruct (Z.eq_dec k 0) as [->|]; [cbn in El; lia|lia]. }
  unfold do_else. rewrite Ei, El.
  replace (2 * 2 ^ k - 2) with ((2 ^ k - 2) + 2 ^ k) by lia.
  rewrite land_pow2_set by lia.
  destruct (Z.eqb_spec (2 ^ k) 0) as [E|_]; [lia|].
  f_equal. rewrite El in Eg.
  destruct (split_pow2 (ignore_input s) k) as [S|(y & Hy & S)];
    [lia|lia| |].
  - rewrite lxor_pow2_small by lia.
    destruct (Z.ltb_spec (ignore_input s) (2 ^ k)); [reflexivity|lia].
  - rewrite S, lxor_pow2_set by lia.
    destruct (Z.ltb_spec (y + 2 ^ k) (2 ^ k)); lia.
Qed.

(** [#else] with no open frame. *)
Lemma do_else_top (s : state) :
  cond_inv s -> lvl s < 2 -> do_else s = error E_else s.
Proof.
  intros (Hl & Hi & Hg & Hk) Hr. unfold do_else.
  destruct (Z.eq_dec (lvl s) 0) as [E|N].
  - now rewrite E, Z.land_0_r.
  - destruct (Hk N) as (k & _ & El & Ei & _).
    assert (E : lvl s = 1) by lia.
    rewrite Ei, E. reflexivity.
Qed.

(** [#endif] with no open frame: [lvl] becomes 0. *)
Lemma do_endif_top (s : state) :
  cond_inv s -> lvl s < 2 -> do_endif s = error E_endif (set_lvl 0 s).
Proof.
  intros (Hl & Hi & Hg & Hk) Hr. unfold is_u4 in Hl, Hi, Hg.
  unfold do_endif. fields.
  rewrite !land_not32 by (unfold is_u4; lia).
  destruct (Z.eq_dec (lvl s) 0) as [E|N].
  - rewrite E, !Z.ldiff_0_r. unfold error_if. fields.
    change (Z.shiftr 0 1 =? 0) with true. cbv iota.
    apply state_ext; reflexivity.
  - destruct (Hk N) as (k & _ & El & Ei & Eg & Ev).
    assert (E : lvl s = 1) by lia.
    assert (G : ignore_input s = 0).
    { destruct (Z.eq_dec (ignore_input s) 0) as [|G]; [assumption|].
      assert (G1 : ignore_input s = 1) by lia.
      rewrite G1 in Ev. discriminate. }
    rewrite Ei, G, E. unfold error_if. fields.
    apply state_ext; fields; cbn; try reflexivity; lia.
Qed.

(** Opening a frame when [lvl] is 0 or the bit of the last level. *)
Lemma do_if_stuck (active : bool) (s : state) :
  cond_inv s -> lvl s = 0 \/ lvl s = 2 ^ 31 ->
  do_if active s = set_lvl 0 s.
Proof.
  intros (Hl & Hi & Hg & Hk) Hr. unfold is_u4 in Hl, Hi, Hg.
  assert (E : u4 (Z.shiftl (lvl s) 1) = 0) by (destruct Hr as [-> | ->]; reflexivity).
  unfold do_if. fields. rewrite E, Z.lor_0_r.
  destruct active.
  - rewrite not32_0 by (unfold is_u4; lia). apply state_ext; reflexivity.
  - rewrite Z.lor_0_r. apply state_ext; reflexivity.
Qed.

Lemma cond_inv_init (defs : list string) : cond_inv (init defs).
Proof.
  unfold cond_inv, is_u4. cbn. repeat split; try lia.
  intros _. exists 0. cbn. repeat split; lia.
Qed.

Lemma cond_inv_eq (s s' : state) :
  lvl s' = lvl s -> inside_if s' = inside_if s ->
  ignore_input s' = ignore_input s -> cond_inv s -> cond_inv s'.
Proof. unfold cond_inv. intros -> -> ->. auto. Qed.

Lemma cond_inv_env (s s' : state) : same_env s s' -> cond_inv s -> cond_inv s'.
Proof. intros (_ & _ & L & I & G). now apply cond_inv_eq. Qed.

Lemma cond_inv_stuck (s s' : state) :
  lvl s' = 0 -> inside_if s' = inside_if s ->
  ignore_input s' = ignore_input s -> cond_inv s -> cond_inv s'.
Proof.
  unfold cond_inv. intros L -> ->. rewrite L. intros (_ & Hi & Hg & _).
  split; [unfold is_u4; lia|]. split; [assumption|]. split; [assumption|].
  intros N. now contradiction N.
Qed.

Lemma cond_inv_if (active : bool) (s : state) :
  cond_inv s -> cond_inv (do_if active s).
Proof.
  intros I. pose proof I as (Hl & Hi & Hg & Hk).
  unfold is_u4 in Hl, Hi, Hg.
  destruct (Z.eq_dec (lvl s) 0) as [E|N].
  { rewrite do_if_stuck by auto. now apply (cond_inv_stuck s). }
  destruct (Hk N) as (k & Hk' & El & Ei & Eg & Ev).
  destruct (Z.eq_dec k 31) as [->|K].
  { rewrite do_if_stuck by auto. now apply (cond_inv_stuck s). }
  pose proof (pow2_le_31 k Hk') as P.
  assert (P1 : 2 ^ (k + 1) = 2 * 2 ^ k) by (apply pow2_double; lia).
  assert (P2 : 2 ^ (k + 1) <= 2 ^ 31) by (apply Z.pow_le_mono_r; lia).
  change (2 ^ 31) with 2147483648 in *. change (2 ^ 32) with 4294967296 in *.
  rewrite do_if_eq; [|assumption|change (2 ^ 31) with 2147483648; lia].
  unfold cond_inv, is_u4. fields.
  change (2 ^ 32) with 4294967296.
  split; [lia|]. split; [lia|]. split; [destruct active; lia|].
  intros _. exists (k + 1).
  split; [lia|]. split; [lia|]. split; [lia|].
  split; [destruct active; lia|].
  destruct active; [now rewrite Z.add_0_r|].
  rewrite Z.even_add, Ev, Z.even_mul. reflexivity.
Qed.

Lemma cond_inv_endif (s : state) : cond_inv s -> cond_inv (do_endif s).
Proof.
  intros I. pose proof I as (Hl & Hi & Hg & Hk).
  unfold is_u4 in Hl, Hi, Hg.
  destruct (Z.lt_ge_cases (lvl s) 2) as [L|L].
  { rewrite do_endif_top by assumption. now apply (cond_inv_stuck s). }
  destruct Hk as (k & Hk' & El & Ei & Eg & Ev); [lia|].
  assert (K : 1 <= k).
  { destruct (Z.eq_dec k 0) as [->|]; [cbn in El; lia|lia]. }
  assert (P : 2 ^ k = 2 * 2 ^ (k - 1)).
  { rewrite <- pow2_double by lia. f_equal. lia. }
  assert (Q : 0 < 2 ^ (k - 1)) by (apply Z.pow_pos_nonneg; lia).
  assert (D : lvl s / 2 = 2 ^ (k - 1)).
  { rewrite El, P, Z.mul_comm, Z.div_mul; lia. }
  pose proof (Z.mod_pos_bound (ignore_input s) (lvl s)) as B.
  rewrite do_endif_eq by assumption.
  unfold cond_inv, is_u4. fields. rewrite D.
  split; [lia|]. split; [lia|]. split; [lia|].
  intros _. exists (k - 1).
  split; [lia|]. split; [reflexivity|]. split; [lia|]. split; [lia|].
  rewrite Z.mod_eq by lia.
  rewrite Z.even_sub, Ev, Z.even_mul, El, P, Z.even_mul. reflexivity.
Qed.

Lemma cond_inv_else (s : state) : cond_inv s -> cond_inv (do_else s).
Proof.
  intros I. pose proof I as (Hl & Hi & Hg & Hk).
  unfold is_u4 in Hl, Hi, Hg.
  destruct (Z.lt_ge_cases (lvl s) 2) as [L|L].
  { rewrite do_else_top by assumption. now apply (cond_inv_eq s). }
  destruct Hk as (k & Hk' & El & Ei & Eg & Ev); [lia|].
  assert (K : 1 <= k).
  { destruct (Z.eq_dec k 0) as [->|]; [cbn in El; lia|lia]. }
  assert (P : 2 ^ k = 2 * 2 ^ (k - 1)).
  { rewrite <- pow2_double by lia. f_equal. lia. }
  pose proof (pow2_le_31 k Hk') as P31.
  change (2 ^ 31) with 2147483648 in *. change (2 ^ 32) with 4294967296 in *.
  rewrite do_else_eq by assumption.
  unfold cond_inv, is_u4. fields. change (2 ^ 32) with 4294967296.
  assert (Ve : Z.even (lvl s) = true).
  { rewrite El, P, Z.even_mul. reflexivity. }
  destruct (Z.ltb_spec (ignore_input s) (lvl s)).
  - split; [lia|]. split; [lia|]. split; [lia|].
    intros _. exists k. repeat split; try lia.
    now rewrite Z.even_add, Ev, Ve.
  - split; [lia|]. split; [lia|]. split; [lia|].
    intros _. exists k. repeat split; try lia.
    now rewrite Z.even_sub, Ev, Ve.
Qed.

Lemma cond_inv_line_step (s s' : state) :
  line_step s s' -> cond_inv s -> cond_inv s'.
Proof.
  destruct 1 as [| | |b|d Hd|d s' Hi Hd H| | |o s' Hi Hu Hf H]; intros I.
  - assumption.
  - now apply cond_inv_else.
  - now apply cond_inv_endif.
  - now apply cond_inv_if.
  - rewrite do_ifdef_as_if. now apply cond_inv_if.
  - unfold do_define in H. destruct (N_IFDEFS <=? _); [discriminate|].
    apply Ok_inj in H. subst s'. now apply (cond_inv_eq s).
  - now apply (cond_inv_eq s).
  - now apply (cond_inv_eq s).
  - apply env_run_op in H. eapply cond_inv_env; eassumption.
Qed.

Lemma in_loop_cond_inv (s : state) : in_loop s -> cond_inv s.
Proof.
  induction 1 as [defs Hd|buf s s' L IH H].
  - apply cond_inv_init.
  - apply do_line_step in H. eapply cond_inv_line_step; [exact H|].
    now apply (cond_inv_eq s).
Qed.

(** ** Buffers and what [do_line] sees in them *)

Lemma cstr_text (l : string) : all_chars text_char l = true -> cstr l = l.
Proof.
  induction l as [|c l IH]; [reflexivity|]. cbn [all_chars cstr].
  intros H. apply andb_true_iff in H. destruct H as [C H].
  apply text_char_spec in C. destruct C as [-> _]. now rewrite IH.
Qed.

Lemma all_chars_app (p : ascii -> bool) (a b : string) :
  all_chars p (String.append a b) = all_chars p a && all_chars p b.
Proof.
  induction a as [|c a IH]; [reflexivity|]. cbn [String.append all_chars].
  now rewrite IH, andb_assoc.
Qed.

Lemma cstr_line (l : string) :
  all_chars text_char l = true -> cstr (line l) = line l.
Proof.
  intros H. unfold line.
  induction l as [|c l IH]; [reflexivity|]. cbn [all_chars] in H.
  apply andb_true_iff in H. destruct H as [C H].
  apply text_char_spec in C. destruct C as [C _].
  cbn [String.append cstr]. rewrite C. now rewrite IH.
Qed.

Lemma line_neq_empty (l : string) : line l <> "".
Proof. destruct l; discriminate. Qed.

Lemma bp_of_line (l : string) :
  all_chars text_char l = true -> bp_of (line l) = skip_space l.
Proof. intros H. unfold bp_of. now rewrite cstr_line, chop_line. Qed.

(** [do_line] on a buffer that holds a C string, in terms of [bp_of]. *)
Lemma do_line_eq (buf : string) (s0 : state) :
  cstr buf <> "" ->
  do_line buf s0 =
  let s := set_lnum (lnum s0 + 1) s0 in
  let bp := bp_of buf in
  if String.eqb bp "" || prefix "//" bp then Ok s
  else if String.eqb bp "#else" then Ok (do_else s)
  else if String.eqb bp "#endif" then Ok (do_endif s)
  else if String.eqb bp "#if 1" then Ok (do_if true s)
  else if String.eqb bp "#if 0" then Ok (do_if false s)
  else
    match sscanf_s "#ifdef" bp with
    | Some def_s =>
        if DEF_S_LEN <=? Z.of_nat (String.length def_s)
        then Fault DefOverrun
        else Ok (do_ifdef def_s s)
    | None =>
        if negb (ignore_input s =? 0) then Ok s
        else do_active bp s
    end.
Proof.
  intros H. unfold do_line, bp_of.
  destruct (cstr buf) as [|c b]; [congruence|]. reflexivity.
Qed.

Lemma do_line_empty (buf : string) (s : state) :
  cstr buf = "" -> do_line buf s = Fault BufUnderrun.
Proof. intros H. unfold do_line. now rewrite H. Qed.

Lemma is_cond_false (bp : string) :
  is_cond bp = false ->
  String.eqb bp "#else" = false /\ String.eqb bp "#endif" = false /\
  String.eqb bp "#if 1" = false /\ String.eqb bp "#if 0" = false /\
  sscanf_s "#ifdef" bp = None.
Proof.
  unfold is_cond. intros H.
  repeat (apply orb_false_iff in H; destruct H as [H ?]).
  destruct (sscanf_s "#ifdef" bp); [discriminate|]. auto.
Qed.

Lemma ordinary_spec (buf : string) :
  ordinary buf = true -> cstr buf <> "" /\ is_cond (bp_of buf) = false.
Proof.
  unfold ordinary. intros H. apply andb_true_iff in H. destruct H as [A B].
  apply negb_true_iff in A, B. split; [|assumption].
  intros E. rewrite E in A. discriminate.
Qed.

(** A line that is no conditional directive, read while input is
    ignored, is counted and nothing else. *)
Lemma do_line_hidden (buf : string) (s : state) :
  ordinary buf = true -> ignore_input s <> 0 ->
  do_line buf s = Ok (set_lnum (lnum s + 1) s).
Proof.
  intros H Hi. apply ordinary_spec in H. destruct H as [Hc H].
  apply is_cond_false in H. destruct H as (E1 & E2 & E3 & E4 & E5).
  rewrite do_line_eq by assumption. cbv zeta.
  rewrite E1, E2, E3, E4, E5.
  destruct (_ || _); [reflexivity|].
  cbn [ignore_input set_lnum].
  destruct (Z.eqb_spec (ignore_input s) 0); [contradiction|]. reflexivity.
Qed.

Lemma set_lnum_twice (a b : Z) (s : state) :
  set_lnum a (set_lnum b s) = set_lnum a s.
Proof. reflexivity. Qed.

Lemma do_lines_hidden (bufs : list string) (s : state) :
  forallb ordinary bufs = true -> ignore_input s <> 0 ->
  do_lines bufs s = Ok (set_lnum (lnum s + Z.of_nat (List.length bufs)) s).
Proof.
  revert s. induction bufs as [|b bufs IH]; intros s H Hi.
  - cbn [do_lines List.length]. f_equal.
    apply state_ext; fields; try reflexivity. cbn. lia.
  - cbn [forallb] in H. apply andb_true_iff in H. destruct H as [Hb H].
    cbn [do_lines]. rewrite do_line_hidden by assumption. cbn [bind].
    rewrite IH by assumption. f_equal.
    apply state_ext; fields; try reflexivity.
    cbn [List.length]. lia.
Qed.

(** The four directives that are compared as whole lines. *)
Lemma do_line_else (s : state) :
  do_line (line "#else") s = Ok (do_else (set_lnum (lnum s + 1) s)).
Proof. reflexivity. Qed.

Lemma do_line_endif (s : state) :
  do_line (line "#endif") s = Ok (do_endif (set_lnum (lnum s + 1) s)).
Proof. reflexivity. Qed.

Lemma do_line_if (active : bool) (s : state) :
  do_line (line (if active then "#if 1" else "#if 0")) s =
  Ok (do_if active (set_lnum (lnum s + 1) s)).
Proof. destruct active; reflexivity. Qed.

(** ** Regions of conditional input *)

Lemma cond_inv_set_lnum (v : Z) (s : state) :
  cond_inv s -> cond_inv (set_lnum v s).
Proof. now apply cond_inv_eq. Qed.

Lemma cond_inv_nonneg (s : state) : cond_inv s -> 0 <= ignore_input s.
Proof. intros (_ & _ & H & _). apply H. Qed.

Lemma do_lines_cons (b : string) (bufs : list string) (s : state) :
  do_lines (b :: bufs) s = (s1 <- do_line b s ;; do_lines bufs s1).
Proof. reflexivity. Qed.

Lemma do_lines_one (b : string) (s : state) :
  do_lines [b] s = do_line b s.
Proof. cbn [do_lines]. apply bind_ok. Qed.

(** A frame opened by [#if 0], lines, and its [#endif]. *)
Lemma region_if0_endif (bufs : list string) (s : state) :
  cond_inv s -> 0 < lvl s < 2 ^ 31 -> forallb ordinary bufs = true ->
  do_lines (line "#if 0" :: bufs ++ [line "#endif"]) s =
  Ok (set_lnum (lnum s + Z.of_nat (List.length bufs) + 2) s).
Proof.
  intros I Hl Hb.
  pose proof (cond_inv_nonneg _ I) as Hg.
  pose proof I as (_ & _ & _ & Hk).
  destruct Hk as (k & Hk & El & Ei & Eg & Ev); [lia|].
  rewrite do_lines_cons, (do_line_if false). cbn [bind].
  set (s0 := set_lnum (lnum s + 1) s).
  assert (I0 : cond_inv s0) by now apply cond_inv_set_lnum.
  assert (I1 : cond_inv (do_if false s0)) by now apply cond_inv_if.
  rewrite do_lines_app, do_lines_hidden; try assumption.
  2:{ rewrite do_if_eq by assumption. fields. subst s0. fields. lia. }
  cbn [bind]. rewrite do_lines_one, do_line_endif. f_equal.
  rewrite set_lnum_twice.
  set (n := lnum (do_if false s0) + Z.of_nat (List.length bufs) + 1).
  rewrite do_endif_eq.
  2:{ now apply cond_inv_set_lnum. }
  2:{ fields. rewrite do_if_eq by assumption. fields. subst s0. fields. lia. }
  subst n. rewrite do_if_eq by assumption. subst s0.
  apply state_ext; fields; try reflexivity; try lia.
  - rewrite Z.mul_comm, Z.div_mul; lia.
  - symmetry. apply (Z.mod_unique _ _ 1); lia.
Qed.

(** After the branch of a frame that was not suppressed, [#else], lines
    and [#endif] do what the [#endif] alone does. *)
Lemma region_else_endif (bufs : list string) (s : state) :
  cond_inv s -> 2 <= lvl s -> ignore_input s < lvl s ->
  forallb ordinary bufs = true ->
  do_lines (line "#else" :: bufs ++ [line "#endif"]) s =
  do_line (line "#endif")
          (set_lnum (lnum s + Z.of_nat (List.length bufs) + 1) s).
Proof.
  intros I Hl Hi Hb.
  pose proof (cond_inv_nonneg _ I) as Hg.
  rewrite do_lines_cons, do_line_else. cbn [bind].
  set (s0 := set_lnum (lnum s + 1) s).
  assert (I0 : cond_inv s0) by now apply cond_inv_set_lnum.
  assert (I1 : cond_inv (do_else s0)) by now apply cond_inv_else.
  assert (E : do_else s0 = set_ignore_input (ignore_input s + lvl s) s0).
  { rewrite do_else_eq by assumption. subst s0. fields.
    destruct (Z.ltb_spec (ignore_input s) (lvl s)); [reflexivity|lia]. }
  rewrite do_lines_app, do_lines_hidden; try assumption.
  2:{ rewrite E. fields. lia. }
  cbn [bind]. rewrite do_lines_one, !do_line_endif. f_equal.
  rewrite !set_lnum_twice.
  rewrite !do_endif_eq; try (now apply cond_inv_set_lnum); try assumption.
  2:{ fields. rewrite E. subst s0. fields. assumption. }
  rewrite E. subst s0.
  apply state_ext; fields; try reflexivity; try lia.
  rewrite (Z.mod_small (ignore_input s)) by lia.
  symmetry. apply (Z.mod_unique _ _ 1); lia.
Qed.

(** [#if 0], lines and [#else] open the frame as [#if 1] does. *)
Lemma region_if0_else (bufs : list string) (s : state) :
  cond_inv s -> 0 < lvl s < 2 ^ 31 -> forallb ordinary bufs = true ->
  do_lines (line "#if 0" :: bufs ++ [line "#else"]) s =
  do_line (line "#if 1")
          (set_lnum (lnum s + Z.of_nat (List.length bufs) + 1) s).
Proof.
  intros I Hl Hb.
  pose proof (cond_inv_nonneg _ I) as Hg.
  pose proof I as (_ & _ & _ & Hk).
  destruct Hk as (k & Hk & El & Ei & Eg & Ev); [lia|].
  rewrite do_lines_cons, (do_line_if false). cbn [bind].
  set (s0 := set_lnum (lnum s + 1) s).
  assert (I0 : cond_inv s0) by now apply cond_inv_set_lnum.
  assert (I1 : cond_inv (do_if false s0)) by now apply cond_inv_if.
  rewrite do_lines_app, do_lines_hidden; try assumption.
  2:{ rewrite do_if_eq by assumption. fields. subst s0. fields. lia. }
  cbn [bind]. rewrite do_lines_one, do_line_else, (do_line_if true).
  f_equal. rewrite !set_lnum_twice.
  rewrite do_else_eq.
  2:{ now apply cond_inv_set_lnum. }
  2:{ fields. rewrite do_if_eq by assumption. fields. subst s0. fields. lia. }
  rewrite !do_if_eq; try (now apply cond_inv_set_lnum); try assumption.
  subst s0. fields.
  destruct (Z.ltb_spec (ignore_input s + 2 * lvl s) (2 * lvl s)); [lia|].
  apply state_ext; fields; try reflexivity; lia.
Qed.

(** A second [#else] in the same frame undoes the first; neither is
    reported. *)
Lemma else_twice (s : state) :
  cond_inv s -> 2 <= lvl s ->
  do_lines [line "#else"; line "#else"] s = Ok (set_lnum (lnum s + 2) s).
Proof.
  intros I Hl.
  pose proof (cond_inv_nonneg _ I) as Hg.
  rewrite do_lines_cons, do_line_else. cbn [bind].
  rewrite do_lines_one, do_line_else. f_equal.
  set (s0 := set_lnum (lnum s + 1) s).
  assert (I0 : cond_inv s0) by now apply cond_inv_set_lnum.
  assert (I1 : cond_inv (do_else s0)) by now apply cond_inv_else.
  rewrite (do_else_eq (set_lnum _ _));
    [|now apply cond_inv_set_lnum|].
  2:{ fields. rewrite do_else_eq by assumption. subst s0. fields. assumption. }
  rewrite do_else_eq by assumption. subst s0. fields.
  apply state_ext; fields; try reflexivity; try lia.
  destruct (Z.ltb_spec (ignore_input s) (lvl s)) as [A|A].
  - destruct (Z.ltb_spec (ignore_input s + lvl s) (lvl s)); lia.
  - destruct (Z.ltb_spec (ignore_input s - lvl s) (lvl s)); [lia|].
    exfalso. destruct I as (_ & _ & _ & Hk).
    destruct Hk as (k & _ & _ & _ & Eg & _); lia.
Qed.

(** ** Symbols *)

Lemma sym_char_spec (c : ascii) :
  sym_char c = true -> isspace c = false /\ text_char c = true.
Proof.
  unfold sym_char. intros H. apply andb_true_iff in H. destruct H as [A B].
  apply negb_true_iff in A. now split.
Qed.

Lemma is_word_spec (w : string) :
  is_word w = true ->
  w <> "" /\ all_chars sym_char w = true /\ all_chars text_char w = true.
Proof.
  unfold is_word. intros H. apply andb_true_iff in H. destruct H as [A B].
  apply negb_true_iff in A. split; [intros ->; discriminate|].
  split; [assumption|].
  clear A. induction w as [|c w IH]; [reflexivity|].
  cbn [all_chars] in *. apply andb_true_iff in B. destruct B as [C B].
  apply sym_char_spec in C. destruct C as [_ ->]. now apply IH.
Qed.

(** [%s] stops at white space or at the end of the string. *)
Lemma word_sym (w rest : string) :
  all_chars sym_char w = true ->
  match rest with
  | String c _ => isspace c = true
  | EmptyString => True
  end ->
  word (String.append w rest) = (w, rest).
Proof.
  intros H R. induction w as [|c w IH].
  - cbn [String.append]. destruct rest as [|c r]; [reflexivity|].
    cbn [word]. now rewrite R.
  - cbn [all_chars] in H. apply andb_true_iff in H. destruct H as [C H].
    apply sym_char_spec in C. destruct C as [C _].
    cbn [String.append word]. rewrite C, IH by assumption. reflexivity.
Qed.

Lemma skip_space_sym (w rest : string) :
  is_word w = true ->
  skip_space (String.append w rest) = String.append w rest.
Proof.
  intros H. apply is_word_spec in H. destruct H as (N & H & _).
  destruct w as [|c w]; [congruence|].
  cbn [all_chars] in H. apply andb_true_iff in H. destruct H as [C _].
  apply sym_char_spec in C. destruct C as [C _].
  cbn [String.append skip_space]. now rewrite C.
Qed.

Lemma scan_s_sym (w rest : string) :
  is_word w = true ->
  match rest with
  | String c _ => isspace c = true
  | EmptyString => True
  end ->
  scan_s (String.append w rest) = Some (w, rest).
Proof.
  intros H R. unfold scan_s. rewrite skip_space_sym by assumption.
  pose proof (is_word_spec _ H) as (N & A & _).
  rewrite <- (word_sym w rest A R).
  destruct w as [|c w]; [congruence|]. reflexivity.
Qed.

(** [sscanf(bp, "<lit> %s", def_s)] on the literal, a space, a symbol and
    a rest that it does not read. *)
Lemma sscanf_s_sym (lit w rest : string) :
  is_word w = true ->
  match rest with
  | String c _ => isspace c = true
  | EmptyString => True
  end ->
  sscanf_s lit (String.append lit (String " " (String.append w rest))) =
  Some w.
Proof.
  intros H R. unfold sscanf_s. rewrite lits_self.
  change (skip_space (String " " ?x)) with (skip_space x).
  rewrite skip_space_sym, scan_s_sym by assumption. reflexivity.
Qed.

Lemma sscanf_s_sym0 (lit w : string) :
  is_word w = true ->
  sscanf_s lit (String.append lit (String " " w)) = Some w.
Proof.
  intros H. pose proof (sscanf_s_sym lit w "" H I) as E.
  now rewrite append_empty_r in E.
Qed.

(** The line [#ifdef sym]. *)
Lemma do_line_ifdef (w : string) (s : state) :
  is_word w = true ->
  do_line (line (String.append "#ifdef " w)) s =
  if DEF_S_LEN <=? Z.of_nat (String.length w) then Fault DefOverrun
  else Ok (do_ifdef w (set_lnum (lnum s + 1) s)).
Proof.
  intros H. pose proof (is_word_spec _ H) as (N & A & T).
  assert (B : bp_of (line (String.append "#ifdef " w)) =
              String.append "#ifdef " w).
  { rewrite bp_of_line; [reflexivity|]. exact T. }
  rewrite do_line_eq.
  2:{ rewrite cstr_line; [apply line_neq_empty|exact T]. }
  cbv zeta. rewrite B.
  change (String.append "#ifdef " w)
    with (String.append "#ifdef" (String " " w)).
  rewrite (sscanf_s_sym0 "#ifdef" w H).
  reflexivity.
Qed.

(** The line [#define sym], read while input is not ignored. *)
Lemma do_line_define (w : string) (s : state) :
  is_word w = true -> ignore_input s = 0 ->
  do_line (line (String.append "#define " w)) s =
  if DEF_S_LEN <=? Z.of_nat (String.length w) then Fault DefOverrun
  else do_define w (set_lnum (lnum s + 1) s).
Proof.
  intros H Hi. pose proof (is_word_spec _ H) as (N & A & T).
  assert (B : bp_of (line (String.append "#define " w)) =
              String.append "#define " w).
  { rewrite bp_of_line; [reflexivity|]. exact T. }
  rewrite do_line_eq.
  2:{ rewrite cstr_line; [apply line_neq_empty|exact T]. }
  cbv zeta. rewrite B.
  change (sscanf_s "#ifdef" (String.append "#define " w)) with (@None string).
  cbn [String.eqb String.append Ascii.eqb Bool.eqb prefix orb].
  cbn [ignore_input set_lnum]. rewrite Hi. cbn [Z.eqb negb].
  unfold do_active.
  change (String "#" (String "d" (String "e" (String "f" (String "i"
           (String "n" (String "e" (String " " w))))))))
    with (String.append "#define" (String " " w)).
  rewrite (sscanf_s_sym0 "#define" w H). reflexivity.
Qed.

(** ** The table of defined symbols *)

Lemma ifdefs_line_step (s s' : state) :
  line_step s s' ->
  ifdefs s' = ifdefs s \/
  (exists d, ifdefs s' = ifdefs s ++ [d] /\
             Z.of_nat (List.length (ifdefs s)) < N_IFDEFS).
Proof.
  destruct 1 as [| | |b|d Hd|d s' Hi Hd H| | |o s' Hi Hu Hf H].
  - now left.
  - left. unfold do_else. destruct (_ =? 0); reflexivity.
  - left. unfold do_endif, error_if. destruct (_ =? 0); reflexivity.
  - left. unfold do_if. destruct b; reflexivity.
  - left. rewrite do_ifdef_as_if. unfold do_if.
    destruct (defined d s); reflexivity.
  - right. exists d. unfold do_define in H.
    destruct (Z.leb_spec N_IFDEFS (Z.of_nat (List.length (ifdefs s))));
      [discriminate|].
    apply Ok_inj in H. subst s'. split; [reflexivity|assumption].
  - now left.
  - now left.
  - left. apply env_run_op in H. apply H.
Qed.

Lemma ifdefs_do_line (buf : string) (s s' : state) :
  do_line buf s = Ok s' ->
  ifdefs s' = ifdefs s \/
  (exists d, ifdefs s' = ifdefs s ++ [d] /\
             Z.of_nat (List.length (ifdefs s)) < N_IFDEFS).
Proof. intros H. apply do_line_step in H. now apply ifdefs_line_step in H. Qed.

(** No line removes a symbol. *)
Lemma ifdefs_do_lines (bufs : list string) (s s' : state) :
  do_lines bufs s = Ok s' -> exists l, ifdefs s' = ifdefs s ++ l.
Proof.
  revert s. induction bufs as [|b bufs IH]; intros s H; cbn [do_lines] in H.
  - apply Ok_inj in H. subst s'. exists []. now rewrite app_nil_r.
  - destruct (do_line b s) as [s1|] eqn:E; [|discriminate]. cbn [bind] in H.
    apply IH in H. destruct H as [l H].
    apply ifdefs_do_line in E. destruct E as [E|(d & E & _)].
    + exists l. now rewrite H, E.
    + exists (d :: l). rewrite H, E, <- app_assoc. reflexivity.
Qed.

Lemma in_loop_ifdefs (s : state) :
  in_loop s -> Z.of_nat (List.length (ifdefs s)) <= N_IFDEFS.
Proof.
  induction 1 as [defs Hd|buf s s' L IH H].
  - exact Hd.
  - apply ifdefs_do_line in H. destruct H as [->|(d & -> & H)].
    + exact IH.
    + rewrite length_app. cbn [List.length]. lia.
Qed.

(** ** Lines that do not end in a newline, lines that do not fit *)

Lemma run_lines_run_from (defs : list string) (input : string) :
  run_lines defs input = run_from input (init defs).
Proof. reflexivity. Qed.

(** The last characters of the input, when no newline ends them. *)
Lemma run_from_rest (l : string) (s : state) :
  l <> "" -> all_chars text_char l = true ->
  (String.length l < 256)%nat ->
  run_from l s = do_line l s.
Proof.
  intros N C L.
  rewrite (run_from_step l l "" s N); [|now apply fgets_rest].
  destruct (do_line l s); reflexivity.
Qed.

(** The first [NBUF - 1] characters of a longer line. *)
Lemma run_from_long (l rest : string) (s : state) :
  all_chars text_char l = true -> String.length l = 255%nat ->
  run_from (String.append l rest) s =
  (s1 <- do_line l s ;; run_from rest s1).
Proof.
  intros C L. apply run_from_step.
  - destruct l; [discriminate|]. discriminate.
  - unfold NBUF. now apply fgets_full.
Qed.

Lemma chop_length (l : string) :
  l <> "" -> S (String.length (chop l)) = String.length l.
Proof.
  induction l as [|c l IH]; [congruence|]. intros _.
  destruct l as [|d l]; [reflexivity|].
  change (chop (String c (String d l))) with (String c (chop (String d l))).
  cbn [String.length]. f_equal. apply IH. discriminate.
Qed.

Lemma chop_chars (p : ascii -> bool) (l : string) :
  all_chars p l = true -> all_chars p (chop l) = true.
Proof.
  induction l as [|c l IH]; [reflexivity|]. intros H.
  cbn [all_chars] in H. apply andb_true_iff in H. destruct H as [C H].
  destruct l as [|d l]; [reflexivity|].
  change (chop (String c (String d l))) with (String c (chop (String d l))).
  cbn [all_chars]. rewrite C. now apply IH.
Qed.

(** A buffer without its newline is read as the line that lacks its
    last character. *)
Lemma do_line_unterminated (l : string) (s : state) :
  l <> "" -> all_chars text_char l = true ->
  do_line l s = do_line (line (chop l)) s.
Proof.
  intros N C.
  assert (C' : all_chars text_char (chop l) = true) by now apply chop_chars.
  rewrite !do_line_eq.
  - unfold bp_of. rewrite cstr_line, chop_line, cstr_text by assumption.
    reflexivity.
  - rewrite cstr_line by assumption. apply line_neq_empty.
  - now rewrite cstr_text.
Qed.

(** ** The faults of a run *)

Lemma faults_in_bind {A B : Type} (l : list fault) (r : res A)
      (k : A -> res B) :
  faults_in l r -> (forall a, faults_in l (k a)) -> faults_in l (bind r k).
Proof. destruct r; cbn; auto. Qed.

Lemma faults_in_incl {A : Type} (l l' : list fault) (r : res A) :
  incl l l' -> faults_in l r -> faults_in l' r.
Proof. destruct r; cbn; auto. Qed.

Ltac faults_step :=
  match goal with
  | |- faults_in _ (Ok _) => exact I
  | |- faults_in _ (Fault _) => cbn; tauto
  | |- faults_in _ (bind _ _) => apply faults_in_bind; [|intros]
  | |- faults_in _ (if ?c then _ else _) => destruct c
  | |- faults_in _ (match ?x with _ => _ end) => destruct x
  | |- faults_in _ _ => solve [auto]
  end.

Lemma faults_put (v : Z) (s : state) : faults_in [BlkOverrun] (put v s).
Proof. unfold put. repeat faults_step. Qed.

Lemma faults_write_abs (type : abs_t) (s : state) :
  faults_in [BlkOverrun] (write_abs type s).
Proof. unfold write_abs. repeat faults_step. Qed.

Lemma faults_append_word (w : Z) (s : state) :
  faults_in [BlkOverrun] (append_word w s).
Proof.
  unfold append_word, write_le.
  repeat (faults_step; try apply faults_put).
Qed.

Lemma faults_do_words (ws : list Z) (s : state) :
  faults_in [BlkOverrun] (do_words ws s).
Proof.
  unfold do_words.
  repeat (faults_step; try apply faults_append_word).
Qed.

Lemma faults_run_op (o : op) (s : state) :
  faults_in [BlkOverrun] (run_op o s).
Proof.
  destruct o; cbn [run_op].
  - unfold do_org. repeat (faults_step; try apply faults_write_abs).
  - unfold do_chk2. apply faults_write_abs.
  - unfold do_chk1. apply faults_write_abs.
  - unfold do_byte. repeat (faults_step; try apply faults_put).
  - apply faults_do_words.
  - apply faults_write_abs.
Qed.

Lemma faults_do_active (bp : string) (s : state) :
  faults_in [DefOverrun; IfdefsOverrun; BlkOverrun] (do_active bp s).
Proof.
  assert (R : forall o s, faults_in [DefOverrun; IfdefsOverrun; BlkOverrun]
                                    (run_op o s)).
  { intros o s1. eapply faults_in_incl; [|apply faults_run_op].
    intros f [<-|[]]. cbn. tauto. }
  unfold do_active.
  destruct (sscanf_s "#define" bp).
  { unfold do_define. repeat faults_step. }
  destruct (prefix "#error" bp); [exact I|].
  destruct (prefix "#warning" bp); [exact I|].
  destruct (sscanf_o "=" bp) as [v|]; [apply (R (OpOrg v))|].
  destruct (sscanf_o "::" bp) as [v|]; [apply (R (OpChk2 v))|].
  destruct (sscanf_o ":" bp) as [v|]; [apply (R (OpChk1 v))|].
  destruct (sscanf_o "b" bp) as [v|]; [apply (R (OpByte v))|].
  apply (R (OpWords (sscanf_ooo bp))).
Qed.

(** A line faults on an empty C string, and else in three ways only. *)
Lemma faults_do_line (buf : string) (s : state) :
  cstr buf <> "" ->
  faults_in [DefOverrun; IfdefsOverrun; BlkOverrun] (do_line buf s).
Proof.
  intros H. rewrite do_line_eq by assumption. cbv zeta.
  repeat (faults_step; try apply faults_do_active).
Qed.

Lemma fgets_app (n : nat) (frp buf rest : string) :
  fgets n frp = (buf, rest) -> frp = String.append buf rest.
Proof.
  revert frp buf rest. induction n as [|n IH]; intros frp buf rest H.
  - cbn in H. inversion H. reflexivity.
  - destruct n as [|n]; [cbn in H; inversion H; reflexivity|].
    destruct frp as [|c t]; [cbn in H; inversion H; reflexivity|].
    rewrite fgets_step in H.
    destruct (Ascii.eqb c newline); [inversion H; reflexivity|].
    destruct (fgets (S n) t) as [l r] eqn:E. inversion H. subst.
    cbn [String.append]. f_equal. now apply IH.
Qed.

Lemma fgets_head (n : nat) (c : ascii) (t buf rest : string) :
  fgets (S (S n)) (String c t) = (buf, rest) ->
  exists b, buf = String c b.
Proof.
  rewrite fgets_step. destruct (Ascii.eqb c newline).
  - intros H. inversion H. eauto.
  - destruct (fgets (S n) t). intros H. inversion H. eauto.
Qed.

Lemma faults_run_from (frp : string) (s : state) :
  all_chars not_nul frp = true ->
  faults_in [DefOverrun; IfdefsOverrun; BlkOverrun] (run_from frp s).
Proof.
  remember (String.length frp) as n eqn:En. revert frp s En.
  induction n as [n IH] using lt_wf_ind. intros frp s En H.
  destruct frp as [|c t]; [exact I|].
  destruct (fgets NBUF (String c t)) as [buf rest] eqn:E.
  rewrite (run_from_step _ buf rest); [|discriminate|exact E].
  pose proof (fgets_app _ _ _ _ E) as A.
  pose proof E as E'. unfold NBUF in E'.
  apply fgets_progress in E'.
  destruct (fgets_head _ _ _ _ _ E) as [b ->].
  rewrite A, all_chars_app in H. apply andb_true_iff in H.
  destruct H as [Hb Hr].
  apply faults_in_bind.
  - apply faults_do_line. cbn [all_chars] in Hb.
    apply andb_true_iff in Hb. destruct Hb as [Hc _].
    unfold not_nul in Hc. apply negb_true_iff in Hc.
    cbn [cstr]. rewrite Hc. discriminate.
  - intros s1. apply (IH (String.length rest)); [lia|reflexivity|exact Hr].
Qed.

(** ** Lines of data words *)

Lemma octal_text (ds : list Z) :
  Forall is_octal ds -> all_chars text_char (octal_string ds) = true.
Proof.
  induction 1 as [|d ds Hd F IH]; [reflexivity|].
  cbn [octal_string fold_right all_chars]. fold (octal_string ds).
  rewrite IH, andb_true_r.
  destruct (octal_char_plain d Hd) as (_ & Z0 & N0 & _).
  unfold text_char. now rewrite Z0, N0.
Qed.

(** A line that starts with an octal digit goes to the data words. *)
Lemma starts_octal (d : Z) (r : string) :
  is_octal d ->
  let x := String (octal_char d) r in
  skip_space x = x /\ is_plain x = true /\
  line_op x = Some (OpWords (sscanf_ooo x)).
Proof.
  intros Hd x. subst x. apply is_octal_cases in Hd.
  repeat (destruct Hd as [->|Hd];
          [split; [reflexivity|split; [reflexivity|]];
           apply line_op_words; reflexivity|]).
  subst. split; [reflexivity|split; [reflexivity|]].
  apply line_op_words; reflexivity.
Qed.

Lemma reads_words_line (d : Z) (r : string) :
  is_octal d ->
  all_chars text_char (String (octal_char d) r) = true ->
  reads_as (line (String (octal_char d) r))
           (OpWords (sscanf_ooo (String (octal_char d) r))).
Proof.
  intros Hd C. destruct (starts_octal d r Hd) as (S & P & L).
  unfold reads_as. rewrite cstr_line, chop_line, S by assumption.
  split; [apply line_neq_empty|]. now split.
Qed.

Lemma scan_o_sp (ds : list Z) (rest : string) :
  ds <> [] -> Forall is_octal ds ->
  scan_o (String.append (octal_string ds) (String " " rest)) =
  Some (scanned ds, String " " rest).
Proof. intros N F. now apply scan_o_octal. Qed.

Lemma scan_o_end (ds : list Z) :
  ds <> [] -> Forall is_octal ds ->
  scan_o (octal_string ds) = Some (scanned ds, "").
Proof.
  intros N F. rewrite <- (append_empty_r (octal_string ds)).
  now apply scan_o_octal.
Qed.

Lemma skip_sp (x : string) : skip_space (String " " x) = skip_space x.
Proof. reflexivity. Qed.

(** Two numerals. *)
Lemma sscanf_ooo_2 (a b : list Z) :
  a <> [] -> b <> [] -> Forall is_octal a -> Forall is_octal b ->
  sscanf_ooo (String.append (octal_string a) (String " " (octal_string b))) =
  [scanned a; scanned b].
Proof.
  intros Na Nb Fa Fb. unfold sscanf_ooo.
  rewrite scan_o_sp, skip_sp by assumption.
  rewrite <- (append_empty_r (octal_string b)), skip_space_octal
    by assumption.
  rewrite append_empty_r, scan_o_end by assumption. reflexivity.
Qed.

(** Three numerals, and whatever follows them after a space. *)
Lemma sscanf_ooo_3 (a b c : list Z) (rest : string) :
  a <> [] -> b <> [] -> c <> [] ->
  Forall is_octal a -> Forall is_octal b -> Forall is_octal c ->
  sscanf_ooo
    (String.append (octal_string a)
       (String " " (String.append (octal_string b)
          (String " " (String.append (octal_string c)
             (String " " rest)))))) =
  [scanned a; scanned b; scanned c].
Proof.
  intros Na Nb Nc Fa Fb Fc. unfold sscanf_ooo.
  rewrite scan_o_sp, skip_sp, skip_space_octal by assumption.
  rewrite scan_o_sp, skip_sp, skip_space_octal by assumption.
  rewrite scan_o_sp by assumption. reflexivity.
Qed.

Lemma sscanf_ooo_3_end (a b c : list Z) :
  a <> [] -> b <> [] -> c <> [] ->
  Forall is_octal a -> Forall is_octal b -> Forall is_octal c ->
  sscanf_ooo
    (String.append (octal_string a)
       (String " " (String.append (octal_string b)
          (String " " (octal_string c))))) =
  [scanned a; scanned b; scanned c].
Proof.
  intros Na Nb Nc Fa Fb Fc. unfold sscanf_ooo.
  rewrite scan_o_sp, skip_sp, skip_space_octal by assumption.
  rewrite scan_o_sp, skip_sp by assumption.
  rewrite <- (append_empty_r (octal_string c)), skip_space_octal
    by assumption.
  rewrite append_empty_r, scan_o_end by assumption. reflexivity.
Qed.

(** A line that starts with a character no directive, comment or number
    starts with converts no word. *)
Lemma starts_stray (c : ascii) (r : string) :
  stray_char c = true ->
  let x := String c r in
  skip_space x = x /\ is_plain x = true /\ line_op x = Some (OpWords []).
Proof.
  intros H x. subst x.
  destruct c as [[] [] [] [] [] [] [] []]; try discriminate H;
    (split; [reflexivity|split; [reflexivity|]]; reflexivity).
Qed.

Lemma stray_text (c : ascii) : stray_char c = true -> text_char c = true.
Proof.
  unfold stray_char. intros H.
  apply andb_true_iff in H. destruct H as [H _].
  apply andb_true_iff in H. destruct H as [H _].
  now apply sym_char_spec in H.
Qed.

Lemma reads_stray (c : ascii) (r : string) :
  stray_char c = true -> all_chars text_char r = true ->
  reads_as (line (String c r)) (OpWords []).
Proof.
  intros H C. destruct (starts_stray c r H) as (S & P & L).
  assert (C' : all_chars text_char (String c r) = true).
  { cbn [all_chars]. now rewrite (stray_text c H), C. }
  unfold reads_as. rewrite cstr_line, chop_line, S by assumption.
  split; [apply line_neq_empty|]. now split.
Qed.

(** ** Listings of sections *)

Lemma quiet_logs (s s' : state) :
  quiet s -> logs [] s s' -> ignore_input s' = ignore_input s -> quiet s'.
Proof.
  intros (Hi & He & Hn & Hr) (E & N & _ & R) G. unfold quiet.
  rewrite G, E, N, R, He, Hn, Hr. cbn. repeat split; try assumption.
Qed.

Lemma word_line_run (w : Z) (t : state) :
  quiet t -> Z.even (pc t) = true -> 0 <= pc t -> pc t + 2 < 2 ^ 32 ->
  Z.of_nat (List.length (data t)) + 2 <= NBLK ->
  0 <= w <= 65535 ->
  exists t',
    do_line (line (word_line w)) t = Ok t' /\ quiet t' /\
    data t' = data t ++ word_bytes w /\ pc t' = pc t + 2 /\
    org t' = org t /\ fwp t' = fwp t /\ have_blk t' = true.
Proof.
  intros Q Ev P0 P1 Hd Hw. pose proof Q as (Hi & _).
  assert (R : reads_as (line (word_line w)) (OpWords [w])).
  { apply reads_octal6. lia. }
  set (t0 := set_lnum (lnum t + 1) t).
  exists (words_done [w] t0).
  rewrite (do_line_reads_as _ _ _ R Hi). cbn [run_op]. fold t0.
  rewrite do_words_ok; [|cbn; lia|cbn [List.length]; exact Hd].
  split; [reflexivity|].
  destruct (words_done_facts [w] t0) as (D & P & B & O & F & _).
  assert (WE : word_errors [w] (pc t0) = []).
  { apply word_errors_none; [cbn; lia| |exact Ev].
    constructor; [exact Hw|constructor]. }
  pose proof (logs_words_done [w] t0) as L. rewrite WE in L.
  split.
  { apply (quiet_logs t0); [exact Q|exact L|apply env_words_done]. }
  rewrite D, P, B, O, F. cbn [flat_map List.length]. rewrite app_nil_r.
  repeat split. subst t0. fields. apply u4_small. cbn. lia.
Qed.

Lemma word_lines_run (ws : list Z) (t : state) :
  quiet t -> Z.even (pc t) = true -> 0 <= pc t ->
  pc t + 2 * Z.of_nat (List.length ws) < 2 ^ 32 ->
  Z.of_nat (List.length (data t)) + 2 * Z.of_nat (List.length ws) <= NBLK ->
  Forall (fun w => 0 <= w <= 65535) ws ->
  exists t',
    do_lines (map line (map word_line ws)) t = Ok t' /\ quiet t' /\
    data t' = data t ++ flat_map word_bytes ws /\
    pc t' = pc t + 2 * Z.of_nat (List.length ws) /\
    org t' = org t /\ fwp t' = fwp t /\
    have_blk t' = (have_blk t || negb (Nat.eqb (List.length ws) 0)).
Proof.
  revert t. induction ws as [|w ws IH]; intros t Q Ev P0 P1 Hd F.
  - exists t. cbn. rewrite app_nil_r, orb_false_r, Z.add_0_r.
    repeat split; try apply Q.
  - inversion F as [|? ? Hw F']. subst.
    cbn [List.length] in P1, Hd.
    destruct (word_line_run w t Q Ev P0) as (t1 & E1 & Q1 & D1 & P & O1 & F1 & B1);
      try lia; try assumption.
    destruct (IH t1) as (t2 & E2 & Q2 & D2 & P2 & O2 & F2 & B2);
      try assumption.
    + rewrite P, Z.even_add, Ev. reflexivity.
    + lia.
    + lia.
    + rewrite D1, length_app. cbn [List.length word_bytes].
      change (List.length (word_bytes w)) with 2%nat. lia.
    + exists t2. cbn [map do_lines]. rewrite E1. cbn [bind].
      split; [exact E2|]. split; [exact Q2|].
      rewrite D2, D1, P2, P, O2, O1, F2, F1, B2, B1.
      cbn [flat_map List.length Nat.eqb negb]. rewrite <- app_assoc.
      rewrite orb_true_r. repeat split. lia.
Qed.

Lemma org_line_run (a : Z) (s : state) :
  quiet s -> blk_inv s -> Z.of_nat (List.length (data s)) < NBLK ->
  0 <= a <= 65535 ->
  exists s1,
    do_line (line (org_line a)) s = Ok s1 /\ quiet s1 /\
    fwp s1 = out s /\ have_blk s1 = false /\ data s1 = [] /\
    org s1 = a /\ pc s1 = a.
Proof.
  intros Q Hb Hd Ha. pose proof Q as (Hi & He & Hn & Hr).
  assert (R : reads_as (line (org_line a)) (OpOrg a)).
  { apply (proj1 (reads_octal6 a ltac:(lia)) DOrg). }
  set (s0 := set_lnum (lnum s + 1) s).
  rewrite (do_line_reads_as _ _ _ R Hi). cbn [run_op]. fold s0.
  unfold do_org.
  destruct (Z.ltb_spec 65535 a) as [|_]; [lia|]. cbn [error_if].
  destruct (write_abs_cases ABS_BLK s0) as [(E & W)|[(E & _ & W)|(_ & L & _)]].
  - rewrite W. cbn [bind]. eexists. split; [reflexivity|].
    cbn [emits] in E. subst s0. fields. cbn [have_blk set_lnum] in E.
    assert (D : data s = []).
    { destruct Hb as [[_ Hb] _]. destruct (data s); [reflexivity|].
      rewrite Hb in E; [discriminate|discriminate]. }
    unfold out. rewrite E, app_nil_r.
    split; [now repeat split|]. now repeat split.
  - rewrite W. cbn [bind]. eexists. split; [reflexivity|].
    cbn [emits] in E. subst s0. cbn [have_blk set_lnum] in E.
    unfold out. rewrite E. fields. unfold flushed. fields.
    split; [now repeat split|]. now repeat split.
  - subst s0. cbn [data set_lnum] in L. lia.
Qed.

Lemma blk_inv_have (s : state) (x : Z) (d : list Z) :
  have_blk s = true -> data s = x :: d -> blk_inv s.
Proof.
  intros H D. unfold blk_inv. rewrite H, D. split.
  - split; [discriminate|reflexivity].
  - discriminate.
Qed.

(** One section: the pending block is written, and the words of the
    section are pending. *)
Lemma section_run (sec : Z * list Z) (s : state) :
  quiet s -> blk_inv s -> Z.of_nat (List.length (data s)) < NBLK ->
  section_ok sec ->
  exists s',
    do_lines (map line (section_lines sec)) s = Ok s' /\ quiet s' /\
    blk_inv s' /\ Z.of_nat (List.length (data s')) < NBLK /\
    out s' = out s ++ section_blocks sec.
Proof.
  intros Q Hb Hd (Ha & Ev & Fw & Hl). destruct sec as [a ws].
  cbn [fst snd] in *.
  destruct (org_line_run a s Q Hb Hd Ha)
    as (s1 & E1 & Q1 & F1 & B1 & D1 & O1 & P1).
  destruct (word_lines_run ws s1 Q1) as (s2 & E2 & Q2 & D2 & P2 & O2 & F2 & B2);
    try assumption.
  - now rewrite P1.
  - lia.
  - rewrite P1. unfold NBLK in Hl. lia.
  - rewrite D1. cbn [List.length]. lia.
  - exists s2. unfold section_lines. cbn [fst snd map do_lines].
    rewrite E1. cbn [bind]. split; [exact E2|]. split; [exact Q2|].
    rewrite D1 in D2. cbn [app] in D2.
    assert (L2 : Z.of_nat (List.length (data s2)) < NBLK).
    { rewrite D2, flat_map_word_bytes_length. exact Hl. }
    split; [|split; [exact L2|]].
    + destruct ws as [|w ws].
      * apply blk_inv_idle.
        -- rewrite B2, B1. reflexivity.
        -- exact D2.
        -- rewrite O2, O1, P2, P1. cbn. lia.
      * apply (blk_inv_have s2 (Z.land w 255)
                 (Z.land (Z.shiftr w 8) 255 :: flat_map word_bytes ws)).
        -- rewrite B2, B1. reflexivity.
        -- rewrite D2. reflexivity.
    + unfold out, section_blocks. cbn [fst snd].
      rewrite B2, B1, F2, F1, O2, O1, D2. cbn [orb].
      destruct ws as [|w ws].
      * cbn [List.length Nat.eqb negb]. now rewrite !app_nil_r.
      * reflexivity.
Qed.

Lemma listing_run (secs : list (Z * list Z)) (s : state) :
  quiet s -> blk_inv s -> Z.of_nat (List.length (data s)) < NBLK ->
  Forall section_ok secs ->
  exists s',
    do_lines (map line (listing secs)) s = Ok s' /\ quiet s' /\
    blk_inv s' /\ Z.of_nat (List.length (data s')) < NBLK /\
    out s' = out s ++ flat_map section_blocks secs.
Proof.
  intros Q Hb Hd F. revert s Q Hb Hd.
  induction F as [|sec secs Hs F IH]; intros s Q Hb Hd.
  - exists s. cbn [listing flat_map map do_lines]. rewrite app_nil_r.
    split; [reflexivity|]. split; [exact Q|]. split; [exact Hb|].
    split; [exact Hd|reflexivity].
  - destruct (section_run sec s Q Hb Hd Hs) as (s1 & E1 & Q1 & B1 & D1 & O1).
    destruct (IH s1 Q1 B1 D1) as (s2 & E2 & Q2 & B2 & D2 & O2).
    exists s2. unfold listing. cbn [flat_map]. fold (listing secs).
    rewrite map_app, do_lines_app, E1. cbn [bind].
    split; [exact E2|]. split; [exact Q2|]. split; [exact B2|].
    split; [exact D2|]. rewrite O2, O1, <- app_assoc. reflexivity.
Qed.

Lemma halt_image_eq : image 1 [] = halt_image.
Proof. reflexivity. Qed.

(** The two calls of [write_abs] that end [main]. *)
Lemma finish_out (s : state) :
  blk_inv s -> Z.of_nat (List.length (data s)) < NBLK ->
  exists s',
    finish s = Ok s' /\ fwp s' = out s ++ [halt_image] /\
    same_env s s' /\ logs [] s s'.
Proof.
  intros Hb Hd. unfold finish.
  assert (W : exists s1, write_abs ABS_BLK s = Ok s1 /\ fwp s1 = out s /\
                         data s1 = [] /\ same_env s s1 /\ logs [] s s1).
  { destruct (have_blk s) eqn:B.
    - exists (flushed ABS_BLK s). split; [now apply write_abs_emit|].
      unfold out. rewrite B. split; [reflexivity|]. split; [reflexivity|].
      split; [repeat split|now apply logs_same].
    - exists s. split; [now apply write_abs_idle|].
      unfold out. rewrite B, app_nil_r. split; [reflexivity|].
      split; [|split; [repeat split|apply logs_refl]].
      destruct Hb as [[_ Hb] _]. destruct (data s); [reflexivity|].
      rewrite Hb in B; discriminate. }
  destruct W as (s1 & W1 & F1 & D1 & V1 & L1). rewrite W1. cbn [bind].
  exists (flushed ABS_HALT s1). split.
  { apply write_abs_emit; [reflexivity|]. rewrite D1. cbn. lia. }
  cbn [fwp flushed org_of]. rewrite F1, D1. split; [reflexivity|].
  split.
  - eapply env_trans; [exact V1|]. repeat split.
  - rewrite <- (app_nil_r []). eapply logs_trans; [exact L1|].
    now apply logs_same.
Qed.

Lemma fits_lines (secs : list (Z * list Z)) :
  Forall section_ok secs -> forallb fits (listing secs) = true.
Proof.
  assert (W : forall w, fits (word_line w) = true).
  { intros w. unfold fits, word_line.
    rewrite octal_text by apply octal6_digits. reflexivity. }
  assert (O : forall a, fits (org_line a) = true).
  { intros a. unfold fits, org_line. rewrite all_chars_app.
    rewrite octal_text by apply octal6_digits. reflexivity. }
  intros _. unfold listing. apply forallb_forall. intros l Hl.
  apply in_flat_map in Hl. destruct Hl as ([a ws] & _ & Hl).
  unfold section_lines in Hl. cbn [fst snd] in Hl.
  destruct Hl as [<-|Hl]; [apply O|].
  apply in_map_iff in Hl. destruct Hl as (w & <- & _). apply W.
Qed.

Lemma quiet_init (defs : list string) : quiet (init defs).
Proof. repeat split. Qed.

Lemma main_eq (defs : list string) (input : string) :
  Z.of_nat (List.length defs) <= N_IFDEFS ->
  main defs input = (s <- run_lines defs input ;; finish s).
Proof.
  intros H. unfold main.
  destruct (Z.ltb_spec N_IFDEFS (Z.of_nat (List.length defs))); [lia|].
  reflexivity.
Qed.

Lemma listing_main (defs : list string) (secs : list (Z * list Z)) :
  Z.of_nat (List.length defs) <= N_IFDEFS ->
  Forall section_ok secs ->
  exists s,
    main defs (text (listing secs)) = Ok s /\
    fwp s = flat_map section_blocks secs ++ [halt_image] /\
    elog s = [] /\ errs s = 0 /\ rm s = false.
Proof.
  intros Hn F.
  destruct (listing_run secs (init defs)) as (s1 & E1 & Q1 & B1 & D1 & O1);
    try assumption.
  { apply quiet_init. } { apply blk_inv_init. } { cbn. unfold NBLK. lia. }
  destruct (finish_out s1 B1 D1) as (s2 & E2 & F2 & V2 & L2).
  exists s2. rewrite main_eq, run_lines_text, E1 by (try apply fits_lines; assumption).
  cbn [bind]. split; [exact E2|]. rewrite F2, O1. split; [reflexivity|].
  destruct Q1 as (_ & Qe & Qn & Qr). destruct L2 as (Le & Ln & _ & Lr).
  rewrite Le, Ln, Lr, Qe, Qn, Qr. repeat split.
Qed.

(** ** The command line *)

Lemma parse_option (o : option_t) (rest : list string) (a : args) :
  (is_def o = true -> Z.of_nat (List.length (def_syms a)) < N_IFDEFS) ->
  parse_args (option_args o ++ rest) a = parse_args rest (set_option a o).
Proof.
  intros H. destruct o; try reflexivity.
  cbn [option_args app parse_args String.eqb Ascii.eqb Bool.eqb orb andb].
  destruct (Z.leb_spec N_IFDEFS (Z.of_nat (List.length (def_syms a))));
    [|reflexivity].
  specialize (H eq_refl). lia.
Qed.

Lemma def_syms_set_option (a : args) (o : option_t) :
  def_syms (set_option a o) =
  def_syms a ++ match o with O_def v => [v] | _ => [] end.
Proof. destruct o; cbn; try now rewrite app_nil_r. reflexivity. Qed.

(** The symbols of the [--def] options, in order. *)
Lemma def_syms_options (os : list option_t) (a : args) :
  def_syms (fold_left set_option os a) =
  def_syms a ++
  flat_map (fun o => match o with O_def v => [v] | _ => [] end) os.
Proof.
  revert a. induction os as [|o os IH]; intros a; cbn [fold_left flat_map].
  - now rewrite app_nil_r.
  - rewrite IH, def_syms_set_option, <- app_assoc. reflexivity.
Qed.

Lemma count_defs (os : list option_t) :
  List.length (flat_map (fun o => match o with O_def v => [v] | _ => [] end) os)
  = List.length (filter is_def os).
Proof.
  induction os as [|o os IH]; [reflexivity|].
  cbn [flat_map filter]. rewrite length_app, IH. destruct o; reflexivity.
Qed.

(** A sequence of options is read option by option. *)
Lemma parse_options (os : list option_t) (rest : list string) (a : args) :
  Z.of_nat (List.length (def_syms a)) +
  Z.of_nat (List.length (filter is_def os)) <= N_IFDEFS ->
  parse_args (flat_map option_args os ++ rest) a =
  parse_args rest (fold_left set_option os a).
Proof.
  revert a. induction os as [|o os IH]; intros a H; [reflexivity|].
  cbn [flat_map fold_left]. rewrite <- app_assoc, parse_option.
  - apply IH. rewrite def_syms_set_option, length_app.
    cbn [filter] in H. destruct o; cbn [is_def List.length] in *; lia.
  - intros D. cbn [filter] in H. rewrite D in H. cbn [List.length] in H. lia.
Qed.

Lemma parse_unknown (x : string) (rest : list string) (a : args) :
  is_option x = false -> parse_args (x :: rest) a = Unknown x.
Proof.
  unfold is_option. cbn [existsb]. intros H.
  repeat (apply orb_false_iff in H; destruct H as [? H]).
  cbn [parse_args].
  repeat match goal with E : String.eqb _ _ = false |- _ =>
                           rewrite E; clear E end.
  reflexivity.
Qed.

(** ** Line numbers do not matter *)

Lemma line_blind_refl (s : state) : line_blind s s.
Proof. repeat split. Qed.

Lemma line_blind_sym (s t : state) : line_blind s t -> line_blind t s.
Proof. unfold line_blind. intuition congruence. Qed.

Lemma line_blind_trans (a b c : state) :
  line_blind a b -> line_blind b c -> line_blind a c.
Proof. unfold line_blind. intuition congruence. Qed.

Lemma blind_set_lnum (n m : Z) (s t : state) :
  line_blind s t -> line_blind (set_lnum n s) (set_lnum m t).
Proof. intros H. exact H. Qed.

Lemma blind_error (e : err_t) (s t : state) :
  line_blind s t -> line_blind (error e s) (error e t).
Proof.
  intros (E1 & E2 & E3 & E4 & E5 & E6 & E7 & E8 & E9 & E10 & E11 & E12 & E13).
  unfold line_blind, error. fields.
  rewrite !map_app, E1, E3. cbn [map snd]. repeat split; assumption.
Qed.

Lemma blind_error_if (c : bool) (e : err_t) (s t : state) :
  line_blind s t -> line_blind (error_if c e s) (error_if c e t).
Proof. destruct c; [apply blind_error|auto]. Qed.

Lemma blind_note (s t : state) : line_blind s t -> line_blind (note s) (note t).
Proof.
  intros (E1 & E2 & E3 & E4 & E5 & E6 & E7 & E8 & E9 & E10 & E11 & E12 & E13).
  unfold line_blind, note. fields.
  rewrite !length_app, E4. cbn [List.length]. repeat split; assumption.
Qed.

(** Updates of the fields that hold no line number. *)
Lemma blind_fields (s t s' t' : state) :
  line_blind s t ->
  errs s' = errs s -> rm s' = rm s -> elog s' = elog s ->
  notes s' = notes s ->
  errs t' = errs t -> rm t' = rm t -> elog t' = elog t ->
  notes t' = notes t ->
  have_blk s' = have_blk t' -> data s' = data t' -> org s' = org t' ->
  pc s' = pc t' -> fwp s' = fwp t' -> ifdefs s' = ifdefs t' ->
  lvl s' = lvl t' -> inside_if s' = inside_if t' ->
  ignore_input s' = ignore_input t' ->
  line_blind s' t'.
Proof.
  intros (E1 & E2 & E3 & E4 & _) A1 A2 A3 A4 B1 B2 B3 B4.
  intros. unfold line_blind. rewrite A1, A2, A3, A4, B1, B2, B3, B4.
  repeat split; assumption.
Qed.

Ltac blind_upd H :=
  let E := fresh "E" in
  pose proof H as E;
  destruct E as (_ & _ & _ & _ & ? & ? & ? & ? & ? & ? & ? & ? & ?);
  apply (blind_fields _ _ _ _ H); fields; try reflexivity; try congruence.

Lemma blind_else (s t : state) :
  line_blind s t -> line_blind (do_else s) (do_else t).
Proof.
  intros H. unfold do_else.
  replace (inside_if t) with (inside_if s) by apply H.
  replace (lvl t) with (lvl s) by apply H.
  destruct (_ =? 0); [now apply blind_error|]. blind_upd H.
Qed.

Lemma blind_endif (s t : state) :
  line_blind s t -> line_blind (do_endif s) (do_endif t).
Proof.
  intros H. unfold do_endif. fields.
  replace (lvl t) with (lvl s) by apply H.
  apply blind_error_if. blind_upd H.
Qed.

Lemma blind_if (b : bool) (s t : state) :
  line_blind s t -> line_blind (do_if b s) (do_if b t).
Proof. intros H. unfold do_if. fields. destruct b; blind_upd H. Qed.

Lemma blind_ifdef (d : string) (s t : state) :
  line_blind s t -> line_blind (do_ifdef d s) (do_ifdef d t).
Proof.
  intros H. rewrite !do_ifdef_as_if. unfold defined.
  replace (ifdefs t) with (ifdefs s) by apply H. now apply blind_if.
Qed.

Lemma blind_bind (r r' : res state) (k k' : state -> res state) :
  blind_res r r' ->
  (forall a b, line_blind a b -> blind_res (k a) (k' b)) ->
  blind_res (bind r k) (bind r' k').
Proof.
  destruct r, r'; cbn; intros H K; try contradiction; auto.
Qed.

Lemma blind_define (d : string) (s t : state) :
  line_blind s t -> blind_res (do_define d s) (do_define d t).
Proof.
  intros H. unfold do_define.
  replace (ifdefs t) with (ifdefs s) by apply H.
  destruct (N_IFDEFS <=? _); [reflexivity|]. cbn [blind_res].
  blind_upd H.
Qed.

Lemma blind_put (v : Z) (s t : state) :
  line_blind s t -> blind_res (put v s) (put v t).
Proof.
  intros H. unfold put.
  replace (data t) with (data s) by apply H.
  destruct (NBLK <=? _); [reflexivity|]. cbn [blind_res].
  blind_upd H.
Qed.

Lemma blind_write_abs (type : abs_t) (s t : state) :
  line_blind s t -> blind_res (write_abs type s) (write_abs type t).
Proof.
  intros H.
  assert (Ee : emits type t = emits type s).
  { destruct type; [|reflexivity]. cbn. symmetry. apply H. }
  assert (Ed : data t = data s) by (symmetry; apply H).
  destruct (write_abs_cases type s) as [(E & W)|[(E & L & W)|(E & L & W)]];
    rewrite W.
  - rewrite <- Ee in E. destruct type; [|discriminate].
    rewrite write_abs_idle by exact E. exact H.
  - rewrite write_abs_emit by (rewrite ?Ee, ?Ed; assumption).
    cbn [blind_res]. unfold flushed.
    assert (Eo : org_of type s = org_of type t).
    { destruct type; [apply H|reflexivity]. }
    rewrite Eo. blind_upd H.
  - rewrite write_abs_overrun by (rewrite ?Ee, ?Ed; assumption).
    reflexivity.
Qed.

Lemma blind_append_word (w : Z) (s t : state) :
  line_blind s t -> blind_res (append_word w s) (append_word w t).
Proof.
  intros H. unfold append_word, write_le.
  apply blind_bind.
  - apply blind_bind; [now apply blind_put|].
    intros a b Hab. now apply blind_put.
  - intros a b Hab. cbn [blind_res]. blind_upd Hab.
Qed.

Lemma blind_do_words (ws : list Z) (s t : state) :
  line_blind s t -> blind_res (do_words ws s) (do_words ws t).
Proof.
  intros H. unfold do_words.
  destruct (negb _); [now apply blind_error|].
  set (s1 := error_if _ E_range_w0 s). set (t1 := error_if _ E_range_w0 t).
  assert (H1 : line_blind s1 t1) by now apply blind_error_if.
  set (s2 := error_if _ E_range_w1 s1). set (t2 := error_if _ E_range_w1 t1).
  assert (H2 : line_blind s2 t2) by now apply blind_error_if.
  set (s3 := error_if _ E_range_w2 s2). set (t3 := error_if _ E_range_w2 t2).
  assert (H3 : line_blind s3 t3) by now apply blind_error_if.
  replace (pc t3) with (pc s3) by apply H3.
  set (s4 := error_if _ E_odd_pc s3). set (t4 := error_if _ E_odd_pc t3).
  assert (H4 : line_blind s4 t4) by now apply blind_error_if.
  apply blind_bind; [now apply blind_append_word|]. intros a b Hab.
  apply blind_bind.
  { destruct (2 <=? _); [now apply blind_append_word|exact Hab]. }
  intros a1 b1 Hab1.
  apply blind_bind.
  { destruct (3 <=? _); [now apply blind_append_word|exact Hab1]. }
  intros a2 b2 Hab2. cbn [blind_res]. blind_upd Hab2.
Qed.

Lemma blind_run_op (o : op) (s t : state) :
  line_blind s t -> blind_res (run_op o s) (run_op o t).
Proof.
  intros H. destruct o as [v|v|v|v|ws|type]; cbn [run_op].
  - unfold do_org. apply blind_bind; [now apply blind_write_abs|].
    intros a b Hab. cbn [blind_res].
    assert (H1 : line_blind (error_if (65535 <? v) E_range_norg a)
                            (error_if (65535 <? v) E_range_norg b))
      by now apply blind_error_if.
    blind_upd H1.
  - unfold do_chk2. apply blind_write_abs.
    assert (H1 : line_blind (error_if (65535 <? v) E_range_chk2 s)
                            (error_if (65535 <? v) E_range_chk2 t))
      by now apply blind_error_if.
    replace (pc (error_if (65535 <? v) E_range_chk2 t))
      with (pc (error_if (65535 <? v) E_range_chk2 s)) by apply H1.
    now apply blind_error_if.
  - unfold do_chk1. apply blind_write_abs.
    assert (H1 : line_blind (error_if (65535 <? v) E_range_chk1 s)
                            (error_if (65535 <? v) E_range_chk1 t))
      by now apply blind_error_if.
    replace (pc (error_if (65535 <? v) E_range_chk1 t))
      with (pc (error_if (65535 <? v) E_range_chk1 s)) by apply H1.
    now apply blind_error_if.
  - unfold do_byte. apply blind_bind.
    + apply blind_put. now apply blind_error_if.
    + intros a b Hab. cbn [blind_res]. blind_upd Hab.
  - now apply blind_do_words.
  - now apply blind_write_abs.
Qed.

Lemma blind_do_active (bp : string) (s t : state) :
  line_blind s t -> blind_res (do_active bp s) (do_active bp t).
Proof.
  intros H. unfold do_active.
  destruct (sscanf_s "#define" bp) as [d|].
  { destruct (DEF_S_LEN <=? _); [reflexivity|]. now apply blind_define. }
  destruct (prefix "#error" bp); [now apply blind_error|].
  destruct (prefix "#warning" bp); [now apply blind_note|].
  destruct (sscanf_o "=" bp) as [v|]; [now apply (blind_run_op (OpOrg v))|].
  destruct (sscanf_o "::" bp) as [v|]; [now apply (blind_run_op (OpChk2 v))|].
  destruct (sscanf_o ":" bp) as [v|]; [now apply (blind_run_op (OpChk1 v))|].
  destruct (sscanf_o "b" bp) as [v|]; [now apply (blind_run_op (OpByte v))|].
  now apply (blind_run_op (OpWords (sscanf_ooo bp))).
Qed.

(** A line does the same whatever the line numbers. *)
Lemma blind_do_line (buf : string) (s t : state) :
  line_blind s t -> blind_res (do_line buf s) (do_line buf t).
Proof.
  intros H.
  destruct (string_dec (cstr buf) "") as [E|N].
  { rewrite !do_line_empty by assumption. reflexivity. }
  rewrite !do_line_eq by assumption. cbv zeta.
  set (s0 := set_lnum (lnum s + 1) s). set (t0 := set_lnum (lnum t + 1) t).
  assert (H0 : line_blind s0 t0) by exact H.
  destruct (_ || _); [exact H0|].
  destruct (String.eqb _ "#else"); [now apply blind_else|].
  destruct (String.eqb _ "#endif"); [now apply blind_endif|].
  destruct (String.eqb _ "#if 1"); [now apply blind_if|].
  destruct (String.eqb _ "#if 0"); [now apply blind_if|].
  destruct (sscanf_s "#ifdef" _) as [d|].
  { destruct (DEF_S_LEN <=? _); [reflexivity|]. now apply blind_ifdef. }
  replace (ignore_input t0) with (ignore_input s0) by apply H0.
  destruct (negb _); [exact H0|]. now apply blind_do_active.
Qed.

Lemma blind_do_lines (bufs : list string) (s t : state) :
  line_blind s t -> blind_res (do_lines bufs s) (do_lines bufs t).
Proof.
  revert s t. induction bufs as [|b bufs IH]; intros s t H; [exact H|].
  cbn [do_lines]. apply blind_bind; [now apply blind_do_line|]. exact IH.
Qed.

Lemma blind_finish (s t : state) :
  line_blind s t -> blind_res (finish s) (finish t).
Proof.
  intros H. unfold finish. apply blind_bind; [now apply blind_write_abs|].
  intros a b. apply blind_write_abs.
Qed.

(** ** Counting lines; blank lines and comments *)

Lemma lnum_do_line (buf : string) (s s' : state) :
  do_line buf s = Ok s' -> lnum s' = lnum s + 1.
Proof.
  intros H. apply do_line_step, logs_line_step in H.
  destruct H as [[l (_ & _ & L & _)] _]. exact L.
Qed.

Lemma lnum_do_lines (bufs : list string) (s s' : state) :
  do_lines bufs s = Ok s' -> lnum s' = lnum s + Z.of_nat (List.length bufs).
Proof.
  revert s. induction bufs as [|b bufs IH]; intros s H; cbn [do_lines] in H.
  - apply Ok_inj in H. subst. cbn. lia.
  - destruct (do_line b s) as [s1|] eqn:E; [|discriminate]. cbn [bind] in H.
    apply IH in H. apply lnum_do_line in E. cbn [List.length]. lia.
Qed.

Lemma do_line_blank (buf : string) (s : state) :
  is_blank buf = true -> do_line buf s = Ok (set_lnum (lnum s + 1) s).
Proof.
  unfold is_blank. intros H. apply andb_true_iff in H. destruct H as [A B].
  apply negb_true_iff in A.
  rewrite do_line_eq by (intros E; rewrite E in A; discriminate).
  cbv zeta. now rewrite B.
Qed.

Lemma is_blank_line (l : string) :
  all_chars text_char l = true ->
  String.eqb (skip_space l) "" || prefix "//" (skip_space l) = true ->
  is_blank (line l) = true.
Proof.
  intros C H. unfold is_blank. rewrite bp_of_line, cstr_line, H by assumption.
  rewrite andb_true_r. apply negb_true_iff.
  destruct l; reflexivity.
Qed.

Lemma blind_res_refl (r : res state) : blind_res r r.
Proof. destruct r; [apply line_blind_refl|reflexivity]. Qed.

(** A blank line or a comment changes line numbers only, wherever it
    stands. *)
Lemma blind_blank (a b : list string) (c : string) (s : state) :
  is_blank c = true ->
  blind_res (do_lines (a ++ c :: b) s) (do_lines (a ++ b) s).
Proof.
  intros H. rewrite !do_lines_app.
  apply blind_bind; [apply blind_res_refl|]. intros s1 t1 H1.
  rewrite do_lines_cons, do_line_blank by assumption. cbn [bind].
  apply blind_do_lines. exact H1.
Qed.

Lemma forallb_fits_app (a b : list string) :
  forallb fits (a ++ b) = true ->
  forallb fits a = true /\ forallb fits b = true.
Proof. rewrite forallb_app. apply andb_true_iff. Qed.

Lemma blind_main (defs defs' : list string) (input input' : string) :
  (Z.of_nat (List.length defs) <= N_IFDEFS <->
   Z.of_nat (List.length defs') <= N_IFDEFS) ->
  blind_res (run_lines defs input) (run_lines defs' input') ->
  blind_res (main defs input) (main defs' input').
Proof.
  intros Hd H. unfold main.
  destruct (Z.ltb_spec N_IFDEFS (Z.of_nat (List.length defs)));
    destruct (Z.ltb_spec N_IFDEFS (Z.of_nat (List.length defs')));
    try reflexivity; try (exfalso; lia).
  apply blind_bind; [exact H|]. intros a b. apply blind_finish.
Qed.

(** * Further properties: the theorems *)

Lemma text_app (a b : list string) :
  text (a ++ b) = String.append (text a) (text b).
Proof.
  induction a as [|l a IH]; [reflexivity|].
  cbn [app]. rewrite !text_cons, IH, append_assoc. reflexivity.
Qed.

Lemma text_one (l : string) : text [l] = line l.
Proof. rewrite text_cons. apply append_empty_r. Qed.

Lemma main_run_lines (defs : list string) (x y : string) :
  run_lines defs x = run_lines defs y -> main defs x = main defs y.
Proof.
  intros H. unfold main. fold (run_lines defs x). fold (run_lines defs y).
  now rewrite H.
Qed.

(** ** The buffers of a run *)

Lemma main_loop_buffers (fuel : nat) (frp : string) (s : state) :
  (String.length frp <= fuel)%nat ->
  main_loop fuel frp s = do_lines (buffers fuel frp) s.
Proof.
  revert frp s. induction fuel as [|fuel IH]; intros frp s H.
  - destruct frp; [reflexivity|]. cbn [String.length] in H. lia.
  - destruct frp as [|c t]; [reflexivity|].
    cbn [main_loop buffers].
    destruct (fgets NBUF (String c t)) as [buf rest] eqn:E.
    cbn [do_lines].
    destruct (do_line buf s) as [s1|f]; [|reflexivity]. cbn [bind].
    apply IH. unfold NBUF in E. apply fgets_progress in E.
    cbn [String.length] in *. lia.
Qed.

Lemma run_lines_buffers (defs : list string) (input : string) :
  run_lines defs input = do_lines (bufs_of input) (init defs).
Proof. unfold run_lines, bufs_of. now apply main_loop_buffers. Qed.

Lemma buffers_not_empty (fuel : nat) (frp : string) :
  all_chars not_nul frp = true ->
  Forall (fun buf => cstr buf <> "") (buffers fuel frp).
Proof.
  revert frp. induction fuel as [|fuel IH]; intros frp H.
  - destruct frp; constructor.
  - destruct frp as [|c t]; [constructor|].
    cbn [buffers].
    destruct (fgets NBUF (String c t)) as [buf rest] eqn:E.
    pose proof (fgets_app _ _ _ _ E) as A.
    destruct (fgets_head _ _ _ _ _ E) as [b ->].
    rewrite A, all_chars_app in H. apply andb_true_iff in H.
    destruct H as [Hb Hr]. constructor; [|now apply IH].
    cbn [all_chars] in Hb. apply andb_true_iff in Hb. destruct Hb as [Hc _].
    unfold not_nul in Hc. apply negb_true_iff in Hc.
    cbn [cstr]. rewrite Hc. discriminate.
Qed.

Lemma fits_app_l (a b : string) :
  fits (String.append a b) = true -> fits a = true.
Proof.
  unfold fits. rewrite all_chars_app, length_append. intros H.
  apply andb_true_iff in H. destruct H as [C L].
  apply andb_true_iff in C. destruct C as [Ca _].
  apply Nat.ltb_lt in L. rewrite Ca. apply Nat.ltb_lt. lia.
Qed.

Lemma fits_app_r (a b : string) :
  fits (String.append a b) = true -> fits b = true.
Proof.
  unfold fits. rewrite all_chars_app, length_append. intros H.
  apply andb_true_iff in H. destruct H as [C L].
  apply andb_true_iff in C. destruct C as [_ Cb].
  apply Nat.ltb_lt in L. rewrite Cb. apply Nat.ltb_lt. lia.
Qed.

(** The turn of a line that fits, after lines that fit. *)
Lemma run_lines_line (defs la : list string) (l more : string) (s : state) :
  forallb fits la = true ->
  fits l = true ->
  run_lines defs (text la) = Ok s ->
  run_lines defs (String.append (text la) (String.append (line l) more)) =
  (s1 <- do_line (line l) s ;; run_from more s1).
Proof.
  intros Ha Hl R. rewrite run_lines_text in R by assumption.
  rewrite run_lines_run_from, run_from_text, R by assumption. cbn [bind].
  now apply run_from_line.
Qed.

(** Two lines that make the same turn can stand for each other. *)
Lemma main_same_line (defs la : list string) (l l' more : string) :
  forallb fits la = true ->
  fits l = true -> fits l' = true ->
  (forall s : state, do_line (line l) s = do_line (line l') s) ->
  main defs (String.append (text la) (String.append (line l) more)) =
  main defs (String.append (text la) (String.append (line l') more)).
Proof.
  intros Ha Hl Hl' E. apply main_run_lines.
  rewrite !run_lines_run_from, !run_from_text by assumption.
  destruct (do_lines (map line la) (init defs)) as [s|f]; [|reflexivity].
  cbn [bind]. rewrite !run_from_line by assumption. now rewrite E.
Qed.

(** ** The line loop *)

(** X1.  An input whose lines each have at most 254 characters, none of
    them NUL, and each end in a newline is read one line a turn, in order:
    the loop does [do_line] on each line with its newline, and ends with
    [lnum] equal to the number of lines. *)
Theorem lines_read_in_order (defs : list string) (ls : list string) :
  forallb fits ls = true ->
  run_lines defs (text ls) = do_lines (map line ls) (init defs) /\
  (forall s : state,
      run_lines defs (text ls) = Ok s -> lnum s = Z.of_nat (List.length ls)).
Proof.
  intros H. rewrite run_lines_text by assumption. split; [reflexivity|].
  intros s E. apply lnum_do_lines in E. rewrite length_map in E.
  exact E.
Qed.

Lemma lines_read_in_order_witness :
  run_lines [] (text ["= 1000"; "012345"]) =
    do_lines (map line ["= 1000"; "012345"]) (init []) /\
  (forall s : state,
      run_lines [] (text ["= 1000"; "012345"]) = Ok s ->
      lnum s = Z.of_nat (List.length ["= 1000"; "012345"])).
Proof. apply (lines_read_in_order [] ["= 1000"; "012345"]). reflexivity. Defined.

(** X2.  A line of 255 characters or more does not fit [buf]: [fgets]
    returns its first 255 characters, [buf[strlen(buf)-1] = 0] removes the
    last of them, and the rest of the line is read as a line of its own.
    The run is the one of the input in which a newline stands in the place
    of the 255th character. *)
Theorem long_line_split (defs la : list string) (l rest : string) :
  forallb fits la = true ->
  all_chars text_char l = true ->
  String.length l = 255%nat ->
  main defs (String.append (text la) (String.append l rest)) =
  main defs (String.append (text la) (String.append (line (chop l)) rest)).
Proof.
  intros Ha Hc Hl. apply main_run_lines.
  rewrite !run_lines_run_from, !run_from_text by assumption.
  destruct (do_lines (map line la) (init defs)) as [s|f]; [|reflexivity].
  cbn [bind].
  assert (N : l <> "") by (intros ->; discriminate).
  rewrite run_from_long by assumption. rewrite run_from_line.
  - now rewrite <- do_line_unterminated.
  - unfold fits. rewrite chop_chars by assumption.
    apply Nat.ltb_lt. pose proof (chop_length l N). unfold NBUF. lia.
Qed.

Lemma long_line_split_witness :
  main [] (String.append (text ["= 1000"])
             (String.append
                (String.append "//" (String.append (spaces 246) "0000017"))
                (line "000002"))) =
  main [] (String.append (text ["= 1000"])
             (String.append
                (line (chop (String.append "//"
                               (String.append (spaces 246) "0000017"))))
                (line "000002"))).
Proof.
  apply (long_line_split [] ["= 1000"]
           (String.append "//" (String.append (spaces 246) "0000017"))
           (line "000002")); reflexivity.
Defined.

(** X3.  When the input does not end in a newline, its last line loses
    its last character: the run is the one of the input whose last line
    is that line without it, ended by a newline. *)
Theorem last_line_unterminated (defs la : list string) (l : string) :
  forallb fits la = true ->
  l <> "" ->
  all_chars text_char l = true ->
  (String.length l <= 255)%nat ->
  main defs (String.append (text la) l) = main defs (text (la ++ [chop l])).
Proof.
  intros Ha N Hc Hl. apply main_run_lines.
  rewrite text_app, text_one.
  rewrite <- (append_empty_r (line (chop l))).
  rewrite !run_lines_run_from, !run_from_text by assumption.
  destruct (do_lines (map line la) (init defs)) as [s|f]; [|reflexivity].
  cbn [bind].
  rewrite run_from_rest by (try assumption; lia).
  rewrite run_from_line.
  - rewrite <- do_line_unterminated by assumption.
    destruct (do_line l s); reflexivity.
  - unfold fits. rewrite chop_chars by assumption.
    apply Nat.ltb_lt. pose proof (chop_length l N). unfold NBUF. lia.
Qed.

Lemma last_line_unterminated_witness :
  main [] (String.append (text ["= 1000"]) "000017") =
  main [] (text (["= 1000"] ++ [chop "000017"])).
Proof.
  apply (last_line_unterminated [] ["= 1000"] "000017").
  - reflexivity.
  - discriminate.
  - reflexivity.
  - cbn. lia.
Defined.

(** ** Undefined behaviour *)

(** X4.  The store [buf[strlen(buf)-1] = 0] of a turn of the loop falls at
    [buf[-1]] exactly when the buffer holds the empty C string, that is
    when what [fgets] has read starts with a NUL.  So a run stores there
    when, after lines that fit the buffer and are processed, a line of the
    input starts with a NUL; and in a run on an input without NUL, every
    buffer the loop processes holds a C string that is not empty, and the
    store falls inside [buf]. *)
Theorem buf_store_in_bounds :
  (forall (buf : string) (s : state),
      do_line buf s = Fault BufUnderrun <-> cstr buf = "") /\
  (forall (defs la : list string) (rest : string) (s : state),
      Z.of_nat (List.length defs) <= N_IFDEFS ->
      forallb fits la = true ->
      run_lines defs (text la) = Ok s ->
      main defs (String.append (text la) (String Ascii.zero rest)) =
      Fault BufUnderrun) /\
  (forall (defs : list string) (input : string),
      all_chars not_nul input = true ->
      run_lines defs input = do_lines (bufs_of input) (init defs) /\
      Forall (fun buf => cstr buf <> "") (bufs_of input) /\
      main defs input <> Fault BufUnderrun).
Proof.
  split; [|split].
  - intros buf s. split.
    + intros H. destruct (string_dec (cstr buf) "") as [E|N]; [exact E|].
      pose proof (faults_do_line buf s N) as F. rewrite H in F.
      cbn in F. intuition discriminate.
    + apply do_line_empty.
  - intros defs la rest s Hd Ha R.
    rewrite main_eq by assumption.
    rewrite run_lines_text in R by assumption.
    rewrite run_lines_run_from, run_from_text, R by assumption.
    cbn [bind].
    destruct (fgets NBUF (String Ascii.zero rest)) as [buf r] eqn:E.
    rewrite (run_from_step _ buf r); [|discriminate|exact E].
    destruct (fgets_head _ _ _ _ _ E) as [b ->].
    rewrite do_line_empty by reflexivity. reflexivity.
  - intros defs input H. split; [apply run_lines_buffers|].
    split; [now apply buffers_not_empty|].
    assert (F : faults_in [DefOverrun; IfdefsOverrun; BlkOverrun]
                          (main defs input)).
    { unfold main. destruct (N_IFDEFS <? _); [cbn; tauto|].
      apply faults_in_bind.
      - now apply (faults_run_from input (init defs)).
      - intros s. unfold finish. apply faults_in_bind.
        + eapply faults_in_incl; [|apply faults_write_abs].
          intros f [<-|[]]. cbn. tauto.
        + intros s1. eapply faults_in_incl; [|apply faults_write_abs].
          intros f [<-|[]]. cbn. tauto. }
    intros E. rewrite E in F. cbn in F. intuition discriminate.
Qed.

Lemma buf_store_in_bounds_witness :
  do_line (String Ascii.zero "000001") (init []) = Fault BufUnderrun /\
  main [] (String.append (text ["= 1000"; "012345"])
             (String Ascii.zero (line "000001"))) = Fault BufUnderrun /\
  (run_lines [] (text ["#define A"; "000001"]) =
     do_lines (bufs_of (text ["#define A"; "000001"])) (init []) /\
   Forall (fun buf => cstr buf <> "")
          (bufs_of (text ["#define A"; "000001"])) /\
   main [] (text ["#define A"; "000001"]) <> Fault BufUnderrun).
Proof.
  split; [|split].
  - apply (proj1 buf_store_in_bounds (String Ascii.zero "000001") (init [])).
    reflexivity.
  - apply (proj1 (proj2 buf_store_in_bounds) [] ["= 1000"; "012345"]
                 (line "000001")
                 st_1000w).
    + vm_compute. discriminate.
    + reflexivity.
    + vm_compute. reflexivity.
  - apply (proj2 (proj2 buf_store_in_bounds) [] (text ["#define A"; "000001"])).
    reflexivity.
Defined.

(** ** Invariants of a run *)

(** X5.  In every state of a run, [errs] is the number of error
    messages printed, the output file has been removed ([rm]) exactly
    when there is one at least, every message carries the number of a line
    read so far, and the messages are in the order of their lines. *)
Theorem error_log_invariant (s : state) :
  reachable s ->
  errs s = Z.of_nat (List.length (elog s)) /\
  (rm s = true <-> 0 < errs s) /\
  Forall (fun x => 1 <= fst x <= lnum s) (elog s) /\
  Sorted Z.le (map fst (elog s)).
Proof.
  intros H. apply reachable_log_inv in H.
  destruct H as (_ & Hn & Hr & Hb & _ & Hs).
  split; [exact Hn|]. split; [|split; assumption].
  rewrite Hr, Hn. destruct (elog s); cbn [List.length]; split;
    intros; try lia; try congruence; try discriminate.
Qed.

Lemma error_log_invariant_witness :
  errs (error E_syntax (set_lnum 1 (init []))) =
    Z.of_nat (List.length (elog (error E_syntax (set_lnum 1 (init []))))) /\
  (rm (error E_syntax (set_lnum 1 (init []))) = true <->
   0 < errs (error E_syntax (set_lnum 1 (init [])))) /\
  Forall (fun x => 1 <= fst x <= lnum (error E_syntax (set_lnum 1 (init []))))
         (elog (error E_syntax (set_lnum 1 (init [])))) /\
  Sorted Z.le (map fst (elog (error E_syntax (set_lnum 1 (init []))))).
Proof.
  apply (error_log_invariant (error E_syntax (set_lnum 1 (init [])))).
  apply reach_loop. apply (loop_line (line "halt") (init [])).
  - apply loop_init. vm_compute. discriminate.
  - vm_compute. reflexivity.
Defined.

(** X6.  In every state of a run the pending block lies between [org]
    and [pc]: [pc] is [org] plus the number of pending bytes, in the 32-bit
    arithmetic of the two variables. *)
Theorem pending_block_addresses (s : state) :
  reachable s ->
  0 <= org s < 2 ^ 32 /\
  pc s = (org s + Z.of_nat (List.length (data s))) mod 2 ^ 32.
Proof. intros H. apply reachable_addr_inv in H. exact H. Qed.

Lemma pending_block_addresses_witness :
  0 <= org st_200000 < 2 ^ 32 /\
  pc st_200000 =
    (org st_200000 + Z.of_nat (List.length (data st_200000))) mod 2 ^ 32.
Proof.
  apply (pending_block_addresses st_200000).
  apply reach_loop. apply (loop_line (line "000001") st_177776).
  - apply (loop_line (line "= 177776") (init [])).
    + apply loop_init. vm_compute. discriminate.
    + vm_compute. reflexivity.
  - vm_compute. reflexivity.
Defined.

(** X7.  Every block of the output of a run that ends is one a loader
    accepts: all its elements are bytes, it has the seven bytes of header
    and checksum and at most [NBLK - 1] data bytes, its signature is 1, its
    length field counts all its bytes but the checksum (modulo 2^16), and
    its bytes add up to 0 modulo 256. *)
Theorem output_blocks_well_formed (defs : list string) (input : string)
        (s : state) :
  main defs input = Ok s ->
  Forall (fun img =>
            Forall (fun b => 0 <= b < 256) img /\
            7 <= Z.of_nat (List.length img) <= NBLK + 6 /\
            f_sig img = 1 /\
            f_len img = (Z.of_nat (List.length img) - 1) mod 2 ^ 16 /\
            sum_bytes img mod 256 = 0)
         (fwp s).
Proof.
  intros H. apply main_reachable, reachable_bytes_inv in H.
  exact (proj2 H).
Qed.

Lemma output_blocks_well_formed_witness :
  Forall (fun img =>
            Forall (fun b => 0 <= b < 256) img /\
            7 <= Z.of_nat (List.length img) <= NBLK + 6 /\
            f_sig img = 1 /\
            f_len img = (Z.of_nat (List.length img) - 1) mod 2 ^ 16 /\
            sum_bytes img mod 256 = 0)
         (fwp (result_state (main [] (text ["= 1000"; "012345"; "b 377"])))).
Proof.
  apply (output_blocks_well_formed [] (text ["= 1000"; "012345"; "b 377"])).
  vm_compute. reflexivity.
Defined.

(** ** Conditional input *)

(** X8.  While [lvl] is not 0 (no [#endif] came without its [#if], and no
    32nd frame was opened), [lvl] is the bit [2^k] of the innermost of the
    [k] open frames, [inside_if] has exactly the bits 1 to [k] of the open
    frames, and [ignore_input] has bits among these only: it is even and
    below [2^(k+1)]. *)
Theorem conditional_words_invariant (s : state) :
  in_loop s ->
  lvl s = 0 \/
  exists k : Z,
    0 <= k <= 31 /\ lvl s = 2 ^ k /\
    inside_if s = 2 ^ (k + 1) - 2 /\
    0 <= ignore_input s < 2 ^ (k + 1) /\
    Z.even (ignore_input s) = true.
Proof.
  intros H. apply in_loop_cond_inv in H.
  destruct H as (Hl & Hi & Hg & Hk).
  destruct (Z.eq_dec (lvl s) 0) as [E|N]; [now left|right].
  destruct (Hk N) as (k & K & El & Ei & Eg & Ev).
  exists k. rewrite pow2_double by lia. rewrite <- El.
  split; [exact K|]. split; [reflexivity|]. split; [exact Ei|].
  split; [unfold is_u4 in Hg; lia|exact Ev].
Qed.

Lemma conditional_words_invariant_witness :
  lvl (do_if false (set_lnum 1 (init []))) = 0 \/
  exists k : Z,
    0 <= k <= 31 /\ lvl (do_if false (set_lnum 1 (init []))) = 2 ^ k /\
    inside_if (do_if false (set_lnum 1 (init []))) = 2 ^ (k + 1) - 2 /\
    0 <= ignore_input (do_if false (set_lnum 1 (init []))) < 2 ^ (k + 1) /\
    Z.even (ignore_input (do_if false (set_lnum 1 (init [])))) = true.
Proof.
  apply (conditional_words_invariant (do_if false (set_lnum 1 (init [])))).
  apply (loop_line (line "#if 0") (init [])).
  - apply loop_init. vm_compute. discriminate.
  - vm_compute. reflexivity.
Defined.

(** X9.  A frame opened by [#if 0] below the depth limit, any lines that
    are no conditional directives, and its [#endif] change nothing but the
    count of lines: no data, no symbol, no error, no output, and the
    conditional words are as they were. *)
Theorem if0_region_skipped (bufs : list string) (s : state) :
  in_loop s ->
  0 < lvl s < 2 ^ 31 ->
  forallb ordinary bufs = true ->
  do_lines (line "#if 0" :: bufs ++ [line "#endif"]) s =
  Ok (set_lnum (lnum s + Z.of_nat (List.length bufs) + 2) s).
Proof.
  intros H. apply region_if0_endif. now apply in_loop_cond_inv.
Qed.

Lemma if0_region_skipped_witness :
  do_lines (line "#if 0" :: [line "000001"; line "#define FOO"; line "= x"]
              ++ [line "#endif"]) (init []) =
  Ok (set_lnum
        (lnum (init []) +
         Z.of_nat (List.length [line "000001"; line "#define FOO"; line "= x"])
         + 2) (init [])).
Proof.
  apply (if0_region_skipped
           [line "000001"; line "#define FOO"; line "= x"] (init [])).
  - apply loop_init. vm_compute. discriminate.
  - vm_compute. split; reflexivity.
  - reflexivity.
Defined.

(** X10.  The branch after [#else] is skipped when the branch before it
    was not: in an open frame whose bit of [ignore_input] is clear,
    [#else], lines that are no conditional directives, and [#endif] do what
    the [#endif] alone does.  And the branch before [#else] is skipped
    when the frame was opened by [#if 0]: [#if 0], such lines, and [#else]
    do what [#if 1] alone does. *)
Theorem else_region_skipped (bufs : list string) (s : state) :
  in_loop s ->
  forallb ordinary bufs = true ->
  (2 <= lvl s -> ignore_input s < lvl s ->
   do_lines (line "#else" :: bufs ++ [line "#endif"]) s =
   do_line (line "#endif")
           (set_lnum (lnum s + Z.of_nat (List.length bufs) + 1) s)) /\
  (0 < lvl s < 2 ^ 31 ->
   do_lines (line "#if 0" :: bufs ++ [line "#else"]) s =
   do_line (line "#if 1")
           (set_lnum (lnum s + Z.of_nat (List.length bufs) + 1) s)).
Proof.
  intros H Hb. apply in_loop_cond_inv in H. split.
  - intros Hl Hi. now apply region_else_endif.
  - intros Hl. now apply region_if0_else.
Qed.

Lemma else_region_skipped_witness :
  do_lines (line "#else" :: [line "000002"] ++ [line "#endif"])
           (do_if true (set_lnum 1 (init []))) =
    do_line (line "#endif")
            (set_lnum (lnum (do_if true (set_lnum 1 (init []))) +
                       Z.of_nat (List.length [line "000002"]) + 1)
                      (do_if true (set_lnum 1 (init [])))) /\
  do_lines (line "#if 0" :: [line "000002"] ++ [line "#else"]) (init []) =
    do_line (line "#if 1")
            (set_lnum (lnum (init []) +
                       Z.of_nat (List.length [line "000002"]) + 1)
                      (init [])).
Proof.
  split.
  - apply (else_region_skipped [line "000002"]
             (do_if true (set_lnum 1 (init [])))).
    + apply (loop_line (line "#if 1") (init [])).
      * apply loop_init. vm_compute. discriminate.
      * reflexivity.
    + reflexivity.
    + vm_compute. discriminate.
    + vm_compute. reflexivity.
  - apply (else_region_skipped [line "000002"] (init [])).
    + apply loop_init. vm_compute. discriminate.
    + reflexivity.
    + vm_compute. split; reflexivity.
Defined.

(** X11.  A second [#else] in the same frame is not reported: it undoes
    the first, so that the two change nothing but the count of lines, and
    the lines after them are taken as the lines before the first were. *)
Theorem second_else_undoes_first (s : state) :
  in_loop s ->
  2 <= lvl s ->
  do_lines [line "#else"; line "#else"] s = Ok (set_lnum (lnum s + 2) s).
Proof. intros H. apply else_twice. now apply in_loop_cond_inv. Qed.

Lemma second_else_undoes_first_witness :
  do_lines [line "#else"; line "#else"] (do_if true (set_lnum 1 (init []))) =
  Ok (set_lnum (lnum (do_if true (set_lnum 1 (init []))) + 2)
               (do_if true (set_lnum 1 (init [])))).
Proof.
  apply (second_else_undoes_first (do_if true (set_lnum 1 (init [])))).
  - apply (loop_line (line "#if 1") (init [])).
    + apply loop_init. vm_compute. discriminate.
    + reflexivity.
  - vm_compute. discriminate.
Defined.

(** ** Symbols *)

Lemma do_define_eq (w : string) (s : state) :
  do_define w s =
  if N_IFDEFS <=? Z.of_nat (List.length (ifdefs s)) then Fault IfdefsOverrun
  else Ok (set_ifdefs (ifdefs s ++ [w]) s).
Proof. reflexivity. Qed.

(** X12.  A symbol defined by a [#define] line that is read while input is
    not ignored stays defined for the rest of the run, whatever lines
    follow: no line removes a symbol.  An [#ifdef] of that symbol, read
    later below the depth limit while input is not ignored, opens a frame
    that is not suppressed. *)
Theorem define_then_ifdef (w : string) (bufs : list string) (s s2 : state) :
  is_word w = true ->
  Z.of_nat (String.length w) < DEF_S_LEN ->
  ignore_input s = 0 ->
  do_lines (line (String.append "#define " w) :: bufs) s = Ok s2 ->
  In w (ifdefs s2) /\
  (0 < lvl s2 < 2 ^ 31 ->
   ignore_input s2 = 0 ->
   exists s3 : state,
     do_line (line (String.append "#ifdef " w)) s2 = Ok s3 /\
     lvl s3 = 2 * lvl s2 /\ ignore_input s3 = 0).
Proof.
  intros Hw Hl Hi H.
  rewrite do_lines_cons, do_line_define in H by assumption.
  destruct (Z.leb_spec DEF_S_LEN (Z.of_nat (String.length w))); [lia|].
  rewrite do_define_eq in H.
  destruct (N_IFDEFS <=? _); [discriminate|]. cbn [bind] in H.
  apply ifdefs_do_lines in H. destruct H as [l E]. cbn [ifdefs set_ifdefs] in E.
  assert (D : In w (ifdefs s2)).
  { rewrite E. apply in_or_app. left. apply in_or_app. right. now left. }
  split; [exact D|]. intros L G.
  rewrite do_line_ifdef by assumption.
  destruct (Z.leb_spec DEF_S_LEN (Z.of_nat (String.length w))); [lia|].
  eexists. split; [reflexivity|].
  rewrite do_ifdef_as_if.
  assert (F : defined w (set_lnum (lnum s2 + 1) s2) = true).
  { apply defined_In. exact D. }
  rewrite F. unfold do_if. fields.
  rewrite shift_level by assumption. split; [reflexivity|].
  rewrite G. apply Z.land_0_l.
Qed.

Lemma define_then_ifdef_witness :
  In "FOO" (ifdefs (set_lnum 2 (set_ifdefs ["FOO"] (init [])))) /\
  (0 < lvl (set_lnum 2 (set_ifdefs ["FOO"] (init []))) < 2 ^ 31 ->
   ignore_input (set_lnum 2 (set_ifdefs ["FOO"] (init []))) = 0 ->
   exists s3 : state,
     do_line (line (String.append "#ifdef " "FOO"))
             (set_lnum 2 (set_ifdefs ["FOO"] (init []))) = Ok s3 /\
     lvl s3 = 2 * lvl (set_lnum 2 (set_ifdefs ["FOO"] (init []))) /\
     ignore_input s3 = 0).
Proof.
  apply (define_then_ifdef "FOO" [line "// a comment"] (init [])).
  - reflexivity.
  - vm_compute. reflexivity.
  - reflexivity.
  - vm_compute. reflexivity.
Defined.

(** X13.  The table of symbols never holds more than [N_IFDEFS] symbols.
    A [#define] line read while input is not ignored appends its symbol
    to the table, also when the symbol is in it already, and stores beyond
    the table when 32 symbols are in it. *)
Theorem define_table_bound :
  (forall s : state,
      in_loop s -> Z.of_nat (List.length (ifdefs s)) <= N_IFDEFS) /\
  (forall (w : string) (s : state),
      is_word w = true ->
      Z.of_nat (String.length w) < DEF_S_LEN ->
      ignore_input s = 0 ->
      do_line (line (String.append "#define " w)) s =
      if N_IFDEFS <=? Z.of_nat (List.length (ifdefs s))
      then Fault IfdefsOverrun
      else Ok (set_ifdefs (ifdefs s ++ [w]) (set_lnum (lnum s + 1) s))).
Proof.
  split; [exact in_loop_ifdefs|].
  intros w s Hw Hl Hi. rewrite do_line_define by assumption.
  destruct (Z.leb_spec DEF_S_LEN (Z.of_nat (String.length w))); [lia|].
  reflexivity.
Qed.

Lemma define_table_bound_witness :
  Z.of_nat (List.length (ifdefs (init ["FOO"]))) <= N_IFDEFS /\
  do_line (line (String.append "#define " "FOO")) (init ["FOO"]) =
  (if N_IFDEFS <=? Z.of_nat (List.length (ifdefs (init ["FOO"])))
   then Fault IfdefsOverrun
   else Ok (set_ifdefs (ifdefs (init ["FOO"]) ++ ["FOO"])
                       (set_lnum (lnum (init ["FOO"]) + 1) (init ["FOO"])))).
Proof.
  split.
  - apply (proj1 define_table_bound (init ["FOO"])).
    apply loop_init. vm_compute. discriminate.
  - apply (proj2 define_table_bound "FOO" (init ["FOO"])).
    + reflexivity.
    + vm_compute. reflexivity.
    + reflexivity.
Defined.

(** X14.  A symbol of 64 characters or more does not fit [def_s]: the
    [%s] of [sscanf] stores beyond it.  This happens on an [#ifdef] line
    whether or not input is ignored, and on a [#define] line when input
    is not ignored. *)
Theorem long_symbol_overruns (w : string) (s : state) :
  is_word w = true ->
  DEF_S_LEN <= Z.of_nat (String.length w) ->
  do_line (line (String.append "#ifdef " w)) s = Fault DefOverrun /\
  (ignore_input s = 0 ->
   do_line (line (String.append "#define " w)) s = Fault DefOverrun).
Proof.
  intros Hw Hl. split.
  - rewrite do_line_ifdef by assumption.
    destruct (Z.leb_spec DEF_S_LEN (Z.of_nat (String.length w))); [|lia].
    reflexivity.
  - intros Hi. rewrite do_line_define by assumption.
    destruct (Z.leb_spec DEF_S_LEN (Z.of_nat (String.length w))); [|lia].
    reflexivity.
Qed.

Lemma long_symbol_overruns_witness :
  do_line
    (line (String.append "#ifdef "
       "A123456789B123456789C123456789D123456789E123456789F123456789G123"))
    (do_if false (set_lnum 1 (init []))) = Fault DefOverrun /\
  (ignore_input (do_if false (set_lnum 1 (init []))) = 0 ->
   do_line
     (line (String.append "#define "
        "A123456789B123456789C123456789D123456789E123456789F123456789G123"))
     (do_if false (set_lnum 1 (init []))) = Fault DefOverrun).
Proof.
  apply (long_symbol_overruns
           "A123456789B123456789C123456789D123456789E123456789F123456789G123"
           (do_if false (set_lnum 1 (init [])))).
  - reflexivity.
  - vm_compute. discriminate.
Defined.

Lemma fits_define (w : string) :
  is_word w = true -> Z.of_nat (String.length w) < DEF_S_LEN ->
  fits (String.append "#define " w) = true.
Proof.
  intros Hw Hl. pose proof (is_word_spec _ Hw) as (_ & _ & T).
  unfold fits. rewrite all_chars_app, T. cbn [andb].
  change (all_chars text_char "#define ") with true. cbn [andb].
  apply Nat.ltb_lt. rewrite length_append. unfold DEF_S_LEN in Hl.
  unfold NBUF. cbn [String.length]. lia.
Qed.

(** X15.  A symbol given by [--def] on the command line and the same
    symbol given by a [#define] on the first line of the input make the
    same run, but for the numbers of the lines: the two runs come to the
    same fault, or end with the same output, the same errors, the same
    symbols. *)
Theorem def_option_as_define (defs ls : list string) (w : string) :
  is_word w = true ->
  Z.of_nat (String.length w) < DEF_S_LEN ->
  Z.of_nat (List.length defs) < N_IFDEFS ->
  forallb fits ls = true ->
  blind_res (main defs (text (String.append "#define " w :: ls)))
            (main (defs ++ [w]) (text ls)).
Proof.
  intros Hw Hl Hd Hf.
  apply blind_main.
  { rewrite length_app. cbn [List.length]. lia. }
  rewrite !run_lines_text; try assumption.
  2:{ cbn [forallb]. rewrite fits_define by assumption. exact Hf. }
  cbn [map]. rewrite do_lines_cons, do_line_define by (try assumption; reflexivity).
  destruct (Z.leb_spec DEF_S_LEN (Z.of_nat (String.length w))); [lia|].
  rewrite do_define_eq. cbn [ifdefs set_lnum init].
  destruct (Z.leb_spec N_IFDEFS (Z.of_nat (List.length defs))); [lia|].
  cbn [bind]. apply blind_do_lines. repeat split.
Qed.

Lemma def_option_as_define_witness :
  blind_res
    (main [] (text (String.append "#define " "FOO"
                      :: ["#ifdef FOO"; "000001"; "#endif"])))
    (main ([] ++ ["FOO"]) (text ["#ifdef FOO"; "000001"; "#endif"])).
Proof.
  apply (def_option_as_define [] ["#ifdef FOO"; "000001"; "#endif"] "FOO").
  - reflexivity.
  - vm_compute. reflexivity.
  - vm_compute. reflexivity.
  - reflexivity.
Defined.

(** ** Lines *)

Lemma reads_as_ordinary (buf : string) (o : op) :
  reads_as buf o -> ordinary buf = true.
Proof.
  intros (N & P & _). unfold ordinary, is_cond. fold (bp_of buf) in P.
  unfold is_plain in P.
  repeat match type of P with
         | _ && _ = true => apply andb_true_iff in P; destruct P as [P ?]
         end.
  repeat match goal with
         | X : negb _ = true |- _ => apply negb_true_iff in X
         end.
  destruct (sscanf_s "#ifdef" (bp_of buf)); [discriminate|].
  repeat match goal with
         | X : String.eqb _ _ = false |- _ => rewrite X; clear X
         end.
  cbn [orb negb]. rewrite andb_true_r. apply negb_true_iff.
  destruct (cstr buf); [congruence|reflexivity].
Qed.

(** Two buffers read as the same operation make the same turn. *)
Lemma do_line_same_op (buf buf' : string) (o : op) (s : state) :
  reads_as buf o -> reads_as buf' o -> do_line buf s = do_line buf' s.
Proof.
  intros R R'. destruct (Z.eq_dec (ignore_input s) 0) as [E|N].
  - now rewrite (do_line_reads_as _ _ _ R E), (do_line_reads_as _ _ _ R' E).
  - rewrite !do_line_hidden; try assumption; try reflexivity;
      eapply reads_as_ordinary; eassumption.
Qed.

Lemma do_line_by_bp (l l' : string) (s : state) :
  all_chars text_char l = true -> all_chars text_char l' = true ->
  skip_space l = skip_space l' ->
  do_line (line l) s = do_line (line l') s.
Proof.
  intros C C' E.
  rewrite !do_line_eq by (rewrite cstr_line by assumption; apply line_neq_empty).
  now rewrite !bp_of_line, E by assumption.
Qed.

Lemma skip_space_blank (ws l : string) :
  all_chars blank_char ws = true ->
  skip_space (String.append ws l) = skip_space l.
Proof.
  induction ws as [|c ws IH]; [reflexivity|]. cbn [all_chars]. intros H.
  apply andb_true_iff in H. destruct H as [C H].
  unfold blank_char in C. apply andb_true_iff in C. destruct C as [C _].
  cbn [String.append skip_space]. rewrite C. now apply IH.
Qed.

Lemma blank_text (ws : string) :
  all_chars blank_char ws = true -> all_chars text_char ws = true.
Proof.
  induction ws as [|c ws IH]; [reflexivity|]. cbn [all_chars]. intros H.
  apply andb_true_iff in H. destruct H as [C H].
  unfold blank_char in C. apply andb_true_iff in C. destruct C as [_ C].
  now rewrite C, IH.
Qed.

(** White space before the text of a buffer is not read. *)
Lemma do_line_indented (ws l : string) (s : state) :
  all_chars blank_char ws = true ->
  all_chars text_char l = true ->
  do_line (line (String.append ws l)) s = do_line (line l) s.
Proof.
  intros Hw Hl. apply do_line_by_bp.
  - now rewrite all_chars_app, blank_text, Hl.
  - exact Hl.
  - now apply skip_space_blank.
Qed.

(** The turn of an [#error] and of a [#warning] buffer. *)
Lemma do_line_error_warning (rest : string) (s : state) :
  all_chars text_char rest = true ->
  (ignore_input s = 0 ->
   do_line (line (String.append "#error" rest)) s =
     Ok (error E_user (set_lnum (lnum s + 1) s)) /\
   do_line (line (String.append "#warning" rest)) s =
     Ok (note (set_lnum (lnum s + 1) s))) /\
  (ignore_input s <> 0 ->
   do_line (line (String.append "#error" rest)) s =
     Ok (set_lnum (lnum s + 1) s) /\
   do_line (line (String.append "#warning" rest)) s =
     Ok (set_lnum (lnum s + 1) s)).
Proof.
  intros C.
  assert (Ce : all_chars text_char (String.append "#error" rest) = true).
  { now rewrite all_chars_app, C. }
  assert (Cw : all_chars text_char (String.append "#warning" rest) = true).
  { now rewrite all_chars_app, C. }
  assert (Be : bp_of (line (String.append "#error" rest)) =
               String.append "#error" rest).
  { now rewrite bp_of_line. }
  assert (Bw : bp_of (line (String.append "#warning" rest)) =
               String.append "#warning" rest).
  { now rewrite bp_of_line. }
  assert (Ne : cstr (line (String.append "#error" rest)) <> "").
  { rewrite cstr_line by assumption. apply line_neq_empty. }
  assert (Nw : cstr (line (String.append "#warning" rest)) <> "").
  { rewrite cstr_line by assumption. apply line_neq_empty. }
  split.
  - intros Hi. split.
    + rewrite do_line_eq by assumption. cbv zeta. rewrite Be.
      cbn [ignore_input set_lnum]. rewrite Hi. destruct rest; reflexivity.
    + rewrite do_line_eq by assumption. cbv zeta. rewrite Bw.
      cbn [ignore_input set_lnum]. rewrite Hi. destruct rest; reflexivity.
  - intros Hi. split.
    + apply do_line_hidden; [|assumption]. unfold ordinary.
      rewrite Be, cstr_line by assumption.
      destruct rest; reflexivity.
    + apply do_line_hidden; [|assumption]. unfold ordinary.
      rewrite Bw, cstr_line by assumption.
      destruct rest; reflexivity.
Qed.

(** X16.  A line of at most 254 characters that starts with [#error] is
    reported as one error, and one that starts with [#warning] prints one
    note and is no error, when they are read while input is not ignored:
    the run goes on with the rest of the input from the state the lines
    before have left, with that one message added, so neither line changes
    the pending block, [pc] or the output.  Read while input is ignored,
    they do nothing but count as lines. *)
Theorem error_and_warning_lines (defs la : list string)
        (rest more : string) (s : state) :
  forallb fits la = true ->
  run_lines defs (text la) = Ok s ->
  (fits (String.append "#error" rest) = true ->
   run_lines defs (String.append (text la)
                     (String.append (line (String.append "#error" rest))
                                    more)) =
   run_from more (if ignore_input s =? 0
                  then error E_user (set_lnum (lnum s + 1) s)
                  else set_lnum (lnum s + 1) s)) /\
  (fits (String.append "#warning" rest) = true ->
   run_lines defs (String.append (text la)
                     (String.append (line (String.append "#warning" rest))
                                    more)) =
   run_from more (if ignore_input s =? 0
                  then note (set_lnum (lnum s + 1) s)
                  else set_lnum (lnum s + 1) s)).
Proof.
  intros Ha R. split; intros Hf.
  - assert (C : all_chars text_char rest = true).
    { apply fits_app_r in Hf. now apply fits_spec in Hf. }
    rewrite (run_lines_line defs la _ more s) by assumption.
    destruct (do_line_error_warning rest s C) as [A B].
    destruct (Z.eqb_spec (ignore_input s) 0) as [Hi|Hi].
    + now rewrite (proj1 (A Hi)).
    + now rewrite (proj1 (B Hi)).
  - assert (C : all_chars text_char rest = true).
    { apply fits_app_r in Hf. now apply fits_spec in Hf. }
    rewrite (run_lines_line defs la _ more s) by assumption.
    destruct (do_line_error_warning rest s C) as [A B].
    destruct (Z.eqb_spec (ignore_input s) 0) as [Hi|Hi].
    + now rewrite (proj2 (A Hi)).
    + now rewrite (proj2 (B Hi)).
Qed.

Lemma error_and_warning_lines_witness :
  (run_lines [] (String.append (text ["= 1000"])
                   (String.append
                      (line (String.append "#error" " no such model"))
                      (line "012345"))) =
     run_from (line "012345")
       (if ignore_input st_1000 =? 0
        then error E_user (set_lnum (lnum st_1000 + 1) st_1000)
        else set_lnum (lnum st_1000 + 1) st_1000) /\
   run_lines [] (String.append (text ["= 1000"])
                   (String.append
                      (line (String.append "#warning" " no such model"))
                      (line "012345"))) =
     run_from (line "012345")
       (if ignore_input st_1000 =? 0
        then note (set_lnum (lnum st_1000 + 1) st_1000)
        else set_lnum (lnum st_1000 + 1) st_1000)) /\
  (run_lines [] (String.append (text ["= 1000"; "#if 0"])
                   (String.append
                      (line (String.append "#error" " no such model"))
                      (line "#endif"))) =
     run_from (line "#endif")
       (if ignore_input st_if0 =? 0
        then error E_user (set_lnum (lnum st_if0 + 1) st_if0)
        else set_lnum (lnum st_if0 + 1) st_if0) /\
   run_lines [] (String.append (text ["= 1000"; "#if 0"])
                   (String.append
                      (line (String.append "#warning" " no such model"))
                      (line "#endif"))) =
     run_from (line "#endif")
       (if ignore_input st_if0 =? 0
        then note (set_lnum (lnum st_if0 + 1) st_if0)
        else set_lnum (lnum st_if0 + 1) st_if0)).
Proof.
  split; split.
  - apply (proj1 (error_and_warning_lines [] ["= 1000"] " no such model"
                    (line "012345") st_1000 eq_refl eq_refl)).
    reflexivity.
  - apply (proj2 (error_and_warning_lines [] ["= 1000"] " no such model"
                    (line "012345") st_1000 eq_refl eq_refl)).
    reflexivity.
  - apply (proj1 (error_and_warning_lines [] ["= 1000"; "#if 0"]
                    " no such model" (line "#endif") st_if0
                    eq_refl eq_refl)).
    reflexivity.
  - apply (proj2 (error_and_warning_lines [] ["= 1000"; "#if 0"]
                    " no such model" (line "#endif") st_if0
                    eq_refl eq_refl)).
    reflexivity.
Defined.

(** X17.  A line read as [b V] with [V] at most 0377, while input is
    not ignored, appends the one byte [V] to the pending block and adds 1
    to [pc]; it reports nothing and writes nothing. *)
Theorem byte_appended (buf : string) (b : Z) (s : state) :
  reads_as buf (OpByte b) ->
  ignore_input s = 0 ->
  0 <= b <= 255 ->
  Z.of_nat (List.length (data s)) < NBLK ->
  exists s' : state,
    do_line buf s = Ok s' /\
    data s' = data s ++ [b] /\
    pc s' = (pc s + 1) mod 2 ^ 32 /\
    (0 <= pc s -> pc s + 1 < 2 ^ 32 -> pc s' = pc s + 1) /\
    have_blk s' = true /\ org s' = org s /\ fwp s' = fwp s /\
    elog s' = elog s /\ errs s' = errs s.
Proof.
  intros R Hi Hb Hd.
  rewrite (do_line_reads_as _ _ _ R Hi). cbn [run_op].
  rewrite do_byte_ok by exact Hd.
  destruct (Z.ltb_spec 255 b); [lia|]. cbn [error_if].
  eexists. split; [reflexivity|]. fields.
  rewrite u1_of_byte by (unfold is_byte; lia).
  repeat split. intros. apply u4_small. lia.
Qed.

Lemma byte_appended_witness :
  exists s' : state,
    do_line (line "b 377") (init []) = Ok s' /\
    data s' = data (init []) ++ [255] /\
    pc s' = (pc (init []) + 1) mod 2 ^ 32 /\
    (0 <= pc (init []) -> pc (init []) + 1 < 2 ^ 32 ->
     pc s' = pc (init []) + 1) /\
    have_blk s' = true /\ org s' = org (init []) /\ fwp s' = fwp (init []) /\
    elog s' = elog (init []) /\ errs s' = errs (init []).
Proof.
  apply (byte_appended (line "b 377") 255 (init [])).
  - split; [vm_compute; discriminate|split; reflexivity].
  - reflexivity.
  - lia.
  - vm_compute. reflexivity.
Defined.

(** The turn of a buffer that starts with a stray character. *)
Lemma do_line_stray (c : ascii) (r : string) (s : state) :
  stray_char c = true ->
  all_chars text_char r = true ->
  ignore_input s = 0 ->
  do_line (line (String c r)) s =
  Ok (error E_syntax (set_lnum (lnum s + 1) s)).
Proof.
  intros Hc Hr Hi.
  rewrite (do_line_reads_as _ _ _ (reads_stray c r Hc Hr) Hi).
  reflexivity.
Qed.

(** X18.  A line of at most 254 characters whose first character after
    the leading white space is none with which a directive, a comment or an
    octal number starts ([8] and [9] are such characters) is a syntax error
    when it is read while input is not ignored: one error is reported,
    nothing else changes, and the run goes on with the rest of the
    input. *)
Theorem stray_line_is_syntax_error (defs la : list string) (ws : string)
        (c : ascii) (r more : string) (s : state) :
  forallb fits la = true ->
  run_lines defs (text la) = Ok s ->
  all_chars blank_char ws = true ->
  stray_char c = true ->
  fits (String.append ws (String c r)) = true ->
  ignore_input s = 0 ->
  run_lines defs (String.append (text la)
                    (String.append (line (String.append ws (String c r)))
                                   more)) =
  run_from more (error E_syntax (set_lnum (lnum s + 1) s)).
Proof.
  intros Ha R Hw Hc Hf Hi.
  rewrite (run_lines_line defs la _ more s) by assumption.
  pose proof (fits_app_r _ _ Hf) as Hf'. apply fits_spec in Hf'.
  destruct Hf' as [Hr _]. cbn [all_chars] in Hr.
  apply andb_true_iff in Hr. destruct Hr as [Hc' Hr].
  rewrite (do_line_indented ws (String c r) s Hw)
    by (cbn [all_chars]; now rewrite Hc', Hr).
  rewrite (do_line_stray c r s Hc Hr Hi). reflexivity.
Qed.

Lemma stray_line_is_syntax_error_witness :
  run_lines [] (String.append (text ["= 1000"])
                  (String.append (line (String.append "  " (String "8" "00")))
                                 (line "012345"))) =
  run_from (line "012345")
           (error E_syntax (set_lnum (lnum st_1000 + 1) st_1000)).
Proof.
  apply (stray_line_is_syntax_error [] ["= 1000"] "  " "8" "00"
           (line "012345") st_1000); reflexivity.
Defined.

Lemma three_words_text (a b c : list Z) (rest : string) :
  Forall is_octal a -> Forall is_octal b -> Forall is_octal c ->
  all_chars text_char rest = true ->
  all_chars text_char
    (String.append (octal_string a)
       (String " " (String.append (octal_string b)
          (String " " (String.append (octal_string c) rest))))) = true.
Proof.
  intros Fa Fb Fc Hr.
  rewrite all_chars_app, octal_text by assumption. cbn [all_chars andb].
  change (text_char " ") with true. cbn [andb].
  rewrite all_chars_app, octal_text by assumption. cbn [all_chars andb].
  change (text_char " ") with true. cbn [andb].
  rewrite all_chars_app, octal_text by assumption. exact Hr.
Qed.

(** The turn of a buffer of three words followed by text. *)
Lemma do_line_three_words (a b c : list Z) (rest : string)
        (s : state) :
  a <> [] -> b <> [] -> c <> [] ->
  Forall is_octal a -> Forall is_octal b -> Forall is_octal c ->
  all_chars text_char rest = true ->
  do_line
    (line (String.append (octal_string a)
             (String " " (String.append (octal_string b)
                (String " " (String.append (octal_string c)
                   (String " " rest))))))) s =
  do_line
    (line (String.append (octal_string a)
             (String " " (String.append (octal_string b)
                (String " " (octal_string c)))))) s.
Proof.
  intros Na Nb Nc Fa Fb Fc Hr.
  destruct a as [|d a']; [congruence|].
  inversion Fa as [|? ? Hd Fa']. subst.
  apply (do_line_same_op _ _ (OpWords [scanned (d :: a'); scanned b; scanned c])).
  - rewrite <- (sscanf_ooo_3 (d :: a') b c rest) by assumption.
    apply (reads_words_line d); [exact Hd|].
    apply (three_words_text (d :: a') b c (String " " rest)); assumption.
  - rewrite <- (sscanf_ooo_3_end (d :: a') b c) by assumption.
    apply (reads_words_line d); [exact Hd|].
    rewrite <- (append_empty_r (octal_string c)).
    now apply (three_words_text (d :: a') b c "").
Qed.

(** X19.  After three words nothing more of a line is read: in an input,
    a line of at most 254 characters that holds three octal numbers
    followed by a space and any text (a fourth word, a comment) can be
    replaced by the three numbers alone, and the run is the same. *)
Theorem text_after_three_words_ignored (defs la : list string)
        (a b c : list Z) (rest more : string) :
  forallb fits la = true ->
  a <> [] -> b <> [] -> c <> [] ->
  Forall is_octal a -> Forall is_octal b -> Forall is_octal c ->
  fits (String.append (octal_string a)
          (String " " (String.append (octal_string b)
             (String " " (String.append (octal_string c)
                (String " " rest)))))) = true ->
  main defs
       (String.append (text la)
          (String.append
             (line (String.append (octal_string a)
                      (String " " (String.append (octal_string b)
                         (String " " (String.append (octal_string c)
                            (String " " rest)))))))
             more)) =
  main defs
       (String.append (text la)
          (String.append
             (line (String.append (octal_string a)
                      (String " " (String.append (octal_string b)
                         (String " " (octal_string c))))))
             more)).
Proof.
  intros Ha Na Nb Nc Fa Fb Fc Hf.
  assert (Hr : all_chars text_char rest = true).
  { apply fits_app_r in Hf. change (String " " ?x) with (String.append " " x) in Hf.
    apply fits_app_r in Hf. apply fits_app_r in Hf.
    change (String " " ?x) with (String.append " " x) in Hf.
    apply fits_app_r in Hf. apply fits_app_r in Hf.
    change (String " " ?x) with (String.append " " x) in Hf.
    apply fits_app_r in Hf. now apply fits_spec in Hf. }
  apply main_same_line; try assumption.
  - unfold fits. apply fits_spec in Hf. destruct Hf as [_ Hl].
    rewrite <- (append_empty_r (octal_string c)).
    rewrite (three_words_text a b c "") by (try assumption; reflexivity).
    apply Nat.ltb_lt. rewrite append_empty_r.
    rewrite !length_append in *. cbn [String.length] in *.
    rewrite !length_append in *. cbn [String.length] in *.
    rewrite !length_append in *. cbn [String.length] in *.
    unfold NBUF. lia.
  - intros s. now apply do_line_three_words.
Qed.

Lemma text_after_three_words_ignored_witness :
  main []
       (String.append (text ["= 1000"])
          (String.append
             (line (String.append (octal_string [1])
                      (String " " (String.append (octal_string [2])
                         (String " " (String.append (octal_string [3])
                            (String " " "4")))))))
             (line "000005"))) =
  main []
       (String.append (text ["= 1000"])
          (String.append
             (line (String.append (octal_string [1])
                      (String " " (String.append (octal_string [2])
                         (String " " (octal_string [3]))))))
             (line "000005"))).
Proof.
  apply (text_after_three_words_ignored [] ["= 1000"] [1] [2] [3] "4"
           (line "000005"));
    try discriminate; try reflexivity;
    repeat constructor; unfold is_octal; lia.
Defined.

(** X20.  A blank line or a comment changes nothing but the numbers of
    the lines after it: the run of an input and the run of the input
    without that line come to the same fault, or end with the same output,
    the same number and kinds of errors, the same symbols. *)
Theorem comments_transparent (defs la lb : list string) (c : string) :
  forallb fits (la ++ c :: lb) = true ->
  String.eqb (skip_space c) "" || prefix "//" (skip_space c) = true ->
  blind_res (main defs (text (la ++ c :: lb))) (main defs (text (la ++ lb))).
Proof.
  intros Hf Hc. pose proof Hf as Hf'.
  apply forallb_fits_app in Hf'. destruct Hf' as [Fa Fb].
  cbn [forallb] in Fb. apply andb_true_iff in Fb. destruct Fb as [Fc Fb].
  apply blind_main; [tauto|].
  rewrite !run_lines_text; try assumption.
  2:{ rewrite forallb_app, Fa, Fb. reflexivity. }
  rewrite !map_app. cbn [map]. apply blind_blank.
  apply is_blank_line; [|exact Hc]. now apply fits_spec in Fc.
Qed.

Lemma comments_transparent_witness :
  blind_res
    (main [] (text (["= 1000"] ++ "  // the first word" :: ["012345"])))
    (main [] (text (["= 1000"] ++ ["012345"]))).
Proof.
  apply (comments_transparent [] ["= 1000"] ["012345"] "  // the first word");
    reflexivity.
Defined.

(** ** Listings *)

(** X21.  A listing made of sections, each an origin line [= aaaaaa] with
    an even origin of 16 bits, followed by words of 16 bits, one six-digit
    word a line and fewer than 32768 of them, is translated without an
    error into one block for every section that has words, with the origin
    of the section as its address and the bytes of its words, low byte
    first, as its data, in the order of the sections, and the halt block
    after them. *)
Theorem listing_blocks (defs : list string) (secs : list (Z * list Z)) :
  Z.of_nat (List.length defs) <= N_IFDEFS ->
  Forall section_ok secs ->
  exists s : state,
    main defs (text (listing secs)) = Ok s /\
    fwp s = flat_map section_blocks secs ++ [halt_image] /\
    elog s = [] /\ errs s = 0 /\ rm s = false.
Proof. apply listing_main. Qed.

Lemma listing_blocks_witness :
  exists s : state,
    main [] (text (listing [(512, [5349; 1]); (1024, []); (2048, [7])]))
      = Ok s /\
    fwp s = flat_map section_blocks [(512, [5349; 1]); (1024, []); (2048, [7])]
              ++ [halt_image] /\
    elog s = [] /\ errs s = 0 /\ rm s = false.
Proof.
  apply (listing_blocks [] [(512, [5349; 1]); (1024, []); (2048, [7])]).
  - vm_compute. discriminate.
  - repeat constructor; cbn; try lia; try reflexivity.
Defined.

(** ** The command line and the exit status *)

(** X22.  A command line made of options, with at most 32 [--def], is
    read option by option: [--h] and [--help] set [help], [--list] sets
    [list], [--in], [--out] and [--def] take the argument that follows as
    it is (also when it looks like an option), a later [--in] or [--out]
    replaces an earlier one, and the symbols of the [--def] options are
    the table of symbols, in their order. *)
Theorem command_line_parsed (os : list option_t) :
  Z.of_nat (List.length (filter is_def os)) <= N_IFDEFS ->
  parse_args (flat_map option_args os) args0 =
    Parsed (fold_left set_option os args0) /\
  def_syms (fold_left set_option os args0) =
    flat_map (fun o => match o with O_def v => [v] | _ => [] end) os.
Proof.
  intros H. split.
  - rewrite <- (app_nil_r (flat_map option_args os)).
    rewrite parse_options; [reflexivity|]. cbn. lia.
  - apply (def_syms_options os args0).
Qed.

Lemma command_line_parsed_witness :
  parse_args (flat_map option_args
                [O_in "a.txt"; O_def "--list"; O_in "b.txt"; O_out "b.abs"])
             args0 =
    Parsed (fold_left set_option
              [O_in "a.txt"; O_def "--list"; O_in "b.txt"; O_out "b.abs"]
              args0) /\
  def_syms (fold_left set_option
              [O_in "a.txt"; O_def "--list"; O_in "b.txt"; O_out "b.abs"]
              args0) =
    flat_map (fun o => match o with O_def v => [v] | _ => [] end)
             [O_in "a.txt"; O_def "--list"; O_in "b.txt"; O_out "b.abs"].
Proof.
  apply (command_line_parsed
           [O_in "a.txt"; O_def "--list"; O_in "b.txt"; O_out "b.abs"]).
  vm_compute. discriminate.
Defined.

(** X23.  An argument in the place of an option that is none of the six
    options ends the program with the status -1, before a file is opened
    and whatever the other arguments: so does a file name given without
    [--in] or [--out]. *)
Theorem unknown_option_rejected (prog x : string) (os : list option_t)
        (rest : list string)
        (fopen_r : string -> option string) (fopen_w : string -> bool) :
  Z.of_nat (List.length (filter is_def os)) <= N_IFDEFS ->
  is_option x = false ->
  main_argv (prog :: flat_map option_args os ++ x :: rest) fopen_r fopen_w =
    UnknownOption x /\
  status (main_argv (prog :: flat_map option_args os ++ x :: rest)
                    fopen_r fopen_w) = Some (-1).
Proof.
  intros H Hx.
  assert (E : main_argv (prog :: flat_map option_args os ++ x :: rest)
                        fopen_r fopen_w = UnknownOption x).
  { unfold main_argv. rewrite parse_options by (cbn; lia).
    now rewrite parse_unknown. }
  rewrite E. split; reflexivity.
Qed.

Lemma unknown_option_rejected_witness :
  main_argv ("txt2abs" :: flat_map option_args [O_list]
               ++ "infile.txt" :: ["outfile.abs"])
            (fun _ => Some "") (fun _ => true) =
    UnknownOption "infile.txt" /\
  status (main_argv ("txt2abs" :: flat_map option_args [O_list]
                       ++ "infile.txt" :: ["outfile.abs"])
                    (fun _ => Some "") (fun _ => true)) = Some (-1).
Proof.
  apply (unknown_option_rejected "txt2abs" "infile.txt" [O_list]
           ["outfile.abs"] (fun _ => Some "") (fun _ => true)).
  - vm_compute. discriminate.
  - reflexivity.
Defined.

(** X24.  The loop over the arguments leaves its arrays in two cases:
    when [--in], [--out] or [--def] is the last argument, the argument it
    takes is the null pointer that ends [argv] and the loop goes on beyond
    it; and a 33rd [--def] is stored beyond the table of symbols. *)
Theorem command_line_overruns (prog : string) (os : list option_t)
        (fopen_r : string -> option string) (fopen_w : string -> bool) :
  (Z.of_nat (List.length (filter is_def os)) < N_IFDEFS ->
   forall x : string,
     In x ["--in"; "--out"; "--def"] ->
     main_argv (prog :: flat_map option_args os ++ [x]) fopen_r fopen_w =
     UndefinedArgv) /\
  (Z.of_nat (List.length (filter is_def os)) = N_IFDEFS ->
   forall rest : list string,
     main_argv (prog :: flat_map option_args os ++ "--def" :: rest)
               fopen_r fopen_w =
     UndefinedTable).
Proof.
  split.
  - intros H x Hx. unfold main_argv. rewrite parse_options by (cbn; lia).
    cbn [In] in Hx. destruct Hx as [<-|[<-|[<-|[]]]]; try reflexivity.
    cbn [parse_args String.eqb Ascii.eqb Bool.eqb orb andb].
    rewrite def_syms_options. cbn [def_syms args0 app]. rewrite count_defs.
    destruct (Z.leb_spec N_IFDEFS
                (Z.of_nat (List.length (filter is_def os)))); [lia|].
    reflexivity.
  - intros H rest. unfold main_argv. rewrite parse_options by (cbn; lia).
    cbn [parse_args String.eqb Ascii.eqb Bool.eqb orb andb].
    rewrite def_syms_options. cbn [def_syms args0 app]. rewrite count_defs.
    destruct (Z.leb_spec N_IFDEFS
                (Z.of_nat (List.length (filter is_def os)))); [|lia].
    reflexivity.
Qed.

Lemma command_line_overruns_witness :
  main_argv ("txt2abs" :: flat_map option_args [O_in "a.txt"] ++ ["--out"])
            (fun _ => Some "") (fun _ => true) = UndefinedArgv /\
  main_argv ("txt2abs" :: flat_map option_args
                            (map O_def (repeat "A" 32)) ++ "--def" :: ["B"])
            (fun _ => Some "") (fun _ => true) = UndefinedTable.
Proof.
  split.
  - apply (proj1 (command_line_overruns "txt2abs" [O_in "a.txt"]
                    (fun _ => Some "") (fun _ => true))).
    + vm_compute. reflexivity.
    + cbn. tauto.
  - apply (proj2 (command_line_overruns "txt2abs"
                    (map O_def (repeat "A" 32))
                    (fun _ => Some "") (fun _ => true))).
    vm_compute. reflexivity.
Defined.

Lemma fn_in_length (os : list option_t) (a : args) (fi : string) :
  fn_in a = None -> fn_in (fold_left set_option os a) = Some fi ->
  (2 <= List.length (flat_map option_args os))%nat.
Proof.
  revert a. induction os as [|o os IH]; intros a Ha H; cbn [fold_left] in H.
  - congruence.
  - cbn [flat_map]. rewrite length_app.
    destruct o; try (cbn [option_args List.length]; lia);
      (assert (L : (2 <= List.length (flat_map option_args os))%nat)
         by (eapply IH; [|exact H]; exact Ha); lia).
Qed.

(** X25.  With a command line of options that gives the two file names
    and no help option, the program ends with the status -1 when the input
    file cannot be opened, without having opened the output file, and with
    the status -1 when the output file cannot be opened.  When both are
    opened and the run ends, the status is 0, whatever the number of
    errors of the run. *)
Theorem files_and_status (prog fi fo : string) (os : list option_t)
        (fopen_r : string -> option string) (fopen_w : string -> bool) :
  Z.of_nat (List.length (filter is_def os)) <= N_IFDEFS ->
  help (fold_left set_option os args0) = false ->
  fn_in (fold_left set_option os args0) = Some fi ->
  fn_out (fold_left set_option os args0) = Some fo ->
  main_argv (prog :: flat_map option_args os) fopen_r fopen_w =
    match fopen_r fi with
    | None => NoInput fi
    | Some input =>
        if fopen_w fo then
          match main (def_syms (fold_left set_option os args0)) input with
          | Ok s => Finished (fold_left set_option os args0) s
          | Fault f => UndefinedRun f
          end
        else NoOutput fo
    end /\
  (forall (input : string) (s : state),
      fopen_r fi = Some input -> fopen_w fo = true ->
      main (def_syms (fold_left set_option os args0)) input = Ok s ->
      status (main_argv (prog :: flat_map option_args os) fopen_r fopen_w)
      = Some 0).
Proof.
  intros H Hh Hi Ho.
  assert (E : main_argv (prog :: flat_map option_args os) fopen_r fopen_w =
              match fopen_r fi with
              | None => NoInput fi
              | Some input =>
                  if fopen_w fo then
                    match main (def_syms (fold_left set_option os args0))
                               input with
                    | Ok s => Finished (fold_left set_option os args0) s
                    | Fault f => UndefinedRun f
                    end
                  else NoOutput fo
              end).
  { unfold main_argv.
    rewrite <- (app_nil_r (flat_map option_args os)) at 1.
    rewrite parse_options by (cbn; lia). cbn [parse_args].
    pose proof (fn_in_length os args0 fi eq_refl Hi) as L.
    destruct (Z.ltb_spec
                (Z.of_nat (List.length (prog :: flat_map option_args os))) 3)
      as [A|_]; [cbn [List.length] in A; lia|].
    rewrite Hh, Hi, Ho. reflexivity. }
  split; [exact E|].
  intros input s Hr Hw Hm. rewrite E, Hr, Hw, Hm. reflexivity.
Qed.

Lemma files_and_status_witness :
  main_argv ("txt2abs" :: flat_map option_args
                            [O_def "11/34"; O_in "a.txt"; O_out "a.abs"])
            (fun _ => Some (text ["= 1"; "000001"])) (fun _ => true) =
    match (fun _ : string => Some (text ["= 1"; "000001"])) "a.txt" with
    | None => NoInput "a.txt"
    | Some input =>
        if (fun _ : string => true) "a.abs" then
          match main (def_syms (fold_left set_option
                                  [O_def "11/34"; O_in "a.txt"; O_out "a.abs"]
                                  args0)) input with
          | Ok s => Finished (fold_left set_option
                                [O_def "11/34"; O_in "a.txt"; O_out "a.abs"]
                                args0) s
          | Fault f => UndefinedRun f
          end
        else NoOutput "a.abs"
    end /\
  (forall (input : string) (s : state),
      (fun _ : string => Some (text ["= 1"; "000001"])) "a.txt" = Some input ->
      (fun _ : string => true) "a.abs" = true ->
      main (def_syms (fold_left set_option
                        [O_def "11/34"; O_in "a.txt"; O_out "a.abs"] args0))
           input = Ok s ->
      status (main_argv ("txt2abs" :: flat_map option_args
                           [O_def "11/34"; O_in "a.txt"; O_out "a.abs"])
                        (fun _ => Some (text ["= 1"; "000001"]))
                        (fun _ => true))
      = Some 0).
Proof.
  apply (files_and_status "txt2abs" "a.txt" "a.abs"
           [O_def "11/34"; O_in "a.txt"; O_out "a.abs"]
           (fun _ => Some (text ["= 1"; "000001"])) (fun _ => true)).
  - vm_compute. discriminate.
  - reflexivity.
  - reflexivity.
  - reflexivity.
Defined.

(** ** Directives followed by text *)

(** The turn of a buffer in which text follows [#else], [#endif],
    [#if 1] or [#if 0]. *)
Lemma do_line_directive_text (d rest : string) (s : state) :
  In d ["#else"; "#endif"; "#if 1"; "#if 0"] ->
  rest <> "" ->
  all_chars text_char rest = true ->
  (ignore_input s = 0 ->
   do_line (line (String.append d rest)) s =
   Ok (error E_syntax (set_lnum (lnum s + 1) s))) /\
  (ignore_input s <> 0 ->
   do_line (line (String.append d rest)) s = Ok (set_lnum (lnum s + 1) s)).
Proof.
  intros Hd Hn Hr.
  assert (Cd : all_chars text_char d = true).
  { cbn [In] in Hd. destruct Hd as [<-|[<-|[<-|[<-|[]]]]]; reflexivity. }
  assert (C : all_chars text_char (String.append d rest) = true).
  { now rewrite all_chars_app, Cd, Hr. }
  assert (B : bp_of (line (String.append d rest)) = String.append d rest).
  { rewrite bp_of_line by assumption.
    cbn [In] in Hd. destruct Hd as [<-|[<-|[<-|[<-|[]]]]]; reflexivity. }
  assert (N : cstr (line (String.append d rest)) <> "").
  { rewrite cstr_line by assumption. apply line_neq_empty. }
  destruct rest as [|c r]; [congruence|].
  split; intros Hi.
  - rewrite do_line_eq by assumption. cbv zeta. rewrite B.
    cbn [ignore_input set_lnum]. rewrite Hi.
    cbn [In] in Hd. destruct Hd as [<-|[<-|[<-|[<-|[]]]]]; reflexivity.
  - apply do_line_hidden; [|assumption]. unfold ordinary.
    rewrite B, cstr_line by assumption.
    cbn [In] in Hd. destruct Hd as [<-|[<-|[<-|[<-|[]]]]]; reflexivity.
Qed.

(** X26.  On a line that ends in a newline and has at most 254
    characters, [#else], [#endif], [#if 1] and [#if 0] are taken as
    directives only when nothing follows them.  Followed by any text (a
    space, a comment, a carriage return), the line is a syntax error when
    it is read while input is not ignored, and is skipped, so that it does
    not end or switch the suppressed region, when input is ignored; the
    run goes on with the rest of the input. *)
Theorem directive_followed_by_text (defs la : list string)
        (d rest more : string) (s : state) :
  forallb fits la = true ->
  run_lines defs (text la) = Ok s ->
  In d ["#else"; "#endif"; "#if 1"; "#if 0"] ->
  rest <> "" ->
  fits (String.append d rest) = true ->
  (ignore_input s = 0 ->
   run_lines defs (String.append (text la)
                     (String.append (line (String.append d rest)) more)) =
   run_from more (error E_syntax (set_lnum (lnum s + 1) s))) /\
  (ignore_input s <> 0 ->
   run_lines defs (String.append (text la)
                     (String.append (line (String.append d rest)) more)) =
   run_from more (set_lnum (lnum s + 1) s)).
Proof.
  intros Ha R Hd Hn Hf.
  assert (C : all_chars text_char rest = true).
  { apply fits_app_r in Hf. now apply fits_spec in Hf. }
  rewrite (run_lines_line defs la _ more s) by assumption.
  destruct (do_line_directive_text d rest s Hd Hn C) as [A B].
  split; intros Hi.
  - now rewrite (A Hi).
  - now rewrite (B Hi).
Qed.

Lemma directive_followed_by_text_witness :
  run_lines [] (String.append (text ["= 1000"])
                  (String.append (line (String.append "#endif" " // FOO"))
                                 (line "012345"))) =
    run_from (line "012345")
             (error E_syntax (set_lnum (lnum st_1000 + 1) st_1000)) /\
  run_lines [] (String.append (text ["= 1000"; "#if 0"])
                  (String.append (line (String.append "#endif" " // FOO"))
                                 (line "012345"))) =
    run_from (line "012345") (set_lnum (lnum st_if0 + 1) st_if0).
Proof.
  split.
  - apply (proj1 (directive_followed_by_text [] ["= 1000"] "#endif"
                    " // FOO" (line "012345") st_1000 eq_refl eq_refl
                    (or_intror (or_introl eq_refl))
                    ltac:(discriminate) eq_refl)).
    reflexivity.
  - apply (proj2 (directive_followed_by_text [] ["= 1000"; "#if 0"]
                    "#endif" " // FOO" (line "012345") st_if0 eq_refl eq_refl
                    (or_intror (or_introl eq_refl))
                    ltac:(discriminate) eq_refl)).
    vm_compute. discriminate.
Defined.

(** ** What a line writes; text that is not read *)

Lemma fwp_do_line (buf : string) (s s' : state) :
  do_line buf s = Ok s' ->
  fwp s' = fwp s \/
  (have_blk s = true /\ fwp s' = fwp s ++ [image (org s) (data s)]).
Proof.
  intros H. apply do_line_cases in H.
  destruct H as [(_ & _ & _ & _ & F)|(o & s1 & S1 & _ & _ & N & R)].
  - now left.
  - destruct S1 as (B1 & D1 & O1 & _ & F1).
    apply run_op_fwp in R; [|exact N].
    destruct R as [R|[B R]].
    + left. congruence.
    + right. rewrite B1, D1, O1, F1 in *. now split.
Qed.

(** X27.  A line writes at most one block, and the block it writes is
    the pending block, as it stands before the line; what was written
    before stays as it is, so the output of some lines is the output
    before them followed by at most one block a line. *)
Theorem one_block_a_line :
  (forall (buf : string) (s s' : state),
      do_line buf s = Ok s' ->
      fwp s' = fwp s \/
      (have_blk s = true /\ fwp s' = fwp s ++ [image (org s) (data s)])) /\
  (forall (bufs : list string) (s s' : state),
      do_lines bufs s = Ok s' ->
      exists l : list (list Z),
        fwp s' = fwp s ++ l /\ (List.length l <= List.length bufs)%nat).
Proof.
  split; [exact fwp_do_line|].
  induction bufs as [|b bufs IH]; intros s s' H; cbn [do_lines] in H.
  - apply Ok_inj in H. subst. exists []. rewrite app_nil_r. split; auto.
  - destruct (do_line b s) as [s1|] eqn:E; [|discriminate]. cbn [bind] in H.
    apply IH in H. destruct H as (l & F & L).
    apply fwp_do_line in E. destruct E as [E|[_ E]].
    + exists l. rewrite F, E. split; [reflexivity|]. cbn [List.length]. lia.
    + exists (image (org s) (data s) :: l). rewrite F, E, <- app_assoc.
      split; [reflexivity|]. cbn [List.length]. lia.
Qed.

Lemma one_block_a_line_witness :
  (fwp st_200000 = fwp st_177776 \/
   (have_blk st_177776 = true /\
    fwp st_200000 =
    fwp st_177776 ++ [image (org st_177776) (data st_177776)])) /\
  (exists l : list (list Z),
      fwp st_high = fwp (init []) ++ l /\
      (List.length l <=
       List.length [line "= 177776"; line "000001"; line ": 177776";
                    line "000002"])%nat).
Proof.
  split.
  - apply (proj1 one_block_a_line (line "000001") st_177776 st_200000).
    vm_compute. reflexivity.
  - apply (proj2 one_block_a_line
             [line "= 177776"; line "000001"; line ": 177776"; line "000002"]
             (init []) st_high).
    vm_compute. reflexivity.
Defined.

(** X28.  White space before the text of a line is not read: in an
    input, a line of at most 254 characters that starts with spaces or
    tabs can be replaced by the line without them, and the run is the
    same. *)
Theorem indentation_ignored (defs la : list string) (ws l more : string) :
  forallb fits la = true ->
  all_chars blank_char ws = true ->
  fits (String.append ws l) = true ->
  main defs (String.append (text la)
               (String.append (line (String.append ws l)) more)) =
  main defs (String.append (text la) (String.append (line l) more)).
Proof.
  intros Ha Hw Hf. pose proof (fits_app_r _ _ Hf) as Hl.
  apply main_same_line; try assumption.
  intros s. apply do_line_indented; [assumption|].
  now apply fits_spec in Hl.
Qed.

Lemma indentation_ignored_witness :
  main [] (String.append (text ["= 1000"])
             (String.append (line (String.append "    " "#if 0"))
                            (text ["012345"; "#endif"]))) =
  main [] (String.append (text ["= 1000"])
             (String.append (line "#if 0") (text ["012345"; "#endif"]))).
Proof.
  apply (indentation_ignored [] ["= 1000"] "    " "#if 0"
           (text ["012345"; "#endif"])); reflexivity.
Defined.

Lemma sym_rest_text (lit w rest : string) :
  all_chars text_char lit = true -> is_word w = true ->
  all_chars text_char rest = true ->
  all_chars text_char
    (String.append lit (String " " (String.append w (String " " rest))))
  = true.
Proof.
  intros Hl Hw Hr. apply is_word_spec in Hw. destruct Hw as (_ & _ & T).
  rewrite all_chars_app, Hl. cbn [all_chars andb].
  change (text_char " ") with true. cbn [andb].
  rewrite all_chars_app, T. cbn [all_chars andb].
  change (text_char " ") with true. cbn [andb]. exact Hr.
Qed.

Lemma sym_text (lit w : string) :
  all_chars text_char lit = true -> is_word w = true ->
  all_chars text_char (String.append lit (String " " w)) = true.
Proof.
  intros Hl Hw. apply is_word_spec in Hw. destruct Hw as (_ & _ & T).
  rewrite all_chars_app, Hl. cbn [all_chars andb].
  change (text_char " ") with true. cbn [andb]. exact T.
Qed.

(** The turn of a buffer in which text follows the symbol of [#ifdef]
    or of [#define]. *)
Lemma do_line_symbol_text (w rest : string) (s : state) :
  is_word w = true ->
  all_chars text_char rest = true ->
  do_line (line (String.append "#ifdef"
                   (String " " (String.append w (String " " rest))))) s =
    do_line (line (String.append "#ifdef" (String " " w))) s /\
  do_line (line (String.append "#define"
                   (String " " (String.append w (String " " rest))))) s =
    do_line (line (String.append "#define" (String " " w))) s.
Proof.
  intros Hw Hr.
  pose proof (sscanf_s_sym "#ifdef" w (String " " rest) Hw eq_refl) as I1.
  pose proof (sscanf_s_sym0 "#ifdef" w Hw) as I2.
  pose proof (sscanf_s_sym "#define" w (String " " rest) Hw eq_refl) as D1.
  pose proof (sscanf_s_sym0 "#define" w Hw) as D2.
  split.
  - rewrite !do_line_eq.
    2:{ rewrite cstr_line; [apply line_neq_empty|].
        now apply sym_text. }
    2:{ rewrite cstr_line; [apply line_neq_empty|].
        now apply sym_rest_text. }
    cbv zeta. rewrite !bp_of_line by first [now apply sym_rest_text | now apply sym_text].
    change (skip_space (String.append "#ifdef" ?x)) with (String.append "#ifdef" x).
    rewrite I1, I2. reflexivity.
  - rewrite !do_line_eq.
    2:{ rewrite cstr_line; [apply line_neq_empty|].
        now apply sym_text. }
    2:{ rewrite cstr_line; [apply line_neq_empty|].
        now apply sym_rest_text. }
    cbv zeta. rewrite !bp_of_line by first [now apply sym_rest_text | now apply sym_text].
    change (skip_space (String.append "#define" ?x))
      with (String.append "#define" x).
    unfold do_active. rewrite D1, D2. reflexivity.
Qed.

(** X29.  After the symbol of [#ifdef] and of [#define] nothing more of
    the line is read: in an input, a line of at most 254 characters that
    holds the directive followed by a space and any text (a value, a
    comment) can be replaced by the directive alone, and the run is the
    same. *)
Theorem text_after_symbol_ignored (defs la : list string)
        (w rest more : string) :
  forallb fits la = true ->
  is_word w = true ->
  (fits (String.append "#ifdef"
           (String " " (String.append w (String " " rest)))) = true ->
   main defs (String.append (text la)
                (String.append
                   (line (String.append "#ifdef"
                            (String " " (String.append w (String " " rest)))))
                   more)) =
   main defs (String.append (text la)
                (String.append
                   (line (String.append "#ifdef" (String " " w))) more))) /\
  (fits (String.append "#define"
           (String " " (String.append w (String " " rest)))) = true ->
   main defs (String.append (text la)
                (String.append
                   (line (String.append "#define"
                            (String " " (String.append w (String " " rest)))))
                   more)) =
   main defs (String.append (text la)
                (String.append
                   (line (String.append "#define" (String " " w))) more))).
Proof.
  intros Ha Hw.
  assert (F : forall lit : string,
             fits (String.append lit
                     (String " " (String.append w (String " " rest)))) = true
             -> all_chars text_char rest = true /\
                fits (String.append lit (String " " w)) = true).
  { intros lit Hf. split.
    - apply fits_app_r in Hf.
      change (String " " ?x) with (String.append " " x) in Hf.
      apply fits_app_r in Hf. apply fits_app_r in Hf.
      change (String " " ?x) with (String.append " " x) in Hf.
      apply fits_app_r in Hf. now apply fits_spec in Hf.
    - change (String " " (String.append w (String " " rest)))
        with (String.append " " (String.append w (String " " rest))) in Hf.
      rewrite <- (append_assoc " " w (String " " rest)) in Hf.
      rewrite <- (append_assoc lit (String.append " " w)) in Hf.
      apply fits_app_l in Hf. exact Hf. }
  split; intros Hf; destruct (F _ Hf) as [Hr Hs];
    apply main_same_line; try assumption; intros s.
  - exact (proj1 (do_line_symbol_text w rest s Hw Hr)).
  - exact (proj2 (do_line_symbol_text w rest s Hw Hr)).
Qed.

Lemma text_after_symbol_ignored_witness :
  main [] (String.append (text ["= 1000"])
             (String.append
                (line (String.append "#ifdef"
                         (String " " (String.append "FOO"
                                        (String " " "// model")))))
                (text ["012345"; "#endif"]))) =
    main [] (String.append (text ["= 1000"])
               (String.append
                  (line (String.append "#ifdef" (String " " "FOO")))
                  (text ["012345"; "#endif"]))) /\
  main [] (String.append (text ["= 1000"])
             (String.append
                (line (String.append "#define"
                         (String " " (String.append "FOO"
                                        (String " " "// model")))))
                (text ["#ifdef FOO"; "012345"; "#endif"]))) =
    main [] (String.append (text ["= 1000"])
               (String.append
                  (line (String.append "#define" (String " " "FOO")))
                  (text ["#ifdef FOO"; "012345"; "#endif"]))).
Proof.
  split.
  - apply (proj1 (text_after_symbol_ignored [] ["= 1000"] "FOO" "// model"
                    (text ["012345"; "#endif"]) eq_refl eq_refl)).
    reflexivity.
  - apply (proj2 (text_after_symbol_ignored [] ["= 1000"] "FOO" "// model"
                    (text ["#ifdef FOO"; "012345"; "#endif"])
                    eq_refl eq_refl)).
    reflexivity.
Defined.
